(** * Temporal Agent MCP: a shallow embedding of the scheduling engine

    The development follows the layout of the repository:

    - [JsString], [Regex]     strings as sequences of UTF-16 code units and the
                              regular expressions of [utils/security.js];
    - [Security]              [isBlockedIP], [validateCronExpression],
                              [generateHmacSignature], [verifyHmacSignature],
                              [validateWebhookUrl], [sanitizePayload];
    - [Db]                    the three tables of [db/schema.sql] and the
                              statements of [db/queries.js];
    - [Worker]                [workers/scheduler.js];
    - [Tools]                 the tool handlers and the registry of
                              [tools/index.js];
    - [Operation]             tool calls and worker steps one after another,
                              and the stores they produce;
    - [Server], [Lifecycle]   the rate limiter and the endpoints of
                              [index.js], and the start and stop of the
                              scheduler.

    Database statements are atomic steps on the table contents; JavaScript
    exceptions are a result constructor ([Throw]); what the process reads from
    its surroundings (the clock, the resolver, the third-party parsers) is an
    explicit argument. *)

From stdpp Require Import base option list gmap.
From Stdlib Require Import ZArith NArith Lia Ascii String List Bool Sorted.
Import ListNotations.

Set Default Proof Using "Type".
Set Warnings "-register-all".

(* ===================================================================== *)
(** * JavaScript strings *)
(* ===================================================================== *)

Module JsString.

(** A JavaScript string is a finite sequence of UTF-16 code units. *)
Definition jsstring := list N.

(** [js "text"] is the string whose code units are the bytes of the ASCII
    literal. *)
Definition js (s : string) : jsstring :=
  List.map N_of_ascii (list_ascii_of_string s).

(** The code unit of a one-character literal. *)
Definition ch (s : string) : N :=
  match s with
  | String a _ => N_of_ascii a
  | EmptyString => 0%N
  end.

(** The double quote, which a literal of this file cannot hold. *)
Definition dquote : jsstring := [34%N].

Definition jsstring_eqb (a b : jsstring) : bool :=
  bool_decide (a = b).

(** Truthiness of a string value: the empty string is falsy. *)
Definition truthy (s : jsstring) : bool :=
  match s with [] => false | _ :: _ => true end.

(** Truthiness of an optional string ([undefined] is falsy). *)
Definition truthy_opt (s : option jsstring) : bool :=
  match s with None => false | Some s => truthy s end.

Section Classes.
Local Open Scope N_scope.

(** [\d] *)
Definition is_digit (c : N) : bool := (48 <=? c) && (c <=? 57).

(** [\s]: WhiteSpace and LineTerminator of ECMAScript. *)
Definition is_space (c : N) : bool :=
  (c =? 9) || (c =? 10) || (c =? 11) || (c =? 12) || (c =? 13) || (c =? 32)
  || (c =? 160) || (c =? 5760) || ((8192 <=? c) && (c <=? 8202))
  || (c =? 8232) || (c =? 8233) || (c =? 8239) || (c =? 8287)
  || (c =? 12288) || (c =? 65279).

(** A range [a-b] of a character class. *)
Definition in_range (lo hi c : N) : bool := (lo <=? c) && (c <=? hi).

Definition is_upper (c : N) : bool := in_range 65 90 c.
Definition is_lower (c : N) : bool := in_range 97 122 c.

(** [String.prototype.toLowerCase] on the ASCII letters; the host names and
    addresses handled here hold no other cased letter. *)
Definition to_lower (c : N) : N := if is_upper c then c + 32 else c.

(** Canonicalisation of the [i] flag for a pattern character [p] that is an
    ASCII letter or no letter at all: the two ASCII cases of [p] match, and no
    code unit above 127 folds to an ASCII one. *)
Definition eq_nocase (p c : N) : bool :=
  (c =? p) || (is_lower p && (c =? p - 32)) || (is_upper p && (c =? p + 32)).

End Classes.

Definition toLowerCase (s : jsstring) : jsstring := List.map to_lower s.

(** [s.startsWith(p)] *)
Fixpoint startsWith (p s : jsstring) : bool :=
  match p, s with
  | [], _ => true
  | _ :: _, [] => false
  | a :: p', b :: s' => N.eqb a b && startsWith p' s'
  end.

(** The first occurrence of [pattern] in [s]: the text before it and the
    text after it. *)
Fixpoint find_first (pattern s : jsstring) : option (jsstring * jsstring) :=
  if startsWith pattern s then Some ([], skipn (List.length pattern) s)
  else match s with
       | [] => None
       | c :: s' =>
           match find_first pattern s' with
           | Some (before, following) => Some (c :: before, following)
           | None => None
           end
       end.

(** The replacement text of [replace]: [$$] stands for a dollar sign, [$&]
    for the match, [$`] and [$'] for the text before and after it. *)
Fixpoint substitution (matched before following replacement : jsstring) : jsstring :=
  match replacement with
  | [] => []
  | c :: r =>
      if N.eqb c 36 then
        match r with
        | d :: r' =>
            if N.eqb d 36 then 36%N :: substitution matched before following r'
            else if N.eqb d 38 then matched ++ substitution matched before following r'
            else if N.eqb d 96 then before ++ substitution matched before following r'
            else if N.eqb d 39 then following ++ substitution matched before following r'
            else c :: substitution matched before following r
        | [] => [c]
        end
      else c :: substitution matched before following r
  end.

(** [s.replace(pattern, replacement)] for a string [pattern]: the first
    occurrence is replaced, and [s] is returned as it is when there is none. *)
Definition String_replace (s pattern replacement : jsstring) : jsstring :=
  match find_first pattern s with
  | Some (before, following) =>
      before ++ substitution pattern before following replacement ++ following
  | None => s
  end.

(** [s.endsWith(p)] *)
Definition endsWith (p s : jsstring) : bool :=
  startsWith (List.rev p) (List.rev s).

(** [s.includes(c)] for a one-character needle. *)
Definition includes_char (c : N) (s : jsstring) : bool :=
  existsb (N.eqb c) s.

(** [s.split(c)] for a one-character separator. *)
Fixpoint split_char (c : N) (s : jsstring) : list jsstring :=
  match s with
  | [] => [[]]
  | x :: s' =>
      if N.eqb x c then [] :: split_char c s'
      else match split_char c s' with
           | [] => [[x]]
           | w :: ws => (x :: w) :: ws
           end
  end.

(** [s.trim()] *)
Fixpoint trimStart (s : jsstring) : jsstring :=
  match s with
  | c :: s' => if is_space c then trimStart s' else s
  | [] => []
  end.

Definition trim (s : jsstring) : jsstring :=
  List.rev (trimStart (List.rev (trimStart s))).

(** [s.split(/\s+/)]: the pieces between the maximal runs of white space; a
    run at either end leaves an empty piece there. [in_run] says that the
    previous code unit was white space. *)
Fixpoint split_spaces_from (in_run : bool) (s : jsstring) : list jsstring :=
  match s with
  | [] => [[]]
  | c :: s' =>
      if is_space c then
        if in_run then split_spaces_from true s'
        else [] :: split_spaces_from true s'
      else match split_spaces_from false s' with
           | [] => [[c]]
           | w :: ws => (c :: w) :: ws
           end
  end.

Definition split_spaces (s : jsstring) : list jsstring :=
  split_spaces_from false s.

(** [s.slice(1)], [s.slice(1, -1)] *)
Definition slice1 (s : jsstring) : jsstring := List.tl s.
Definition slice_inner (s : jsstring) : jsstring := List.removelast (List.tl s).

(** Decimal text of a natural number, as a template literal prints it. *)
Definition digit_char (d : N) : N := (48 + d)%N.

Fixpoint decimal_fuel (fuel : nat) (n : N) (acc : jsstring) : jsstring :=
  match fuel with
  | O => acc
  | S fuel' =>
      let acc' := digit_char (n mod 10) :: acc in
      if (n <? 10)%N then acc' else decimal_fuel fuel' (n / 10) acc'
  end.

Definition decimal (n : N) : jsstring :=
  decimal_fuel (S (N.to_nat (N.log2 n))) n [].

End JsString.
Export JsString.

(* ===================================================================== *)
(** * Regular expressions *)
(* ===================================================================== *)

Module Regex.

(** The fragment of the pattern language that the sources use: literals and
    character classes ([Chr]), concatenation, alternation and repetition.
    Anchors are handled by [test_prefix] and [test_whole]. *)
Inductive regex : Type :=
| Void : regex
| Eps : regex
| Chr : (N -> bool) -> regex
| Seq : regex -> regex -> regex
| Alt : regex -> regex -> regex
| Star : regex -> regex.

(** The language of a pattern. *)
Inductive lang : regex -> jsstring -> Prop :=
| lang_eps : lang Eps []
| lang_chr p c : p c = true -> lang (Chr p) [c]
| lang_seq r1 r2 u v : lang r1 u -> lang r2 v -> lang (Seq r1 r2) (u ++ v)
| lang_alt_l r1 r2 u : lang r1 u -> lang (Alt r1 r2) u
| lang_alt_r r1 r2 u : lang r2 u -> lang (Alt r1 r2) u
| lang_star_nil r : lang (Star r) []
| lang_star_more r u v : lang r u -> lang (Star r) v -> lang (Star r) (u ++ v).

Fixpoint nullable (r : regex) : bool :=
  match r with
  | Void => false
  | Eps => true
  | Chr _ => false
  | Seq r1 r2 => nullable r1 && nullable r2
  | Alt r1 r2 => nullable r1 || nullable r2
  | Star _ => true
  end.

(** Smart constructors keep the derivatives small. *)
Definition seq' (r1 r2 : regex) : regex :=
  match r1, r2 with
  | Void, _ => Void
  | _, Void => Void
  | Eps, _ => r2
  | _, _ => Seq r1 r2
  end.

Definition alt' (r1 r2 : regex) : regex :=
  match r1, r2 with
  | Void, _ => r2
  | _, Void => r1
  | _, _ => Alt r1 r2
  end.

Fixpoint deriv (c : N) (r : regex) : regex :=
  match r with
  | Void => Void
  | Eps => Void
  | Chr p => if p c then Eps else Void
  | Seq r1 r2 =>
      if nullable r1 then alt' (seq' (deriv c r1) r2) (deriv c r2)
      else seq' (deriv c r1) r2
  | Alt r1 r2 => alt' (deriv c r1) (deriv c r2)
  | Star r1 => seq' (deriv c r1) (Star r1)
  end.

(** [matches r s]: the whole of [s] is in the language of [r]. *)
Fixpoint matches (r : regex) (s : jsstring) : bool :=
  match s with
  | [] => nullable r
  | c :: s' => matches (deriv c r) s'
  end.

(** ** Pattern syntax *)

Definition any : regex := Chr (fun _ => true).
Definition chr (c : N) : regex := Chr (N.eqb c).
Definition chr_i (c : N) : regex := Chr (eq_nocase c).
Definition plus (r : regex) : regex := Seq r (Star r).
Definition digit : regex := Chr is_digit.
Definition range (lo hi : N) : regex := Chr (in_range lo hi).

(** A literal, and a literal under the [i] flag. *)
Fixpoint lit (s : jsstring) : regex :=
  match s with
  | [] => Eps
  | c :: s' => Seq (chr c) (lit s')
  end.

Fixpoint lit_i (s : jsstring) : regex :=
  match s with
  | [] => Eps
  | c :: s' => Seq (chr_i c) (lit_i s')
  end.

Fixpoint seqs (rs : list regex) : regex :=
  match rs with
  | [] => Eps
  | r :: rs' => Seq r (seqs rs')
  end.

Fixpoint alts (rs : list regex) : regex :=
  match rs with
  | [] => Void
  | [r] => r
  | r :: rs' => Alt r (alts rs')
  end.

(** [/^r/.test(s)]: some prefix of [s] matches [r]. *)
Definition test_prefix (r : regex) (s : jsstring) : bool :=
  matches (Seq r (Star any)) s.

(** [/^r$/.test(s)]: without the [m] flag [$] is the end of the input. *)
Definition test_whole (r : regex) (s : jsstring) : bool :=
  matches r s.

End Regex.
Export Regex.

(* ===================================================================== *)
(** * The [crypto] and [Buffer] primitives the sources call *)
(* ===================================================================== *)

Module Crypto.
Local Open Scope N_scope.

(** Bytes are numbers below 256, words numbers below 2^32. *)
Definition w32 (x : N) : N := x mod 2 ^ 32.

Definition rotr (n x : N) : N :=
  N.lor (N.shiftr x n) (w32 (N.shiftl x (32 - n))).

Definition big_sigma0 (x : N) : N :=
  N.lxor (rotr 2 x) (N.lxor (rotr 13 x) (rotr 22 x)).
Definition big_sigma1 (x : N) : N :=
  N.lxor (rotr 6 x) (N.lxor (rotr 11 x) (rotr 25 x)).
Definition small_sigma0 (x : N) : N :=
  N.lxor (rotr 7 x) (N.lxor (rotr 18 x) (N.shiftr x 3)).
Definition small_sigma1 (x : N) : N :=
  N.lxor (rotr 17 x) (N.lxor (rotr 19 x) (N.shiftr x 10)).
Definition choose (x y z : N) : N :=
  N.lxor (N.land x y) (N.land (N.lxor x (2 ^ 32 - 1)) z).
Definition majority (x y z : N) : N :=
  N.lxor (N.land x y) (N.lxor (N.land x z) (N.land y z)).

(** The first sixty-four primes. *)
Definition primes64 : list N :=
  [2; 3; 5; 7; 11; 13; 17; 19; 23; 29; 31; 37; 41; 43; 47; 53;
   59; 61; 67; 71; 73; 79; 83; 89; 97; 101; 103; 107; 109; 113; 127; 131;
   137; 139; 149; 151; 157; 163; 167; 173; 179; 181; 191; 193; 197; 199;
   211; 223; 227; 229; 233; 239; 241; 251; 257; 263; 269; 271; 277; 281;
   283; 293; 307; 311].

(** Integer cube root by bisection on the bits below [2^bits]. *)
Fixpoint cube_root_bits (bits : nat) (n acc : N) : N :=
  match bits with
  | O => acc
  | S b =>
      let t := acc + 2 ^ N.of_nat b in
      cube_root_bits b n (if t * t * t <=? n then t else acc)
  end.

(** The round constants: the first 32 bits of the fractional parts of the
    cube roots of the primes; the initial state: the same of the square roots
    of the first eight. *)
Definition round_constants : list N :=
  List.map (fun p => w32 (cube_root_bits 40 (p * 2 ^ 96) 0)) primes64.

Definition initial_state : list N :=
  List.map (fun p => w32 (N.sqrt (p * 2 ^ 64))) (firstn 8 primes64).

(** Big-endian bytes of a number, [n] of them. *)
Fixpoint be_bytes (n : nat) (x : N) : list N :=
  match n with
  | O => []
  | S n' => (N.shiftr x (8 * N.of_nat n')) mod 256 :: be_bytes n' x
  end.

Definition be_word (bs : list N) : N :=
  fold_left (fun acc b => acc * 256 + b) bs 0.

Definition sha_pad (msg : list N) : list N :=
  let len := N.of_nat (List.length msg) in
  let zeros := (64 - (len + 9) mod 64) mod 64 in
  msg ++ [128] ++ repeat 0 (N.to_nat zeros) ++ be_bytes 8 (8 * len).

(** The list cut into chunks of [k] elements, [n] of them. *)
Fixpoint chunks_of (k n : nat) (l : list N) : list (list N) :=
  match n with
  | O => []
  | S n' => firstn k l :: chunks_of k n' (skipn k l)
  end.

Definition chunks (k : nat) (l : list N) : list (list N) :=
  chunks_of k (List.length l / k) l.

(** The message schedule, latest word first. *)
Fixpoint extend_schedule (n : nat) (ws : list N) : list N :=
  match n with
  | O => ws
  | S n' =>
      let w := w32 (small_sigma1 (nth 1 ws 0) + nth 6 ws 0
                    + small_sigma0 (nth 14 ws 0) + nth 15 ws 0) in
      extend_schedule n' (w :: ws)
  end.

Definition schedule (block : list N) : list N :=
  List.rev (extend_schedule 48 (List.rev (List.map be_word (chunks 4 block)))).

Definition sha_round (st : list N) (kw : N * N) : list N :=
  match st with
  | [a; b; c; d; e; f; g; h] =>
      let t1 := h + big_sigma1 e + choose e f g + fst kw + snd kw in
      let t2 := big_sigma0 a + majority a b c in
      [w32 (t1 + t2); a; b; c; w32 (d + t1); e; f; g]
  | _ => st
  end.

Definition compress (st block : list N) : list N :=
  let st' := fold_left sha_round (combine round_constants (schedule block)) st in
  List.map (fun xy => w32 (fst xy + snd xy)) (combine st st').

Definition sha256 (msg : list N) : list N :=
  flat_map (be_bytes 4) (fold_left compress (chunks 64 (sha_pad msg)) initial_state).

(** [crypto.createHmac('sha256', key).update(msg).digest()] *)
Definition hmac_sha256 (key msg : list N) : list N :=
  let k0 := if (64 <? N.of_nat (List.length key)) then sha256 key else key in
  let k := k0 ++ repeat 0 (64 - List.length k0) in
  let ipad := List.map (N.lxor 54) k in
  let opad := List.map (N.lxor 92) k in
  sha256 (opad ++ sha256 (ipad ++ msg)).

(** The UTF-8 bytes of a string, as [update] and [Buffer.from] encode it: a
    surrogate pair is one code point, a lone surrogate is U+FFFD. *)
Definition is_high_surrogate (c : N) : bool := (55296 <=? c) && (c <=? 56319).
Definition is_low_surrogate (c : N) : bool := (56320 <=? c) && (c <=? 57343).

Definition utf8_code_point (c : N) : list N :=
  if c <? 128 then [c]
  else if c <? 2048 then [192 + c / 64; 128 + c mod 64]
  else if c <? 65536 then [224 + c / 4096; 128 + (c / 64) mod 64; 128 + c mod 64]
  else [240 + c / 262144; 128 + (c / 4096) mod 64;
        128 + (c / 64) mod 64; 128 + c mod 64].

Fixpoint utf8 (s : jsstring) : list N :=
  match s with
  | [] => []
  | c :: s' =>
      if is_high_surrogate c then
        match s' with
        | d :: s'' =>
            if is_low_surrogate d
            then utf8_code_point (65536 + (c - 55296) * 1024 + (d - 56320)) ++ utf8 s''
            else utf8_code_point 65533 ++ utf8 s'
        | [] => utf8_code_point 65533
        end
      else if is_low_surrogate c then utf8_code_point 65533 ++ utf8 s'
      else utf8_code_point c ++ utf8 s'
  end.

(** [digest('hex')]: two lower-case digits per byte. *)
Definition hex_digit (d : N) : N := if d <? 10 then 48 + d else 87 + d.

Definition hex_encode (bs : list N) : jsstring :=
  flat_map (fun b => [hex_digit (b / 16); hex_digit (b mod 16)]) bs.

(** [Buffer.from(text, 'hex')]: pairs of hexadecimal digits of either case
    are decoded up to the first pair that is not one; a last single
    character is dropped. *)
Definition unhex (c : N) : option N :=
  if is_digit c then Some (c - 48)
  else if in_range 97 102 c then Some (c - 87)
  else if in_range 65 70 c then Some (c - 55)
  else None.

Fixpoint hex_decode (s : jsstring) : list N :=
  match s with
  | a :: b :: s' =>
      match unhex a, unhex b with
      | Some x, Some y => (16 * x + y) :: hex_decode s'
      | _, _ => []
      end
  | _ => []
  end.

(** [crypto.timingSafeEqual(a, b)]: raises on buffers of different lengths
    ([None]) before it reads a byte. Otherwise it reads every pair of bytes,
    whatever they are, and gathers their differences, as [CRYPTO_memcmp] of
    OpenSSL does; the buffers are equal when no difference was gathered. The
    second component counts the pairs of bytes that are read. *)
Definition timingSafeEqual_run (a b : list N) : option bool * nat :=
  if Nat.eqb (List.length a) (List.length b) then
    let gathered :=
      fold_left (fun st p => (N.lor (fst st) (N.lxor (fst p) (snd p)), S (snd st)))
                (combine a b) (0, 0%nat) in
    (Some (fst gathered =? 0), snd gathered)
  else (None, 0%nat).

Definition timingSafeEqual (a b : list N) : option bool :=
  fst (timingSafeEqual_run a b).

(** A hexadecimal text: an even number of hexadecimal digits, which
    [Buffer.from(text, 'hex')] decodes in full. *)
Definition hex_text (s : jsstring) : bool :=
  Nat.even (List.length s) && forallb (fun c => bool_decide (is_Some (unhex c))) s.

End Crypto.
Export Crypto.

(* ===================================================================== *)
(** * Values of the JavaScript runtime and what the process reads from its
      surroundings *)
(* ===================================================================== *)

Module Js.

(** The result of evaluating a call: a value, or a raised [Error] with its
    [message]. *)
Inductive outcome (A : Type) : Type :=
| Return : A -> outcome A
| Throw : jsstring -> outcome A.
Arguments Return {A} _.
Arguments Throw {A} _.

(** A [Date] object: a time value in milliseconds since the epoch, or the
    invalid date. *)
Inductive date : Type :=
| DateOf : Z -> date
| InvalidDate : date.

(** [new Date(t)]: time values beyond 8.64e15 ms give the invalid date. *)
Definition new_Date (t : Z) : date :=
  if (Z.abs t <=? 8640000000000000)%Z then DateOf t else InvalidDate.

(** JSON values. Numbers are the integers; a request body holds no other
    kind of value. The fields of an object are in enumeration order. *)
Inductive json : Type :=
| JNull : json
| JBool : bool -> json
| JNum : Z -> json
| JStr : jsstring -> json
| JArr : list json -> json
| JObj : list (jsstring * json) -> json.

(** Truthiness of a JSON value, and [value || {}]. *)
Definition json_truthy (v : json) : bool :=
  match v with
  | JNull => false
  | JBool b => b
  | JNum n => negb (n =? 0)%Z
  | JStr s => truthy s
  | JArr _ | JObj _ => true
  end.

Definition json_or_empty (v : option json) : json :=
  match v with
  | Some x => if json_truthy x then x else JObj []
  | None => JObj []
  end.

Fixpoint join (sep : jsstring) (parts : list jsstring) : jsstring :=
  match parts with
  | [] => []
  | [p] => p
  | p :: ps => p ++ sep ++ join sep ps
  end.

(** The integers that a JavaScript number holds exactly, from
    [Number.MIN_SAFE_INTEGER] to [Number.MAX_SAFE_INTEGER]. *)
Definition safe_integer (n : Z) : bool := (Z.abs n <=? 9007199254740991)%Z.

(** [String(n)] and [JSON.stringify(n)] for a safe integer [n]: its decimal
    digits. (From 10^21 on JavaScript prints a number with an exponent.) *)
Definition number_text (n : Z) : jsstring :=
  match n with
  | Z0 => js "0"
  | Zpos p => decimal (Npos p)
  | Zneg p => js "-" ++ decimal (Npos p)
  end.

(** [\uXXXX] *)
Definition unicode_escape (c : N) : jsstring :=
  js "\u" ++ hex_encode [(c / 256)%N; (c mod 256)%N].

(** QuoteJSONString: [following] is the rest of the string, which decides
    whether a high surrogate is paired; [after_high] says that the code unit
    before was a high surrogate. *)
Fixpoint quote_units (after_high : bool) (s : jsstring) : jsstring :=
  match s with
  | [] => []
  | c :: s' =>
      let paired_high :=
        is_high_surrogate c
        && match s' with d :: _ => is_low_surrogate d | [] => false end in
      let paired_low := is_low_surrogate c && after_high in
      let text :=
        if (c =? 8)%N then js "\b"
        else if (c =? 9)%N then js "\t"
        else if (c =? 10)%N then js "\n"
        else if (c =? 12)%N then js "\f"
        else if (c =? 13)%N then js "\r"
        else if (c =? 34)%N then js "\" ++ dquote
        else if (c =? 92)%N then js "\\"
        else if (c <? 32)%N then unicode_escape c
        else if is_high_surrogate c && negb paired_high then unicode_escape c
        else if is_low_surrogate c && negb paired_low then unicode_escape c
        else [c] in
      text ++ quote_units paired_high s'
  end.

Definition quote (s : jsstring) : jsstring :=
  dquote ++ quote_units false s ++ dquote.

(** [JSON.stringify(v)] *)
Fixpoint JSON_stringify (v : json) : jsstring :=
  match v with
  | JNull => js "null"
  | JBool true => js "true"
  | JBool false => js "false"
  | JNum n => number_text n
  | JStr s => quote s
  | JArr items => js "[" ++ join (js ",") (List.map JSON_stringify items) ++ js "]"
  | JObj fields =>
      js "{"
      ++ join (js ",")
           (List.map (fun kv => match kv with
                                | (k, x) => quote k ++ js ":" ++ JSON_stringify x
                                end) fields)
      ++ js "}"
  end.

(** A value all of whose numbers are safe integers. *)
Fixpoint safe_numbers (v : json) : bool :=
  match v with
  | JNum n => safe_integer n
  | JArr items => forallb safe_numbers items
  | JObj fields => forallb (fun kv => safe_numbers (snd kv)) fields
  | _ => true
  end.

(** A parsed URL, as far as the sources read it. *)
Record URL : Type := {
  protocol : jsstring;
  hostname : jsstring
}.

(** The third-party and built-in parsers: [Date.parse], the [ms] package,
    [cron-parser], the WHATWG [URL] class, [net.isIPv4], [net.isIPv6] and
    [Date.prototype.toISOString]. *)
Class Platform : Type := {
  (** [new Date(text).getTime()]; [None] is [NaN]. *)
  Date_parse : jsstring -> option Z;
  (** [ms(text)] on a non-empty text; [None] is [undefined]. *)
  ms : jsstring -> option Z;
  (** [cronParser.parseExpression(cron, {tz, currentDate}).next()]: the time
      value of the next run after [currentDate]; [None] when the package
      raises. *)
  cron_next : jsstring -> jsstring -> Z -> option Z;
  (** [new URL(text)] *)
  URL_parse : jsstring -> outcome URL;
  isIPv4 : jsstring -> bool;
  isIPv6 : jsstring -> bool;
  toISOString : Z -> jsstring
}.

(** [config.js], as far as the modelled code reads it. *)
Record Config : Type := {
  batchSize : Z;
  lockTimeoutMs : Z;
  maxActiveTasksPerUser : Z;
  maxPayloadSizeBytes : Z;
  webhook_timeoutMs : Z;
  userAgent : jsstring;
  hmacSecret : jsstring;
  allowedWebhookDomains : list jsstring;
  slack_defaultWebhookUrl : option jsstring
}.

(** The values of [config.js] when no environment variable is set. *)
Definition default_config : Config := {|
  batchSize := 50;
  lockTimeoutMs := 60000;
  maxActiveTasksPerUser := 100;
  maxPayloadSizeBytes := 65536;
  webhook_timeoutMs := 30000;
  userAgent := js "TemporalAgentMCP/1.0";
  hmacSecret := js "change-me-in-production";
  allowedWebhookDomains := [];
  slack_defaultWebhookUrl := None
|}.

End Js.
Export Js.

(* ===================================================================== *)
(** * utils/time.js *)
(* ===================================================================== *)

Module TimeUtils.
Section WithPlatform.
Context `{Platform}.

(** [parseRelativeTime(relativeTime)] at clock reading [now]. *)
Definition parseRelativeTime (now : Z) (relativeTime : option jsstring)
  : option date :=
  if negb (truthy_opt relativeTime) then None
  else match ms (default [] relativeTime) with
       | None => None
       | Some milliseconds => Some (new_Date (now + milliseconds))
       end.

Record timing_result : Type := {
  scheduledAt : option date;
  timing_error : option jsstring
}.

(** [parseTimeInput({at, in})] *)
Definition parseTimeInput (now : Z) (at_ in_ : option jsstring) : timing_result :=
  if truthy_opt at_ then
    match Date_parse (default [] at_) with
    | None =>
        {| scheduledAt := None;
           timing_error := Some (js "Invalid datetime format. Use ISO 8601 (e.g., 2025-12-20T09:00:00Z)") |}
    | Some t =>
        if (t <=? now)%Z then
          {| scheduledAt := None;
             timing_error := Some (js "Scheduled time must be in the future") |}
        else {| scheduledAt := Some (new_Date t); timing_error := None |}
    end
  else if truthy_opt in_ then
    match parseRelativeTime now in_ with
    | None =>
        {| scheduledAt := None;
           timing_error :=
             Some (js "Invalid relative time format. Use formats like "
                   ++ dquote ++ js "30m" ++ dquote ++ js ", "
                   ++ dquote ++ js "2h" ++ dquote ++ js ", "
                   ++ dquote ++ js "3d" ++ dquote ++ js ", "
                   ++ dquote ++ js "1w" ++ dquote) |}
    | Some d => {| scheduledAt := Some d; timing_error := None |}
    end
  else
    {| scheduledAt := None;
       timing_error :=
         Some (js "Either " ++ dquote ++ js "at" ++ dquote ++ js " or "
               ++ dquote ++ js "in" ++ dquote
               ++ js " must be specified for timing") |}.

(** [getNextCronRun(cronExpression, timezone)] at clock reading [now]:
    [null] when the package raises. *)
Definition getNextCronRun (now : Z) (cronExpression : jsstring)
    (timezone : option jsstring) : option Z :=
  cron_next cronExpression (default (js "UTC") timezone) now.

(** [getUpcomingCronRuns(cronExpression, timezone, count)]: [count] calls of
    [interval.next()], each from the run before; the empty list when one of
    them raises. *)
Fixpoint upcoming_from (count : nat) (cronExpression timezone : jsstring)
    (from : Z) : option (list Z) :=
  match count with
  | O => Some []
  | S n =>
      match cron_next cronExpression timezone from with
      | None => None
      | Some t =>
          match upcoming_from n cronExpression timezone t with
          | None => None
          | Some ts => Some (t :: ts)
          end
      end
  end.

Definition getUpcomingCronRuns (now : Z) (cronExpression : jsstring)
    (timezone : option jsstring) (count : nat) : list Z :=
  default [] (upcoming_from count cronExpression (default (js "UTC") timezone) now).

End WithPlatform.
End TimeUtils.
Export TimeUtils.

(* ===================================================================== *)
(** * utils/security.js *)
(* ===================================================================== *)

Module Security.

(** A pattern literal [/^body/] or [/^body$/]. *)
Record pattern : Type := Pattern {
  body : regex;
  to_end : bool
}.

Definition pattern_test (p : pattern) (s : jsstring) : bool :=
  if to_end p then test_whole (body p) s else test_prefix (body p) s.

Definition starts (r : regex) : pattern := Pattern r false.
Definition exactly (r : regex) : pattern := Pattern r true.

(** [[0-9a-f]] under the [i] flag. *)
Definition hexdigit_i : regex :=
  Chr (fun c => is_digit c || in_range (ch "a") (ch "f") c
                || in_range (ch "A") (ch "F") c).

(** [(1[6-9]|2\d|3[01])] *)
Definition octet_16_31 : regex :=
  alts [ Seq (chr (ch "1")) (range (ch "6") (ch "9"));
         Seq (chr (ch "2")) digit;
         Seq (chr (ch "3")) (range (ch "0") (ch "1")) ].

(** [(6[4-9]|[7-9]\d|1[0-2]\d)] *)
Definition octet_cgnat : regex :=
  alts [ Seq (chr (ch "6")) (range (ch "4") (ch "9"));
         Seq (range (ch "7") (ch "9")) digit;
         seqs [chr (ch "1"); range (ch "0") (ch "2"); digit] ].

Definition BLOCKED_IPV4_PATTERNS : list pattern :=
  [ starts (lit (js "127."));                                     (* Loopback *)
    starts (lit (js "10."));                                      (* Private Class A *)
    starts (seqs [lit (js "172."); octet_16_31; chr (ch ".")]);    (* Private Class B *)
    starts (lit (js "192.168."));                                 (* Private Class C *)
    starts (lit (js "169.254."));                                 (* Link-local *)
    starts (lit (js "0."));                                       (* Current network *)
    starts (seqs [lit (js "100."); octet_cgnat; chr (ch ".")]);    (* Carrier-grade NAT *)
    starts (lit (js "192.0.0."));                                 (* IETF Protocol Assignments *)
    starts (lit (js "192.0.2."));                                 (* TEST-NET-1 *)
    starts (lit (js "198.51.100."));                              (* TEST-NET-2 *)
    starts (lit (js "203.0.113."));                               (* TEST-NET-3 *)
    starts (lit (js "224."));                                     (* Multicast *)
    starts (lit (js "240."));                                     (* Reserved *)
    exactly (lit (js "255.255.255.255")) ].                       (* Broadcast *)

Definition BLOCKED_IPV6_PATTERNS : list pattern :=
  [ exactly (lit_i (js "::1"));                                   (* Loopback *)
    exactly (lit (js "::"));                                      (* Unspecified *)
    starts (lit_i (js "::ffff:127."));                            (* IPv4-mapped loopback *)
    starts (lit_i (js "::ffff:10."));                             (* IPv4-mapped private A *)
    starts (seqs [lit_i (js "::ffff:172."); octet_16_31; chr (ch ".")]);
    starts (lit_i (js "::ffff:192.168."));                        (* IPv4-mapped private C *)
    starts (lit_i (js "::ffff:169.254."));                        (* IPv4-mapped link-local *)
    starts (lit_i (js "::ffff:0."));                              (* IPv4-mapped current network *)
    starts (lit_i (js "fe80:"));                                  (* Link-local *)
    starts (lit_i (js "fc00:"));                                  (* Unique local (deprecated) *)
    starts (seqs [lit_i (js "fd"); hexdigit_i; hexdigit_i; chr (ch ":")]);  (* ULA *)
    starts (seqs [lit_i (js "ff"); hexdigit_i; hexdigit_i; chr (ch ":")]);  (* Multicast *)
    starts (lit_i (js "2001:db8:"));                              (* Documentation *)
    starts (lit_i (js "100::"));                                  (* Discard prefix *)
    starts (lit_i (js "64:ff9b:")) ].                             (* IPv4/IPv6 translation *)

(** [\d+\.\d+\.\d+\.\d+] *)
Definition dotted_quad : regex :=
  seqs [ plus digit; chr (ch "."); plus digit; chr (ch ".");
         plus digit; chr (ch "."); plus digit ].

(** [ip.match(/^::ffff:(\d+\.\d+\.\d+\.\d+)$/i)]: the group is what follows
    the seven code units of the prefix. *)
Definition ipv4MappedMatch (ip : jsstring) : option jsstring :=
  if test_whole (Seq (lit_i (js "::ffff:")) dotted_quad) ip
  then Some (skipn 7 ip)
  else None.

Definition isBlockedIP (ip : jsstring) : bool :=
  if negb (truthy ip) then true
  else if existsb (fun p => pattern_test p ip) BLOCKED_IPV4_PATTERNS then true
  else if existsb (fun p => pattern_test p ip) BLOCKED_IPV6_PATTERNS then true
  else match ipv4MappedMatch ip with
       | Some ipv4Part =>
           existsb (fun p => pattern_test p ipv4Part) BLOCKED_IPV4_PATTERNS
       | None => false
       end.

(** The result shape [{valid, error?}] of the validators. *)
Record validation : Type := Validation {
  valid : bool;
  error : option jsstring
}.

Definition accept : validation := Validation true None.
Definition reject (msg : jsstring) : validation := Validation false (Some msg).

(** The class [[0-9\s,\-*/LW#?]] of [allowedCharsRegex]. *)
Definition cron_char (c : N) : bool :=
  is_digit c || is_space c
  || existsb (N.eqb c) (js ",-*/LW#?").

Definition allowedCharsRegex : regex := plus (Chr cron_char).

Definition invalid_characters : jsstring :=
  js "Cron expression contains invalid characters. Only 0-9, space, comma, dash, asterisk, and slash are allowed.".

Definition validateCronExpression (expression : jsstring) : validation :=
  if negb (truthy expression) then reject (js "Cron expression is required")
  else if negb (test_whole allowedCharsRegex expression) then
    reject invalid_characters
  else
    let parts := split_spaces (trim expression) in
    if negb (Nat.eqb (List.length parts) 5) then
      reject (js "Cron expression must have exactly 5 parts (minute hour day month weekday)")
    else if existsb (fun part => Nat.ltb 20 (List.length part)) parts then
      reject (js "Cron expression part too long")
    else
      let minute := List.hd [] parts in
      if jsstring_eqb minute (js "*") || jsstring_eqb minute (js "*/1") then
        reject (js "Cron cannot run more frequently than once per minute")
      else if includes_char (ch ",") minute
              && Nat.ltb 30 (List.length (split_char (ch ",") minute)) then
        reject (js "Too many minute values specified")
      else accept.

Section WithPlatform.
Context `{Platform}.

(** [generateHmacSignature(payload, timestamp)] for a string payload; an
    absent timestamp is the empty string (both are falsy). *)
Definition signedContent (message timestamp : jsstring) : jsstring :=
  if truthy timestamp then timestamp ++ js "." ++ message else message.

Definition generateHmacSignature (cfg : Config) (payload timestamp : jsstring)
  : jsstring :=
  let message := payload in
  hex_encode (hmac_sha256 (utf8 (hmacSecret cfg))
                          (utf8 (signedContent message timestamp))).

(** The default of [maxAgeMs]. *)
Definition default_maxAgeMs : Z := 5 * 60 * 1000.

(** [verifyHmacSignature(payload, signature, timestamp, maxAgeMs)] at clock
    reading [now]. *)
Definition verifyHmacSignature (cfg : Config) (now : Z)
    (payload signature timestamp : jsstring) (maxAgeMs : Z) : validation :=
  let stale :=
    if truthy timestamp then
      match Date_parse timestamp with
      | None => Some (js "Invalid timestamp format")
      | Some timestampMs =>
          if (Z.abs (now - timestampMs) >? maxAgeMs)%Z
          then Some (js "Timestamp too old or too far in future")
          else None
      end
    else None in
  match stale with
  | Some msg => reject msg
  | None =>
      let expected := generateHmacSignature cfg payload timestamp in
      match timingSafeEqual (hex_decode expected) (hex_decode signature) with
      | Some isValid => Validation isValid None
      | None => reject (js "Signature verification failed")
      end
  end.

Definition BLOCKED_HOSTNAMES : list jsstring :=
  [ js "localhost";
    js "localhost.localdomain";
    js "*.local";
    js "*.localhost";
    js "metadata.google.internal";
    js "metadata.internal";
    js "169.254.169.254";
    js "instance-data";
    js "kubernetes.default.svc";
    js "*.kubernetes.default.svc" ].

(** One turn of the loop over [BLOCKED_HOSTNAMES]. *)
Definition hostname_matches (hostname blocked : jsstring) : bool :=
  if startsWith (js "*.") blocked then
    let suffix := slice1 blocked in
    endsWith suffix hostname || jsstring_eqb hostname (slice1 suffix)
  else jsstring_eqb hostname blocked.

(** What [validateWebhookUrl] reads from the process: the resolver (a failed
    lookup gives no address) and the deployment mode. *)
Record Resolver : Type := {
  resolve4 : jsstring -> list jsstring;
  resolve6 : jsstring -> list jsstring;
  production : bool
}.

Record url_validation : Type := {
  url_valid : bool;
  url_error : option jsstring;
  resolvedIps : list jsstring
}.

Definition url_reject (msg : jsstring) : url_validation :=
  {| url_valid := false; url_error := Some msg; resolvedIps := [] |}.

(** [validateWebhookUrl(urlString)] *)
Definition validateWebhookUrl (cfg : Config) (dns : Resolver)
    (urlString : jsstring) : url_validation :=
  match URL_parse urlString with
  | Throw msg => url_reject (js "Invalid URL: " ++ msg)
  | Return url =>
      if negb (jsstring_eqb (protocol url) (js "https:"))
         && negb (jsstring_eqb (protocol url) (js "http:")) then
        url_reject (js "URL must use http or https protocol")
      else if production dns && negb (jsstring_eqb (protocol url) (js "https:")) then
        url_reject (js "HTTPS required in production")
      else
        let hostname := toLowerCase (hostname url) in
        if existsb (hostname_matches hostname) BLOCKED_HOSTNAMES then
          url_reject (js "Hostname " ++ hostname ++ js " is blocked")
        else if startsWith (js "[") hostname && endsWith (js "]") hostname
                && isBlockedIP (slice_inner hostname) then
          url_reject (js "IPv6 address " ++ slice_inner hostname ++ js " is blocked")
        else if negb (Nat.eqb (List.length (allowedWebhookDomains cfg)) 0)
                && negb (existsb (fun domain =>
                                    jsstring_eqb hostname domain
                                    || endsWith (js "." ++ domain) hostname)
                                 (allowedWebhookDomains cfg)) then
          url_reject (js "Domain " ++ hostname ++ js " not in allowlist")
        else
          let resolved := resolve4 dns hostname ++ resolve6 dns hostname in
          if Nat.eqb (List.length resolved) 0
             && negb (isIPv4 hostname || isIPv6 hostname) then
            url_reject (js "DNS resolution failed for " ++ hostname)
          else
            let ips := if Nat.eqb (List.length resolved) 0 then [hostname]
                       else resolved in
            match List.find isBlockedIP ips with
            | Some ip =>
                url_reject (js "IP " ++ ip ++ js " is in a blocked range (SSRF protection)")
            | None => {| url_valid := true; url_error := None; resolvedIps := ips |}
            end
  end.

(** The reviver of [sanitizePayload] applied by [JSON.parse]: the members
    named in [dangerous] are dropped at every depth. *)
Definition dangerous (key : jsstring) : bool :=
  existsb (jsstring_eqb key) [js "__proto__"; js "constructor"; js "prototype"].

Fixpoint revive (v : json) : json :=
  match v with
  | JArr items => JArr (List.map revive items)
  | JObj fields =>
      JObj (flat_map (fun kv => match kv with
                                | (k, x) => if dangerous k then [] else [(k, revive x)]
                                end) fields)
  | _ => v
  end.

(** Whether a value holds a member of a dangerous name at any depth. *)
Fixpoint has_dangerous_key (v : json) : bool :=
  match v with
  | JArr items => existsb has_dangerous_key items
  | JObj fields =>
      existsb (fun kv => match kv with
                         | (k, x) => dangerous k || has_dangerous_key x
                         end) fields
  | _ => false
  end.

Record payload_validation : Type := {
  payload_valid : bool;
  sanitized : option json;
  payload_error : option jsstring
}.

(** [sanitizePayload(payload, maxSize)]. The text printed by
    [JSON.stringify] parses back to the value printed, which the reviver then
    walks. *)
Definition sanitizePayload (payload : option json) (maxSize : Z)
  : payload_validation :=
  match payload with
  | None | Some JNull =>
      {| payload_valid := true; sanitized := Some (JObj []); payload_error := None |}
  | Some v =>
      let json_text := JSON_stringify v in
      if (Z.of_nat (List.length json_text) >? maxSize)%Z then
        {| payload_valid := false; sanitized := None;
           payload_error :=
             Some (js "Payload exceeds maximum size of " ++ number_text maxSize
                   ++ js " bytes") |}
      else {| payload_valid := true; sanitized := Some (revive v);
              payload_error := None |}
  end.

End WithPlatform.
End Security.
Export Security.

(* ===================================================================== *)
(** * db/schema.sql and db/queries.js *)
(* ===================================================================== *)

Module Db.

Inductive TaskType : Type := One_time | Recurring.
Inductive CallbackType : Type := Webhook | Slack | Email | Store.
Inductive TaskStatus : Type := Active | Paused | Completed | Failed | Cancelled.
Inductive ExecutionStatus : Type :=
  Running | Success | ExecFailed | ExecTimeout | Skipped.

#[global] Instance TaskType_eq_dec : EqDecision TaskType.
Proof. solve_decision. Defined.
#[global] Instance CallbackType_eq_dec : EqDecision CallbackType.
Proof. solve_decision. Defined.
#[global] Instance TaskStatus_eq_dec : EqDecision TaskStatus.
Proof. solve_decision. Defined.

(** The texts of the column values. *)
Definition status_text (s : TaskStatus) : jsstring :=
  match s with
  | Active => js "active"
  | Paused => js "paused"
  | Completed => js "completed"
  | Failed => js "failed"
  | Cancelled => js "cancelled"
  end.

Definition callback_type_text (c : CallbackType) : jsstring :=
  match c with
  | Webhook => js "webhook"
  | Slack => js "slack"
  | Email => js "email"
  | Store => js "store"
  end.

(** [CHECK (callback_type IN ('webhook', 'slack', 'email', 'store'))] *)
Definition callback_type_of_text (s : jsstring) : option CallbackType :=
  List.find (fun c => jsstring_eqb s (callback_type_text c))
            [Webhook; Slack; Email; Store].

(** The object stored in [callback_config]. *)
Record CallbackConfig : Type := {
  url : option jsstring;
  channel : option jsstring;
  email : option jsstring
}.

(** ** Table [tasks] *)
Module Task.

Record row : Type := {
  id : jsstring;   (* UUID PRIMARY KEY *)
  name : jsstring;   (* VARCHAR(255) NOT NULL *)
  description : option jsstring;
  task_type : TaskType;   (* CHECK (task_type IN ('one_time', 'recurring')) *)
  scheduled_at : option Z;
  cron_expression : option jsstring;
  timezone : option jsstring;
  next_run_at : option Z;   (* computed next execution time *)
  callback_type : CallbackType;
  callback_config : CallbackConfig;
  payload : json;
  status : TaskStatus;   (* DEFAULT 'active' *)
  max_retries : Z;   (* DEFAULT 3 *)
  retry_delay_seconds : Z;   (* DEFAULT 60 *)
  current_retry_count : Z;   (* DEFAULT 0 *)
  last_executed_at : option Z;
  execution_count : Z;   (* DEFAULT 0 *)
  created_at : Z;
  updated_at : Z;
  created_by : option jsstring;   (* session or user identifier *)
  tags : list jsstring;
  locked_at : option Z;   (* lock for concurrent worker safety *)
  locked_by : option jsstring
}.

Definition with_status (v_status : TaskStatus) (t : row) : row := {|
  id := id t;
  name := name t;
  description := description t;
  task_type := task_type t;
  scheduled_at := scheduled_at t;
  cron_expression := cron_expression t;
  timezone := timezone t;
  next_run_at := next_run_at t;
  callback_type := callback_type t;
  callback_config := callback_config t;
  payload := payload t;
  status := v_status;
  max_retries := max_retries t;
  retry_delay_seconds := retry_delay_seconds t;
  current_retry_count := current_retry_count t;
  last_executed_at := last_executed_at t;
  execution_count := execution_count t;
  created_at := created_at t;
  updated_at := updated_at t;
  created_by := created_by t;
  tags := tags t;
  locked_at := locked_at t;
  locked_by := locked_by t
|}.

Definition with_next_run_at (v_next_run_at : option Z) (t : row) : row := {|
  id := id t;
  name := name t;
  description := description t;
  task_type := task_type t;
  scheduled_at := scheduled_at t;
  cron_expression := cron_expression t;
  timezone := timezone t;
  next_run_at := v_next_run_at;
  callback_type := callback_type t;
  callback_config := callback_config t;
  payload := payload t;
  status := status t;
  max_retries := max_retries t;
  retry_delay_seconds := retry_delay_seconds t;
  current_retry_count := current_retry_count t;
  last_executed_at := last_executed_at t;
  execution_count := execution_count t;
  created_at := created_at t;
  updated_at := updated_at t;
  created_by := created_by t;
  tags := tags t;
  locked_at := locked_at t;
  locked_by := locked_by t
|}.

Definition with_last_executed_at (v_last_executed_at : option Z) (t : row) : row := {|
  id := id t;
  name := name t;
  description := description t;
  task_type := task_type t;
  scheduled_at := scheduled_at t;
  cron_expression := cron_expression t;
  timezone := timezone t;
  next_run_at := next_run_at t;
  callback_type := callback_type t;
  callback_config := callback_config t;
  payload := payload t;
  status := status t;
  max_retries := max_retries t;
  retry_delay_seconds := retry_delay_seconds t;
  current_retry_count := current_retry_count t;
  last_executed_at := v_last_executed_at;
  execution_count := execution_count t;
  created_at := created_at t;
  updated_at := updated_at t;
  created_by := created_by t;
  tags := tags t;
  locked_at := locked_at t;
  locked_by := locked_by t
|}.

Definition with_execution_count (v_execution_count : Z) (t : row) : row := {|
  id := id t;
  name := name t;
  description := description t;
  task_type := task_type t;
  scheduled_at := scheduled_at t;
  cron_expression := cron_expression t;
  timezone := timezone t;
  next_run_at := next_run_at t;
  callback_type := callback_type t;
  callback_config := callback_config t;
  payload := payload t;
  status := status t;
  max_retries := max_retries t;
  retry_delay_seconds := retry_delay_seconds t;
  current_retry_count := current_retry_count t;
  last_executed_at := last_executed_at t;
  execution_count := v_execution_count;
  created_at := created_at t;
  updated_at := updated_at t;
  created_by := created_by t;
  tags := tags t;
  locked_at := locked_at t;
  locked_by := locked_by t
|}.

Definition with_updated_at (v_updated_at : Z) (t : row) : row := {|
  id := id t;
  name := name t;
  description := description t;
  task_type := task_type t;
  scheduled_at := scheduled_at t;
  cron_expression := cron_expression t;
  timezone := timezone t;
  next_run_at := next_run_at t;
  callback_type := callback_type t;
  callback_config := callback_config t;
  payload := payload t;
  status := status t;
  max_retries := max_retries t;
  retry_delay_seconds := retry_delay_seconds t;
  current_retry_count := current_retry_count t;
  last_executed_at := last_executed_at t;
  execution_count := execution_count t;
  created_at := created_at t;
  updated_at := v_updated_at;
  created_by := created_by t;
  tags := tags t;
  locked_at := locked_at t;
  locked_by := locked_by t
|}.

Definition with_lock (v_locked_at : option Z) (v_locked_by : option jsstring) (t : row) : row := {|
  id := id t;
  name := name t;
  description := description t;
  task_type := task_type t;
  scheduled_at := scheduled_at t;
  cron_expression := cron_expression t;
  timezone := timezone t;
  next_run_at := next_run_at t;
  callback_type := callback_type t;
  callback_config := callback_config t;
  payload := payload t;
  status := status t;
  max_retries := max_retries t;
  retry_delay_seconds := retry_delay_seconds t;
  current_retry_count := current_retry_count t;
  last_executed_at := last_executed_at t;
  execution_count := execution_count t;
  created_at := created_at t;
  updated_at := updated_at t;
  created_by := created_by t;
  tags := tags t;
  locked_at := v_locked_at;
  locked_by := v_locked_by
|}.


(** The trigger [update_tasks_updated_at]: [BEFORE UPDATE ... FOR EACH ROW]
    sets [updated_at = NOW()]. *)
Definition update_updated_at_column (now : Z) (t : row) : row :=
  with_updated_at now t.

End Task.

(** ** Table [task_executions] *)
Module Execution.

Record row : Type := {
  id : jsstring;
  task_id : jsstring;   (* REFERENCES tasks(id) ON DELETE CASCADE *)
  executed_at : Z;
  completed_at : option Z;
  status : ExecutionStatus;
  response_code : option Z;
  response_body : option jsstring;
  error_message : option jsstring;
  duration_ms : option Z;
  retry_number : Z;
  request_url : option jsstring;
  request_payload : json
}.

End Execution.

(** ** Table [stored_notifications] *)
Module Notification.

Record row : Type := {
  id : jsstring;
  task_id : jsstring;   (* REFERENCES tasks(id) ON DELETE CASCADE *)
  payload : json;
  created_at : Z;
  read_at : option Z;
  session_id : option jsstring
}.

End Notification.

(** The contents of the database. *)
Record db : Type := {
  tasks : list Task.row;
  task_executions : list Execution.row;
  stored_notifications : list Notification.row
}.

Definition with_tasks (rows : list Task.row) (d : db) : db := {|
  tasks := rows;
  task_executions := task_executions d;
  stored_notifications := stored_notifications d
|}.

Definition with_task_executions (rows : list Execution.row) (d : db) : db := {|
  tasks := tasks d;
  task_executions := rows;
  stored_notifications := stored_notifications d
|}.

Definition with_stored_notifications (rows : list Notification.row) (d : db) : db := {|
  tasks := tasks d;
  task_executions := task_executions d;
  stored_notifications := rows
|}.

(** ** Statements as steps on the database

    [await pool.query(...)] either gives its rows or raises; either way it
    leaves a database. *)
Definition M (A : Type) : Type := db -> outcome A * db.

#[global] Instance M_ret : MRet M := fun A (a : A) d => (Return a, d).

#[global] Instance M_bind : MBind M := fun A B (k : A -> M B) (m : M A) d =>
  match m d with
  | (Return a, d') => k a d'
  | (Throw e, d') => (Throw e, d')
  end.

Definition throw {A : Type} (message : jsstring) : M A :=
  fun d => (Throw message, d).

(** [try { body } catch (error) { handler(error.message) }] *)
Definition try_catch {A : Type} (body : M A) (handler : jsstring -> M A) : M A :=
  fun d =>
    match body d with
    | (Return a, d') => (Return a, d')
    | (Throw e, d') => handler e d'
    end.

(** The value of a call that cannot raise. *)
Definition lift_outcome {A : Type} (o : outcome A) : M A := fun d => (o, d).

(** [UPDATE tasks SET ... WHERE cond RETURNING *]: the rows that satisfy
    [cond] are set and pass through the trigger; they are what is returned. *)
Definition update_tasks (now : Z) (cond : Task.row -> bool)
    (set : Task.row -> Task.row) : M (list Task.row) :=
  fun d =>
    let change := fun t => Task.update_updated_at_column now (set t) in
    (Return (List.map change (List.filter cond (tasks d))),
     with_tasks (List.map (fun t => if cond t then change t else t) (tasks d)) d).

(** [result.rows[0] || null] *)
Definition first_row {A : Type} (rows : list A) : option A := List.hd_error rows.

(** Comparison with a nullable column: NULL compares as unknown, which a
    [WHERE] clause treats as false. *)
Definition sql_lt (a : option Z) (b : Z) : bool :=
  match a with Some x => (x <? b)%Z | None => false end.

Definition sql_le (a : option Z) (b : Z) : bool :=
  match a with Some x => (x <=? b)%Z | None => false end.

Definition is_null {A : Type} (a : option A) : bool :=
  match a with Some _ => false | None => true end.

(** [COALESCE(a, b)] *)
Definition coalesce {A : Type} (a b : option A) : option A :=
  match a with Some _ => a | None => b end.

(** The view [due_tasks] at [NOW() = now]. *)
Definition is_due (now : Z) (t : Task.row) : bool :=
  bool_decide (Task.status t = Active)
  && is_null (Task.locked_at t)
  && ((bool_decide (Task.task_type t = One_time) && sql_le (Task.scheduled_at t) now)
      || (bool_decide (Task.task_type t = Recurring) && sql_le (Task.next_run_at t) now)).

Definition due_tasks (now : Z) (d : db) : list Task.row :=
  List.filter (is_due now) (tasks d).

(** [ORDER BY key ASC]: NULL keys last; rows with equal keys keep their
    order. *)
Definition key_le (a b : option Z) : bool :=
  match a, b with
  | Some x, Some y => (x <=? y)%Z
  | Some _, None => true
  | None, Some _ => false
  | None, None => true
  end.

Fixpoint insert_by {A : Type} (key : A -> option Z) (x : A) (l : list A) : list A :=
  match l with
  | [] => [x]
  | y :: l' => if key_le (key x) (key y) then x :: l else y :: insert_by key x l'
  end.

Definition order_by {A : Type} (key : A -> option Z) (l : list A) : list A :=
  List.fold_right (insert_by key) [] l.

(** The key of [ORDER BY COALESCE(next_run_at, scheduled_at)], and the order
    of two rows on it. *)
Definition due_key (t : Task.row) : option Z :=
  coalesce (Task.next_run_at t) (Task.scheduled_at t).

Definition ascending (a b : Task.row) : Prop :=
  key_le (due_key a) (due_key b) = true.

(** [||] on an optional string: the empty string is falsy too. *)
Definition or_null (s : option jsstring) : option jsstring :=
  if truthy_opt s then s else None.

(** The argument of [TaskQueries.create]. *)
Record NewTask : Type := {
  new_name : option jsstring;
  new_description : option jsstring;
  taskType : TaskType;
  new_scheduledAt : option date;
  cronExpression : option jsstring;
  new_timezone : option jsstring;
  nextRunAt : option date;
  callbackType : jsstring;
  callbackConfig : CallbackConfig;
  new_payload : option json;
  maxRetries : option Z;
  retryDelaySeconds : option Z;
  createdBy : option jsstring;
  new_tags : option (list jsstring)
}.

(** A timestamp parameter: the invalid date is no timestamp. *)
Definition timestamp_param (v : option date) : outcome (option Z) :=
  match v with
  | None => Return None
  | Some (DateOf t) => Return (Some t)
  | Some InvalidDate => Throw (js "invalid input syntax for type timestamp with time zone")
  end.

Definition fits (n : nat) (s : option jsstring) : bool :=
  match s with Some s => Nat.leb (List.length s) n | None => true end.

Definition int4 (z : Z) : bool := ((-2147483648 <=? z) && (z <=? 2147483647))%Z.

Definition int8 (z : Z) : bool :=
  ((-9223372036854775808 <=? z) && (z <=? 9223372036854775807))%Z.

(** A text parameter with the code unit 0, which PostgreSQL refuses in a
    text value. *)
Definition has_nul (s : option jsstring) : bool :=
  match s with
  | Some s => existsb (N.eqb 0) s
  | None => false
  end.

(** The text of a UUID as the database prints it: groups of 8, 4, 4, 4 and
    12 lower-case hexadecimal digits with hyphens between them. *)
Definition lower_hex (c : N) : bool := is_digit c || in_range 97 102 c.

Definition canonical_uuid (s : jsstring) : bool :=
  match split_char (ch "-") s with
  | [a; b; c; d; e] =>
      bool_decide (List.map (@List.length N) [a; b; c; d; e] = [8; 4; 4; 4; 12]%nat)
      && forallb lower_hex (a ++ b ++ c ++ d ++ e)
  | _ => false
  end.

Module TaskQueries.

(** [create(task)] with [uuidv4() = uuid] and [NOW() = now]. The statement
    fails on a violated constraint of the table: NOT NULL, the lengths of
    the VARCHAR columns, the CHECK on [callback_type], the range of INT, and
    the primary key. *)
Definition create (now : Z) (uuid : jsstring) (task : NewTask) : M Task.row :=
  fun d =>
    let v_description := or_null (new_description task) in
    let v_cron := or_null (cronExpression task) in
    let v_timezone := Some (default (js "UTC") (or_null (new_timezone task))) in
    let v_created_by := or_null (createdBy task) in
    let v_max_retries := default 3%Z (maxRetries task) in
    let v_retry_delay := default 60%Z (retryDelaySeconds task) in
    match new_name task,
          callback_type_of_text (callbackType task),
          timestamp_param (new_scheduledAt task),
          timestamp_param (coalesce (nextRunAt task) (new_scheduledAt task)) with
    | None, _, _, _ =>
        (Throw (js "null value in column name violates not-null constraint"), d)
    | _, _, Throw e, _ => (Throw e, d)
    | _, _, _, Throw e => (Throw e, d)
    | _, None, _, _ =>
        (Throw (js "new row for relation tasks violates check constraint tasks_callback_type_check"), d)
    | Some v_name, Some v_callback_type, Return v_scheduled_at, Return v_next_run_at =>
        if negb (fits 255 (Some v_name) && fits 100 v_cron && fits 50 v_timezone
                 && fits 255 v_created_by) then
          (Throw (js "value too long for type character varying"), d)
        else if negb (int4 v_max_retries && int4 v_retry_delay) then
          (Throw (js "value out of range for type integer"), d)
        else if existsb (fun t => jsstring_eqb (Task.id t) uuid) (tasks d) then
          (Throw (js "duplicate key value violates unique constraint tasks_pkey"), d)
        else
          let inserted := {|
            Task.id := uuid;
            Task.name := v_name;
            Task.description := v_description;
            Task.task_type := taskType task;
            Task.scheduled_at := v_scheduled_at;
            Task.cron_expression := v_cron;
            Task.timezone := v_timezone;
            Task.next_run_at := v_next_run_at;
            Task.callback_type := v_callback_type;
            Task.callback_config := callbackConfig task;
            Task.payload := json_or_empty (new_payload task);
            Task.status := Active;
            Task.max_retries := v_max_retries;
            Task.retry_delay_seconds := v_retry_delay;
            Task.current_retry_count := 0;
            Task.last_executed_at := None;
            Task.execution_count := 0;
            Task.created_at := now;
            Task.updated_at := now;
            Task.created_by := v_created_by;
            Task.tags := default [] (new_tags task);
            Task.locked_at := None;
            Task.locked_by := None
          |} in
          (Return inserted, with_tasks (tasks d ++ [inserted]) d)
    end.

(** [getById(id)]. Ids are compared as texts: a row is found by the text in
    which the database prints its id ([canonical_uuid]). *)
Definition getById (id : option jsstring) : M (option Task.row) :=
  fun d =>
    (Return (first_row (List.filter (fun t => bool_decide (Some (Task.id t) = id))
                                    (tasks d))), d).

(** [countActiveByUser(createdBy)] *)
Definition countActiveByUser (createdBy : jsstring) : M Z :=
  fun d =>
    (Return (Z.of_nat (List.length
       (List.filter (fun t => bool_decide (Task.created_by t = Some createdBy)
                              && (bool_decide (Task.status t = Active)
                                  || bool_decide (Task.status t = Paused)))
                    (tasks d)))), d).

(** [updateStatus(id, status)]: [result.rows[0]], [undefined] when no row
    has this id. *)
Definition updateStatus (now : Z) (id : option jsstring) (status : TaskStatus)
  : M (option Task.row) :=
  rows ← update_tasks now (fun t => bool_decide (Some (Task.id t) = id))
                      (Task.with_status status);
  mret (first_row rows).

Definition cancel (now : Z) (id : option jsstring) : M (option Task.row) :=
  updateStatus now id Cancelled.

Definition pause (now : Z) (id : option jsstring) : M (option Task.row) :=
  updateStatus now id Paused.

Definition resume (now : Z) (id : option jsstring) : M (option Task.row) :=
  updateStatus now id Active.

(** [getDueTasks(batchSize)] *)
Definition getDueTasks (now : Z) (batchSize : Z) : M (list Task.row) :=
  fun d =>
    if (batchSize <? 0)%Z then (Throw (js "LIMIT must not be negative"), d)
    else
      (Return (firstn (Z.to_nat batchSize)
                 (order_by due_key (due_tasks now d))), d).

(** [lockTask(id, workerId)] *)
Definition lockTask (now : Z) (id workerId : jsstring) : M (option Task.row) :=
  rows ← update_tasks now
           (fun t => bool_decide (Task.id t = id)
                     && is_null (Task.locked_at t)
                     && bool_decide (Task.status t = Active))
           (Task.with_lock (Some now) (Some workerId));
  mret (first_row rows).

(** [unlockTask(id)] *)
Definition unlockTask (now : Z) (id : jsstring) : M (option Task.row) :=
  rows ← update_tasks now (fun t => bool_decide (Task.id t = id))
                      (Task.with_lock None None);
  mret (first_row rows).

(** [recordExecution(id, nextRunAt, completed)]: the statement fails, and
    changes nothing, when [execution_count + 1] leaves the range of INT. *)
Definition recordExecution (now : Z) (id : jsstring) (nextRunAt : option Z)
    (completed : bool) : M (option Task.row) :=
  fun d =>
    if existsb (fun t => bool_decide (Task.id t = id)
                         && negb (int4 (Task.execution_count t + 1))) (tasks d)
    then (Throw (js "integer out of range"), d)
    else
      (rows ← update_tasks now (fun t => bool_decide (Task.id t = id))
                (fun t =>
                   Task.with_lock None None
                     (Task.with_status (if completed then Completed else Task.status t)
                        (Task.with_next_run_at nextRunAt
                           (Task.with_execution_count (Task.execution_count t + 1)
                              (Task.with_last_executed_at (Some now) t)))));
       mret (first_row rows)) d.

(** The row that [recordExecution] makes of a row it updates (the trigger on
    [updated_at] included). *)
Definition recorded (now : Z) (nextRunAt : option Z) (completed : bool)
    (t : Task.row) : Task.row :=
  Task.update_updated_at_column now
    (Task.with_lock None None
       (Task.with_status (if completed then Completed else Task.status t)
          (Task.with_next_run_at nextRunAt
             (Task.with_execution_count (Task.execution_count t + 1)
                (Task.with_last_executed_at (Some now) t))))).

(** [delete(id)]: the executions and notifications of the task go with it
    ([ON DELETE CASCADE]). *)
Definition delete (id : jsstring) : M (option Task.row) :=
  fun d =>
    let gone := List.filter (fun t => bool_decide (Task.id t = id)) (tasks d) in
    (Return (first_row gone),
     {| tasks := List.filter (fun t => negb (bool_decide (Task.id t = id))) (tasks d);
        task_executions :=
          List.filter (fun e => negb (bool_decide (Execution.task_id e = id)))
                      (task_executions d);
        stored_notifications :=
          List.filter (fun n => negb (bool_decide (Notification.task_id n = id)))
                      (stored_notifications d) |}).

(** The argument of [list(filters)]. *)
Record Filters : Type := {
  f_status : option jsstring;
  f_taskType : option jsstring;
  f_createdBy : option jsstring;
  f_tags : option (list jsstring);
  f_limit : option Z;
  f_offset : option Z
}.

Definition task_type_text (k : TaskType) : jsstring :=
  match k with
  | One_time => js "one_time"
  | Recurring => js "recurring"
  end.

(** [parseInt(x, 10) || fallback] for a number argument: [undefined] and
    zero give the fallback. *)
Definition int_or (x : option Z) (fallback : Z) : Z :=
  match x with
  | Some 0%Z | None => fallback
  | Some z => z
  end.

(** [list(filters)]: LIMIT and OFFSET are parameters of type bigint. *)
Definition list (filters : Filters) : M (list Task.row) :=
  fun d =>
    let by_status := fun t =>
      if truthy_opt (f_status filters)
         && negb (bool_decide (f_status filters = Some (js "all")))
      then bool_decide (Some (status_text (Task.status t)) = f_status filters)
      else true in
    let by_type := fun t =>
      if truthy_opt (f_taskType filters)
      then bool_decide (Some (task_type_text (Task.task_type t)) = f_taskType filters)
      else true in
    let by_owner := fun t =>
      if truthy_opt (f_createdBy filters)
      then bool_decide (Task.created_by t = f_createdBy filters)
      else true in
    let by_tags := fun t =>
      match f_tags filters with
      | Some (tag :: more) =>
          existsb (fun x => existsb (jsstring_eqb x) (tag :: more)) (Task.tags t)
      | _ => true
      end in
    let limit := Z.min (int_or (f_limit filters) 50) 200 in
    let offset := Z.max (int_or (f_offset filters) 0) 0 in
    if negb (int8 limit && int8 offset) then
      (Throw (js "value is out of range for type bigint"), d)
    else if (limit <? 0)%Z then (Throw (js "LIMIT must not be negative"), d)
    else
      (Return (firstn (Z.to_nat limit)
                 (skipn (Z.to_nat offset)
                    (order_by (fun t => Some (- Task.created_at t)%Z)
                       (List.filter (fun t => by_status t && by_type t
                                              && by_owner t && by_tags t)
                                    (tasks d))))), d).

End TaskQueries.

(** The foreign key of [task_executions] and [stored_notifications]. *)
Definition task_exists (id : jsstring) (d : db) : bool :=
  existsb (fun t => bool_decide (Task.id t = id)) (tasks d).

(** The argument of [ExecutionQueries.create], as the worker fills it. *)
Record NewExecution : Type := {
  taskId : jsstring;
  new_status : ExecutionStatus;
  requestUrl : option jsstring;
  requestPayload : json
}.

Module ExecutionQueries.

(** [create(execution)] with [gen_random_uuid() = uuid]. *)
Definition create (now : Z) (uuid : jsstring) (execution : NewExecution)
  : M Execution.row :=
  fun d =>
    if negb (task_exists (taskId execution) d) then
      (Throw (js "insert or update on table task_executions violates foreign key constraint"), d)
    else if existsb (fun e => jsstring_eqb (Execution.id e) uuid) (task_executions d) then
      (Throw (js "duplicate key value violates unique constraint task_executions_pkey"), d)
    else
      let inserted := {|
        Execution.id := uuid;
        Execution.task_id := taskId execution;
        Execution.executed_at := now;
        Execution.completed_at := None;
        Execution.status := new_status execution;
        Execution.response_code := None;
        Execution.response_body := None;
        Execution.error_message := None;
        Execution.duration_ms := None;
        Execution.retry_number := 0;
        Execution.request_url := or_null (requestUrl execution);
        Execution.request_payload := json_or_empty (Some (requestPayload execution))
      |} in
      (Return inserted, with_task_executions (task_executions d ++ [inserted]) d).

(** [complete(id, status, responseCode, responseBody, durationMs, errorMessage)]:
    the statement fails, and changes nothing, on a text with the code unit 0
    and on a number outside the range of INT. *)
Definition complete (now : Z) (id : jsstring) (status : ExecutionStatus)
    (responseCode : option Z) (responseBody : option jsstring)
    (durationMs : Z) (errorMessage : option jsstring) : M (option Execution.row) :=
  fun d =>
    if has_nul responseBody || has_nul errorMessage then
      (Throw (js "invalid byte sequence for encoding UTF8: 0x00"), d)
    else if negb (int4 (default 0%Z responseCode) && int4 durationMs) then
      (Throw (js "value is out of range for type integer"), d)
    else
    let set := fun e => {|
      Execution.id := Execution.id e;
      Execution.task_id := Execution.task_id e;
      Execution.executed_at := Execution.executed_at e;
      Execution.completed_at := Some now;
      Execution.status := status;
      Execution.response_code := responseCode;
      Execution.response_body := responseBody;
      Execution.duration_ms := Some durationMs;
      Execution.error_message := errorMessage;
      Execution.retry_number := Execution.retry_number e;
      Execution.request_url := Execution.request_url e;
      Execution.request_payload := Execution.request_payload e
    |} in
    let hit := fun e => bool_decide (Execution.id e = id) in
    (Return (first_row (List.map set (List.filter hit (task_executions d)))),
     with_task_executions
       (List.map (fun e => if hit e then set e else e) (task_executions d)) d).

(** [getByTaskId(taskId, limit)] *)
Definition getByTaskId (taskId : option jsstring) (limit : Z) : M (list Execution.row) :=
  fun d =>
    (Return (firstn (Z.to_nat limit)
               (order_by (fun e => Some (- Execution.executed_at e)%Z)
                  (List.filter (fun e => bool_decide (Some (Execution.task_id e) = taskId))
                               (task_executions d)))), d).

End ExecutionQueries.

End Db.
Export Db.

(* ===================================================================== *)
(** * notifiers/webhook.js and workers/scheduler.js *)
(* ===================================================================== *)

(** The result [{success, statusCode?, body?, error?}] of a notifier. *)
Module Dispatch.

Record result : Type := {
  success : bool;
  statusCode : option Z;
  body : option jsstring;
  error : option jsstring
}.

Definition failure (msg : jsstring) : result :=
  {| success := false; statusCode := None; body := None; error := Some msg |}.

End Dispatch.

Module Worker.

(** The request that [secureFetch] hands to [fetch]: the URL that is
    fetched, the [Host] header, and the headers and body of [sendWebhook]. *)
Record request : Type := {
  req_url : jsstring;
  req_host : jsstring;
  req_signature : jsstring;
  req_task_id : jsstring;
  req_timestamp : jsstring;
  req_body : jsstring
}.

Record response : Type := {
  resp_status : Z;
  resp_statusText : jsstring;
  resp_location : option jsstring;
  resp_text : jsstring   (* response.text().catch(() => '') *)
}.

(** What [fetch] does: a response, or an error with its [name] and
    [message]. *)
Inductive fetched : Type :=
| Responded : response -> fetched
| Failing : jsstring -> jsstring -> fetched.

(** What one step of the process reads from its surroundings. *)
Record Env : Type := {
  config : Config;
  now : Z;                      (* Date.now() and NOW() when the step starts *)
  elapsed : Z;                  (* the time the callback takes *)
  uuidv4 : jsstring;            (* uuidv4() *)
  gen_random_uuid : jsstring;   (* the DEFAULT of the id columns *)
  dns : Resolver;
  fetch : request -> fetched;
  sendSlackNotification : Task.row -> CallbackConfig -> outcome Dispatch.result;
  sendEmailNotification : Task.row -> CallbackConfig -> outcome Dispatch.result
}.

Section WithPlatform.
Context `{Platform}.

Definition timestamp_json (t : option Z) : json :=
  match t with
  | Some t => JStr (toISOString t)
  | None => JNull
  end.

(** The callback payload that [sendWebhook] builds. *)
Definition webhook_payload (env : Env) (task : Task.row) : json :=
  JObj [ (js "task_id", JStr (Task.id task));
         (js "task_name", JStr (Task.name task));
         (js "task_type", JStr (match Task.task_type task with
                                | One_time => js "one_time"
                                | Recurring => js "recurring"
                                end));
         (js "scheduled_at",
          timestamp_json (coalesce (Task.scheduled_at task) (Task.next_run_at task)));
         (js "executed_at", JStr (toISOString (now env)));
         (js "execution_count", JNum (Task.execution_count task + 1));
         (js "payload", json_or_empty (Some (Task.payload task)));
         (js "source", JStr (js "temporal-agent-mcp"));
         (js "version", JStr (js "1.0")) ].

(** [secureFetch(url, options)]: for a host name, the URL that is fetched is
    [url.replace(parsedUrl.hostname, ipHost)], the first occurrence of the
    parsed host name in the text of the URL replaced by the first resolved
    address. *)
Definition secureFetch (env : Env) (target : jsstring) (signature task_id
    timestamp payloadString : jsstring) : fetched :=
  let validation := validateWebhookUrl (config env) (dns env) target in
  if negb (url_valid validation) then
    Failing (js "Error")
            (js "URL validation failed: " ++ default (js "undefined") (url_error validation))
  else
    match URL_parse target with
    | Throw msg => Failing (js "TypeError") msg
    | Return parsedUrl =>
        let resolvedIp := default [] (List.hd_error (resolvedIps validation)) in
        let fetchUrl :=
          if truthy resolvedIp
             && negb (isIPv4 (hostname parsedUrl)) && negb (isIPv6 (hostname parsedUrl))
          then
            let ipHost := if isIPv6 resolvedIp then js "[" ++ resolvedIp ++ js "]"
                          else resolvedIp in
            String_replace target (hostname parsedUrl) ipHost
          else target in
        match fetch env {| req_url := fetchUrl;
                           req_host := hostname parsedUrl;
                           req_signature := signature; req_task_id := task_id;
                           req_timestamp := timestamp;
                           req_body := payloadString |} with
        | Failing name msg => Failing name msg
        | Responded r =>
            if ((300 <=? resp_status r) && (resp_status r <? 400))%Z then
              Failing (js "Error")
                      (js "Redirects are blocked for security. Target: "
                       ++ default (js "null") (resp_location r))
            else Responded r
        end
    end.

(** [sendWebhook(task, callbackConfig)] *)
Definition sendWebhook (env : Env) (task : Task.row) (callbackConfig : CallbackConfig)
  : Dispatch.result :=
  if negb (truthy_opt (url callbackConfig)) then
    Dispatch.failure (js "No webhook URL configured")
  else
    let payloadString := JSON_stringify (webhook_payload env task) in
    let timestamp := toISOString (now env) in
    let signature := generateHmacSignature (config env) payloadString timestamp in
    match secureFetch env (default [] (url callbackConfig)) signature (Task.id task)
                      timestamp payloadString with
    | Responded r =>
        let responseBody := firstn 1000 (resp_text r) in
        if ((200 <=? resp_status r) && (resp_status r <=? 299))%Z then
          {| Dispatch.success := true;
             Dispatch.statusCode := Some (resp_status r);
             Dispatch.body := Some responseBody;
             Dispatch.error := None |}
        else
          {| Dispatch.success := false;
             Dispatch.statusCode := Some (resp_status r);
             Dispatch.body := Some responseBody;
             Dispatch.error :=
               Some (js "HTTP " ++ number_text (resp_status r) ++ js ": "
                     ++ resp_statusText r) |}
    | Failing name msg =>
        if jsstring_eqb name (js "AbortError") then
          Dispatch.failure (js "Webhook timed out after "
                            ++ number_text (webhook_timeoutMs (config env)) ++ js "ms")
        else Dispatch.failure (js "Webhook failed: " ++ msg)
    end.

(** The [INSERT INTO stored_notifications] of the [store] callback. *)
Definition store_notification (env : Env) (task : Task.row) : M unit :=
  fun d =>
    if negb (task_exists (Task.id task) d) then
      (Throw (js "insert or update on table stored_notifications violates foreign key constraint"), d)
    else
      let inserted := {|
        Notification.id := gen_random_uuid env;
        Notification.task_id := Task.id task;
        Notification.payload :=
          JObj [ (js "task_id", JStr (Task.id task));
                 (js "task_name", JStr (Task.name task));
                 (js "executed_at", JStr (toISOString (now env)));
                 (js "payload", Task.payload task) ];
        Notification.created_at := now env;
        Notification.read_at := None;
        Notification.session_id := Task.created_by task
      |} in
      (Return tt, with_stored_notifications (stored_notifications d ++ [inserted]) d).

(** The [switch (task.callback_type)] of [executeTask]; the column admits
    the four listed types only. *)
Definition dispatch (env : Env) (task : Task.row) : M Dispatch.result :=
  match Task.callback_type task with
  | Webhook => mret (sendWebhook env task (Task.callback_config task))
  | Slack => lift_outcome (sendSlackNotification env task (Task.callback_config task))
  | Email => lift_outcome (sendEmailNotification env task (Task.callback_config task))
  | Store =>
      _ ← store_notification env task;
      mret {| Dispatch.success := true; Dispatch.statusCode := None;
              Dispatch.body := None; Dispatch.error := None |}
  end.

(** What [executeTask] passes to [recordExecution]: it depends on the type
    of the task and on the schedule, not on the result of the callback. *)
Definition advance_of (env : Env) (task : Task.row) : option Z * bool :=
  match Task.task_type task with
  | One_time => (None, true)
  | Recurring =>
      (match Task.cron_expression task with
       | Some cron => getNextCronRun (now env + elapsed env) cron (Task.timezone task)
       | None => None
       end, false)
  end.

(** [x || null] for a status code. *)
Definition nonzero (z : option Z) : option Z :=
  match z with
  | Some 0%Z => None
  | _ => z
  end.

(** [executeTask(task)]: the clock reads [now env] before the callback and
    [now env + elapsed env] after it. *)
Definition executeTask (env : Env) (task : Task.row) : M Dispatch.result :=
  execution ← ExecutionQueries.create (now env) (gen_random_uuid env)
    {| taskId := Task.id task;
       new_status := Running;
       requestUrl := url (Task.callback_config task);
       requestPayload := Task.payload task |};
  result ← try_catch (dispatch env task)
                     (fun msg => mret (Dispatch.failure msg));
  let later := (now env + elapsed env)%Z in
  let durationMs := elapsed env in
  _ ← ExecutionQueries.complete later (Execution.id execution)
        (if Dispatch.success result then Success else ExecFailed)
        (nonzero (Dispatch.statusCode result))
        (or_null (Dispatch.body result))
        durationMs
        (or_null (Dispatch.error result));
  _ ← match Task.task_type task with
      | One_time => TaskQueries.recordExecution later (Task.id task) None true
      | Recurring =>
          let nextRunAt :=
            match Task.cron_expression task with
            | Some cron => getNextCronRun later cron (Task.timezone task)
            | None => None
            end in
          TaskQueries.recordExecution later (Task.id task) nextRunAt false
      end;
  mret result.

(** The loop body of [processDueTasks] for worker [WORKER_ID]. *)
Definition process_task (WORKER_ID : jsstring) (env : Env) (task : Task.row)
  : M unit :=
  locked ← TaskQueries.lockTask (now env) (Task.id task) WORKER_ID;
  match locked with
  | None => mret tt
  | Some _ =>
      try_catch (_ ← executeTask env task; mret tt)
                (fun _ =>
                   _ ← TaskQueries.unlockTask (now env + elapsed env) (Task.id task);
                   mret tt)
  end.

Fixpoint process_all (WORKER_ID : jsstring) (env_of : Task.row -> Env)
    (dueTasks : list Task.row) : M unit :=
  match dueTasks with
  | [] => mret tt
  | task :: rest =>
      _ ← process_task WORKER_ID (env_of task) task;
      process_all WORKER_ID env_of rest
  end.

(** [processDueTasks()]: errors are logged, not raised. [env_of] gives the
    surroundings of the step of each task. *)
Definition processDueTasks (isRunning : bool) (WORKER_ID : jsstring) (cfg : Config)
    (clock : Z) (env_of : Task.row -> Env) : M unit :=
  if negb isRunning then mret tt
  else
    try_catch
      (dueTasks ← TaskQueries.getDueTasks clock (batchSize cfg);
       process_all WORKER_ID env_of dueTasks)
      (fun _ => mret tt).

(** [cleanupStaleLocks()] *)
Definition cleanupStaleLocks (cfg : Config) (clock : Z) : M unit :=
  _ ← update_tasks clock
        (fun t => sql_lt (Task.locked_at t) (clock - lockTimeoutMs cfg))
        (Task.with_lock None None);
  mret tt.

End WithPlatform.
End Worker.
Export Worker.

(* ===================================================================== *)
(** * Histories of statements on the [tasks] table *)
(* ===================================================================== *)

(** The statements that the server and the workers issue on [tasks], for
    stating what holds along any interleaving of them. Each statement is
    atomic. *)
Module History.

Inductive statement : Type :=
| LockTask (now : Z) (id workerId : jsstring)
| UnlockTask (now : Z) (id : jsstring)
| RecordExecution (now : Z) (id : jsstring) (nextRunAt : option Z) (completed : bool)
| CleanupStaleLocks (cfg : Config) (clock : Z)
| UpdateStatus (now : Z) (id : option jsstring) (status : TaskStatus)
| Create (now : Z) (uuid : jsstring) (task : NewTask)
| Delete (id : jsstring).

Definition after {A : Type} (m : M A) (d : db) : db := snd (m d).

Definition step (st : statement) (d : db) : db :=
  match st with
  | LockTask now id workerId => after (TaskQueries.lockTask now id workerId) d
  | UnlockTask now id => after (TaskQueries.unlockTask now id) d
  | RecordExecution now id nextRunAt completed =>
      after (TaskQueries.recordExecution now id nextRunAt completed) d
  | CleanupStaleLocks cfg clock => after (cleanupStaleLocks cfg clock) d
  | UpdateStatus now id status => after (TaskQueries.updateStatus now id status) d
  | Create now uuid task => after (TaskQueries.create now uuid task) d
  | Delete id => after (TaskQueries.delete id) d
  end.

Definition run (history : list statement) (d : db) : db :=
  List.fold_left (fun d st => step st d) history d.


(** The primary key of [tasks]. *)
Definition primary_key (d : db) : Prop := NoDup (List.map Task.id (tasks d)).

(** The condition of [lockTask] on a row. *)
Definition lockable (id : jsstring) (t : Task.row) : bool :=
  bool_decide (Task.id t = id) && is_null (Task.locked_at t)
  && bool_decide (Task.status t = Active).


End History.
Export History.

(* ===================================================================== *)
(** * tools/*.js and tools/index.js *)
(* ===================================================================== *)

(** The named-argument mapping of a tool call: every argument a tool reads,
    each of them optional. *)
Module Params.

Record callback : Type := {
  type : option jsstring;
  url : option jsstring;
  channel : option jsstring;
  email : option jsstring
}.

Record t : Type := {
  name : option jsstring;
  description : option jsstring;
  at_ : option jsstring;          (* at *)
  in_ : option jsstring;          (* in *)
  cron : option jsstring;
  timezone : option jsstring;
  callback_ : option callback;    (* callback *)
  payload : option json;
  tags : option (list jsstring);
  retries : option Z;
  enabled : option bool;
  id : option jsstring;
  include_history : option bool;
  status : option jsstring;
  type_ : option jsstring;        (* type *)
  limit : option Z;
  offset : option Z
}.

End Params.

(** The reply of a tool. [task] is the summary object of the scheduling and
    state-changing tools, [rows] and [executionHistory] are what [list_tasks]
    and [get_task] return; the texts for display ([message], [schedule]) are
    not part of the model. *)
Module Reply.

Record summary : Type := {
  id : jsstring;
  name : jsstring;
  status : jsstring;
  previousStatus : option jsstring;
  nextRunAt : option Z
}.

Record result : Type := {
  success : bool;
  error : option jsstring;
  task : option summary;
  rows : list Task.row;
  executionHistory : list Execution.row
}.

Definition failure (msg : jsstring) : result :=
  {| success := false; error := Some msg; task := None; rows := [];
     executionHistory := [] |}.

Definition ok (s : option summary) : result :=
  {| success := true; error := None; task := s; rows := [];
     executionHistory := [] |}.

End Reply.

Module Tools.

Record Context : Type := {
  sessionId : option jsstring
}.

Definition handler : Type := Env -> Params.t -> Context -> M Reply.result.

(** Reading a property of [undefined]. *)
Definition undefined_property {A : Type} (prop : jsstring) : M A :=
  throw (js "Cannot read properties of undefined (reading '" ++ prop ++ js "')").

Definition summary_of (updated : Task.row) (previous : option jsstring) : Reply.summary :=
  {| Reply.id := Task.id updated;
     Reply.name := Task.name updated;
     Reply.status := status_text (Task.status updated);
     Reply.previousStatus := previous;
     Reply.nextRunAt := None |}.

Section WithPlatform.
Context `{Platform}.

(** The checks on [callback] that the two scheduling tools share; [None]
    when they pass. [email_required] is the check that only [schedule_task]
    makes; the two texts are the tools' own. *)
Definition check_callback (env : Env) (callback : option Params.callback)
    (url_required : jsstring) (email_required : bool) : option jsstring :=
  match callback with
  | None => Some (js "Callback configuration with type is required")
  | Some cb =>
      if negb (truthy_opt (Params.type cb)) then
        Some (js "Callback configuration with type is required")
      else if bool_decide (Params.type cb = Some (js "webhook"))
              && negb (truthy_opt (Params.url cb)) then
        Some url_required
      else
        let urlValidation :=
          validateWebhookUrl (config env) (dns env) (default [] (Params.url cb)) in
        if bool_decide (Params.type cb = Some (js "webhook"))
           && negb (url_valid urlValidation) then
          Some (js "Invalid webhook URL: "
                ++ default (js "undefined") (url_error urlValidation))
        else if email_required
                && bool_decide (Params.type cb = Some (js "email"))
                && negb (truthy_opt (Params.email cb)) then
          Some (js "Email address is required for email callback type")
        else None
  end.

Definition callback_config_of (callback : option Params.callback) : CallbackConfig :=
  {| Db.url := callback ≫= Params.url;
     Db.channel := callback ≫= Params.channel;
     Db.email := callback ≫= Params.email |}.

Definition limit_reached (env : Env) : jsstring :=
  js "Maximum active tasks limit reached ("
  ++ number_text (maxActiveTasksPerUser (config env)) ++ js ")".

(** [schedule_task]: the handler of tools/schedule_task.js. *)
Definition schedule_task : handler := fun env params context =>
  let timing := parseTimeInput (now env) (Params.at_ params) (Params.in_ params) in
  match timing_error timing with
  | Some e => mret (Reply.failure e)
  | None =>
  match check_callback env (Params.callback_ params)
          (js "Webhook URL is required for webhook callback type") true with
  | Some e => mret (Reply.failure e)
  | None =>
  let payloadValidation :=
    sanitizePayload (Params.payload params) (maxPayloadSizeBytes (config env)) in
  if negb (payload_valid payloadValidation) then
    mret (Reply.failure (default (js "undefined") (payload_error payloadValidation)))
  else
    let session := default (js "anonymous") (or_null (sessionId context)) in
    activeCount ← TaskQueries.countActiveByUser session;
    if (activeCount >=? maxActiveTasksPerUser (config env))%Z then
      mret (Reply.failure (limit_reached env))
    else
      try_catch
        (task ← TaskQueries.create (now env) (uuidv4 env)
           {| new_name := Params.name params;
              new_description := Params.description params;
              taskType := One_time;
              new_scheduledAt := scheduledAt timing;
              cronExpression := None;
              new_timezone := Some (default (js "UTC") (or_null (Params.timezone params)));
              nextRunAt := None;
              callbackType := default [] (Params.callback_ params ≫= Params.type);
              callbackConfig := callback_config_of (Params.callback_ params);
              new_payload := sanitized payloadValidation;
              maxRetries := Some (default 3%Z (Params.retries params));
              retryDelaySeconds := Some 60%Z;
              createdBy := Some session;
              new_tags := Some (default [] (Params.tags params)) |};
         mret (Reply.ok (Some (summary_of task None))))
        (fun msg => mret (Reply.failure (js "Failed to create task: " ++ msg)))
  end end.

(** [schedule_recurring]: the handler of tools/schedule_recurring.js. *)
Definition schedule_recurring : handler := fun env params context =>
  let cron := default [] (Params.cron params) in
  let timezone := Some (default (js "UTC") (Params.timezone params)) in
  let enabled := default true (Params.enabled params) in
  let cronValidation := validateCronExpression cron in
  if negb (valid cronValidation) then
    mret (Reply.failure (default (js "undefined") (Security.error cronValidation)))
  else
  match getNextCronRun (now env) cron timezone with
  | None =>
      mret (Reply.failure
              (js "Failed to parse cron expression. Ensure format is: minute hour day month weekday"))
  | Some next =>
  match check_callback env (Params.callback_ params) (js "Webhook URL is required") false with
  | Some e => mret (Reply.failure e)
  | None =>
  let payloadValidation :=
    sanitizePayload (Params.payload params) (maxPayloadSizeBytes (config env)) in
  if negb (payload_valid payloadValidation) then
    mret (Reply.failure (default (js "undefined") (payload_error payloadValidation)))
  else
    let session := default (js "anonymous") (or_null (sessionId context)) in
    activeCount ← TaskQueries.countActiveByUser session;
    if (activeCount >=? maxActiveTasksPerUser (config env))%Z then
      mret (Reply.failure (limit_reached env))
    else
      try_catch
        (task ← TaskQueries.create (now env) (uuidv4 env)
           {| new_name := Params.name params;
              new_description := Params.description params;
              taskType := Recurring;
              new_scheduledAt := None;
              cronExpression := Some cron;
              new_timezone := timezone;
              nextRunAt := Some (new_Date next);
              callbackType := default [] (Params.callback_ params ≫= Params.type);
              callbackConfig := callback_config_of (Params.callback_ params);
              new_payload := sanitized payloadValidation;
              maxRetries := Some 3%Z;
              retryDelaySeconds := Some 60%Z;
              createdBy := Some session;
              new_tags := Some (default [] (Params.tags params)) |};
         _ ← (if negb enabled then TaskQueries.pause (now env) (Some (Task.id task))
              else mret None);
         mret (Reply.ok
                 (Some {| Reply.id := Task.id task;
                          Reply.name := Task.name task;
                          Reply.status := if enabled then js "active" else js "paused";
                          Reply.previousStatus := None;
                          Reply.nextRunAt := Task.next_run_at task |})))
        (fun msg => mret (Reply.failure (js "Failed to create recurring task: " ++ msg)))
  end end.

Definition not_found (id : option jsstring) : jsstring :=
  js "Task with ID " ++ default (js "undefined") id ++ js " not found".

(** [cancel_task]: the handler of tools/cancel_task.js. *)
Definition cancel_task : handler := fun env params context =>
  let id := Params.id params in
  try_catch
    (found ← TaskQueries.getById id;
     match found with
     | None => mret (Reply.failure (not_found id))
     | Some task =>
         if bool_decide (Task.status task = Cancelled) then
           mret (Reply.failure (js "Task is already cancelled"))
         else if bool_decide (Task.status task = Completed) then
           mret (Reply.failure (js "Cannot cancel a completed task"))
         else
           updated ← TaskQueries.cancel (now env) id;
           match updated with
           | None => undefined_property (js "id")
           | Some updated =>
               mret (Reply.ok (Some (summary_of updated
                                       (Some (status_text (Task.status task))))))
           end
     end)
    (fun msg => mret (Reply.failure (js "Failed to cancel task: " ++ msg))).

Definition cannot (verb : jsstring) (s : TaskStatus) : jsstring :=
  js "Cannot " ++ verb ++ js " task with status " ++ dquote ++ status_text s ++ dquote.

(** [pause_task]: [pauseHandler] of tools/pause_resume.js. *)
Definition pauseHandler : handler := fun env params context =>
  let id := Params.id params in
  try_catch
    (found ← TaskQueries.getById id;
     match found with
     | None => mret (Reply.failure (not_found id))
     | Some task =>
         if negb (bool_decide (Task.status task = Active)) then
           mret (Reply.failure (cannot (js "pause") (Task.status task)))
         else
           updated ← TaskQueries.pause (now env) id;
           match updated with
           | None => undefined_property (js "id")
           | Some updated => mret (Reply.ok (Some (summary_of updated None)))
           end
     end)
    (fun msg => mret (Reply.failure (js "Failed to pause task: " ++ msg))).

(** [resume_task]: [resumeHandler] of tools/pause_resume.js. [nextRunAt]
    starts as the very object [task.next_run_at] and becomes a fresh [Date]
    (or [null]) when the schedule is computed anew, so
    [nextRunAt && nextRunAt !== task.next_run_at] holds exactly when a new
    run time was computed. *)
Definition resumeHandler : handler := fun env params context =>
  let id := Params.id params in
  try_catch
    (found ← TaskQueries.getById id;
     match found with
     | None => mret (Reply.failure (not_found id))
     | Some task =>
         if negb (bool_decide (Task.status task = Paused)) then
           mret (Reply.failure (cannot (js "resume") (Task.status task)))
         else
           let computed :=
             if bool_decide (Task.task_type task = Recurring)
                && truthy_opt (Task.cron_expression task)
             then Some (getNextCronRun (now env)
                          (default [] (Task.cron_expression task)) (Task.timezone task))
             else None in
           let nextRunAt := default (Task.next_run_at task) computed in
           updated ← TaskQueries.resume (now env) id;
           _ ← match computed with
               | Some (Some fresh) =>
                   TaskQueries.recordExecution (now env) (Task.id task) (Some fresh) false
               | _ => mret None
               end;
           match updated with
           | None => undefined_property (js "id")
           | Some updated =>
               mret (Reply.ok
                       (Some {| Reply.id := Task.id updated;
                                Reply.name := Task.name updated;
                                Reply.status := js "active";
                                Reply.previousStatus := None;
                                Reply.nextRunAt := nextRunAt |}))
           end
     end)
    (fun msg => mret (Reply.failure (js "Failed to resume task: " ++ msg))).

(** [list_tasks]: the handler of tools/list_tasks.js. *)
Definition list_tasks : handler := fun env params context =>
  let status := default (js "active") (Params.status params) in
  let limit := default 50%Z (Params.limit params) in
  let offset := default 0%Z (Params.offset params) in
  try_catch
    (found ← TaskQueries.list
       {| TaskQueries.f_status := Some status;
          TaskQueries.f_taskType := Params.type_ params;
          TaskQueries.f_tags := Params.tags params;
          TaskQueries.f_limit := Some (Z.min limit 200);
          TaskQueries.f_offset := Some offset;
          TaskQueries.f_createdBy := sessionId context |};
     mret {| Reply.success := true; Reply.error := None; Reply.task := None;
             Reply.rows := found; Reply.executionHistory := [] |})
    (fun msg => mret (Reply.failure (js "Failed to list tasks: " ++ msg))).

(** [get_task]: the handler of tools/get_task.js. *)
Definition get_task : handler := fun env params context =>
  let id := Params.id params in
  let include_history := default true (Params.include_history params) in
  try_catch
    (found ← TaskQueries.getById id;
     match found with
     | None => mret (Reply.failure (not_found id))
     | Some task =>
         executions ← (if include_history then ExecutionQueries.getByTaskId id 10
                       else mret []);
         mret {| Reply.success := true; Reply.error := None;
                 Reply.task := Some (summary_of task None);
                 Reply.rows := [task]; Reply.executionHistory := executions |}
     end)
    (fun msg => mret (Reply.failure (js "Failed to get task: " ++ msg))).

(** The array [tools] of tools/index.js, each tool with the name of its
    definition. *)
Definition tools : list (jsstring * handler) :=
  [ (js "schedule_task", schedule_task);
    (js "schedule_recurring", schedule_recurring);
    (js "list_tasks", list_tasks);
    (js "get_task", get_task);
    (js "cancel_task", cancel_task);
    (js "pause_task", pauseHandler);
    (js "resume_task", resumeHandler) ].

(** [new Map(entries)]: a later entry replaces an earlier one with the same
    key. *)
Definition new_Map {V : Type} (entries : list (jsstring * V)) : gmap jsstring V :=
  List.fold_left (fun m kv => <[fst kv := snd kv]> m) entries ∅.

(** [map.get(key)] *)
Definition Map_get {V : Type} (m : gmap jsstring V) (key : jsstring) : option V :=
  m !! key.

Definition toolHandlers : gmap jsstring handler := new_Map tools.

(** [executeTool(name, params, context)] over the registry [registry]
    ([toolHandlers] in the server). *)
Definition executeTool (registry : gmap jsstring handler) (env : Env)
    (name : jsstring) (params : Params.t) (context : Context) : M Reply.result :=
  match Map_get registry name with
  | None => mret (Reply.failure (js "Unknown tool: " ++ name))
  | Some handler =>
      try_catch (handler env params context)
                (fun msg => mret (Reply.failure (js "Tool execution failed: " ++ msg)))
  end.

End WithPlatform.
End Tools.
Export Tools.

(* ===================================================================== *)
(** * The product at work: tool calls and worker steps, one after another *)
(* ===================================================================== *)

Module Operation.

(** What changes the database: a tool call through [executeTool] on the
    registry of the server, a poll of a running worker, and a tick of the
    stale-lock cleanup. *)
Inductive action : Type :=
| ToolCall (env : Env) (name : jsstring) (params : Params.t) (context : Context)
| PollDue (WORKER_ID : jsstring) (cfg : Config) (clock : Z) (env_of : Task.row -> Env)
| ReapLocks (cfg : Config) (clock : Z).

Section WithPlatform.
Context `{Platform}.

Definition perform (a : action) (d : db) : db :=
  match a with
  | ToolCall env name params context =>
      after (executeTool toolHandlers env name params context) d
  | PollDue WORKER_ID cfg clock env_of =>
      after (processDueTasks true WORKER_ID cfg clock env_of) d
  | ReapLocks cfg clock => after (cleanupStaleLocks cfg clock) d
  end.

Definition perform_all (actions : list action) (d : db) : db :=
  List.fold_left (fun d a => perform a d) actions d.

(** The tables as [schema.sql] creates them. *)
Definition empty_db : db :=
  {| tasks := []; task_executions := []; stored_notifications := [] |}.


End WithPlatform.

(** The rows of task [id]. *)
Definition rows_of (id : jsstring) (d : db) : list Task.row :=
  List.filter (fun t => bool_decide (Task.id t = id)) (tasks d).

(** A task is finished when it exists and each of its rows is [completed]
    or [cancelled] and carries no lease. *)
Definition finished_row (t : Task.row) : Prop :=
  (Task.status t = Completed \/ Task.status t = Cancelled)
  /\ Task.locked_at t = None.

Definition finished (id : jsstring) (d : db) : Prop :=
  rows_of id d <> [] /\ Forall finished_row (rows_of id d).


(** A computation keeps an invariant of the database, whether it returns or
    raises, and what it returns satisfies [Q]. *)
Definition keeps {A : Type} (I : db -> Prop) (m : M A) (Q : A -> Prop) : Prop :=
  forall d, I d ->
    match m d with
    | (Return a, d') => I d' /\ Q a
    | (Throw _, d') => I d'
    end.

End Operation.

(* ===================================================================== *)
(** * index.js: the rate limiter and the client address *)
(* ===================================================================== *)

Module Server.
Local Open Scope Z_scope.

Definition RATE_LIMIT_WINDOW_MS : Z := 15 * 60 * 1000.
Definition RATE_LIMIT_MAX_REQUESTS : Z := 100.

(** A value of [rateLimitStore]: [{ count, windowStart }]. *)
Record record : Type := {
  count : Z;
  windowStart : Z
}.

(** The object that [checkRateLimit] returns; [retryAfter] is present on a
    refusal only. *)
Record verdict : Type := {
  allowed : bool;
  remaining : Z;
  retryAfter : option Z
}.

(** [Math.ceil(a / b)] for integers [a] and [b > 0]. *)
Definition ceil_div (a b : Z) : Z := - ((- a) / b).

(** [checkRateLimit(ip)] at [Date.now() = now], on the contents of
    [rateLimitStore]. [record.count++] changes the object that the map
    holds, which is the map with the new record at [ip]. *)
Definition checkRateLimit (now : Z) (ip : jsstring) (store : gmap jsstring record)
  : verdict * gmap jsstring record :=
  let fresh :=
    ({| allowed := true; remaining := RATE_LIMIT_MAX_REQUESTS - 1; retryAfter := None |},
     <[ip := {| count := 1; windowStart := now |}]> store) in
  match store !! ip with
  | None => fresh
  | Some r =>
      if now - windowStart r >? RATE_LIMIT_WINDOW_MS then fresh
      else if count r >=? RATE_LIMIT_MAX_REQUESTS then
        ({| allowed := false; remaining := 0;
            retryAfter :=
              Some (ceil_div (windowStart r + RATE_LIMIT_WINDOW_MS - now) 1000) |},
         store)
      else
        ({| allowed := true;
            remaining := RATE_LIMIT_MAX_REQUESTS - (count r + 1);
            retryAfter := None |},
         <[ip := {| count := count r + 1; windowStart := windowStart r |}]> store)
  end.

(** [resetRateLimits()] *)
Definition resetRateLimits (store : gmap jsstring record) : gmap jsstring record := ∅.

(** The callback of the five-minute interval: the records whose window has
    passed are deleted. *)
Definition cleanup (now : Z) (store : gmap jsstring record) : gmap jsstring record :=
  base.filter
    (fun kv : jsstring * record => ¬ (now - windowStart (snd kv) > RATE_LIMIT_WINDOW_MS))
    store.

(** What happens to the store: a request of [ip] passing the limiter, a
    tick of the cleanup interval, a reset. *)
Inductive event : Type :=
| Request (now : Z) (ip : jsstring)
| Cleanup (now : Z)
| Reset.

Definition apply_event (e : event) (store : gmap jsstring record) : gmap jsstring record :=
  match e with
  | Request now ip => snd (checkRateLimit now ip store)
  | Cleanup now => cleanup now store
  | Reset => resetRateLimits store
  end.

Definition run_events (events : list event) (store : gmap jsstring record)
  : gmap jsstring record :=
  List.fold_left (fun s e => apply_event e s) events store.

(** The verdicts that successive requests [(now, ip)] receive, in order,
    each with the address it was given to. *)
Fixpoint serve (requests : list (Z * jsstring)) (store : gmap jsstring record)
  : list (jsstring * verdict) :=
  match requests with
  | [] => []
  | (now, ip) :: rest =>
      let (v, store') := checkRateLimit now ip store in
      (ip, v) :: serve rest store'
  end.

Definition verdicts_for (ip : jsstring) (transcript : list (jsstring * verdict))
  : list verdict :=
  List.map snd (List.filter (fun p => bool_decide (fst p = ip)) transcript).

(** The parts of an Express request that [getClientIp] reads: [req.ip], the
    header [x-forwarded-for], and [req.connection?.remoteAddress]. *)
Record client : Type := {
  req_ip : option jsstring;
  x_forwarded_for : option jsstring;
  remoteAddress : option jsstring
}.

(** [getClientIp(req)] *)
Definition getClientIp (req : client) : jsstring :=
  let forwarded :=
    match x_forwarded_for req with
    | Some header => Some (trim (List.hd [] (split_char (ch ",") header)))
    | None => None
    end in
  if truthy_opt (req_ip req) then default [] (req_ip req)
  else if truthy_opt forwarded then default [] forwarded
  else if truthy_opt (remoteAddress req) then default [] (remoteAddress req)
  else js "unknown".

(** The middleware on [/mcp]: the headers it sets, and the refusal, if any. *)
Record limited : Type := {
  X_RateLimit_Limit : Z;
  X_RateLimit_Remaining : Z;
  Retry_After : option Z;
  status_429 : bool
}.

Definition rate_limit_middleware (now : Z) (req : client)
    (store : gmap jsstring record) : limited * gmap jsstring record :=
  let (rateLimit, store') := checkRateLimit now (getClientIp req) store in
  ({| X_RateLimit_Limit := RATE_LIMIT_MAX_REQUESTS;
      X_RateLimit_Remaining := remaining rateLimit;
      Retry_After := if allowed rateLimit then None else retryAfter rateLimit;
      status_429 := negb (allowed rateLimit) |}, store').

(** ** The notification endpoints *)

(** The JSON reply of [GET /notifications] and [POST /notifications/read]
    with its status code. *)
Record notifications_reply : Type := {
  http_status : Z;
  reply_error : option jsstring;
  notifications : list Notification.row;   (* id, taskId, payload, createdAt *)
  reply_count : Z;                         (* count, or marked *)
}.

Definition refused (code : Z) (msg : jsstring) : notifications_reply :=
  {| http_status := code; reply_error := Some msg; notifications := [];
     reply_count := 0 |}.

(** [GET /notifications]: the session id is the header [x-session-id] or
    else the query parameter [session_id], each a string when present. *)
Definition get_notifications (x_session_id session_id : option jsstring)
  : M notifications_reply :=
  fun d =>
    let sessionId := if truthy_opt x_session_id then x_session_id else session_id in
    if negb (truthy_opt sessionId) then (Return (refused 400 (js "Session ID required")), d)
    else
      let found :=
        firstn 50
          (order_by (fun n => Some (- Notification.created_at n))
             (List.filter (fun n => bool_decide (Notification.session_id n = sessionId)
                                    && is_null (Notification.read_at n))
                          (stored_notifications d))) in
      (Return {| http_status := 200; reply_error := None; notifications := found;
                 reply_count := Z.of_nat (List.length found) |}, d).

Section Postgres.
(** The input function of the type [uuid]: the UUID that a text denotes, in
    the form in which the database prints it (the ids of the rows are in this
    form); [None] for a text that denotes none. *)
Variable uuid_in : jsstring -> option jsstring.

(** [POST /notifications/read] at [NOW() = now]: [ids] is the member of
    that name of the body when it is an array, here an array of strings. A
    text that is no UUID makes the statement fail, which is answered with
    500. *)
Definition mark_notifications_read (now : Z) (ids : option (list jsstring))
  : M notifications_reply :=
  fun d =>
    match ids with
    | None => (Return (refused 400 (js "Array of notification IDs required")), d)
    | Some ids =>
        if negb (forallb (fun i => bool_decide (is_Some (uuid_in i))) ids) then
          (Return (refused 500 (js "Failed to mark notifications as read")), d)
        else
          (Return {| http_status := 200; reply_error := None; notifications := [];
                     reply_count := Z.of_nat (List.length ids) |},
           with_stored_notifications
             (List.map (fun n =>
                if existsb (fun i => bool_decide (uuid_in i = Some (Notification.id n))) ids
                then {| Notification.id := Notification.id n;
                        Notification.task_id := Notification.task_id n;
                        Notification.payload := Notification.payload n;
                        Notification.created_at := Notification.created_at n;
                        Notification.read_at := Some now;
                        Notification.session_id := Notification.session_id n |}
                else n) (stored_notifications d)) d)
    end.

End Postgres.

(** ** The JSON-RPC endpoint [POST /mcp] *)

(** The members of the body that the handler reads: [jsonrpc] and [method]
    as strings when present, [id] as it came, and of [params] the members
    [name] and [arguments]. *)
Record rpc_request : Type := {
  jsonrpc : option jsstring;
  rpc_id : option json;
  method : option jsstring;
  call_name : option jsstring;            (* params?.name *)
  call_arguments : option Params.t        (* params?.arguments *)
}.

(** What is sent back: the JSON-RPC [result] or [error], or the refusal of
    one of the two middlewares that come before the handler. *)
Inductive rpc_payload : Type :=
| ToolList (names : list jsstring)         (* { tools: getToolDefinitions() } *)
| ToolReply (r : Reply.result)
| Initialized
| RpcError (code : Z) (message : jsstring)
| InternalServerError
| UnsupportedMediaType
| TooManyRequests (retry : option Z).

(** What the first middlewares make of a POST. [express.json] raises on a
    body of type [application/json] that it refuses (a text that is no JSON
    object or array, a body of more than 1mb), and the error goes to the
    error middleware; a request for which [req.is('application/json')] fails
    is answered by the check of the content type; otherwise [req.body] is
    the parsed body. *)
Inductive posted (A : Type) : Type :=
| Unparsable : posted A
| NotJson : posted A
| Body : A -> posted A.
Arguments Unparsable {A}.
Arguments NotJson {A}.
Arguments Body {A} _.

Record rpc_response : Type := {
  rpc_status : Z;
  response_id : option json;
  rpc_body : rpc_payload
}.

(** [args || {}] *)
Definition no_arguments : Params.t := {|
  Params.name := None; Params.description := None;
  Params.at_ := None; Params.in_ := None; Params.cron := None;
  Params.timezone := None; Params.callback_ := None; Params.payload := None;
  Params.tags := None; Params.retries := None; Params.enabled := None;
  Params.id := None; Params.include_history := None; Params.status := None;
  Params.type_ := None; Params.limit := None; Params.offset := None
|}.

Section Endpoints.
Context `{Platform}.

(** The handler of [app.post('/mcp', ...)]; [x_session_id] is the header of
    that name. *)
Definition mcp_handler (env : Env) (x_session_id : option jsstring)
    (req : rpc_request) (d : db) : rpc_response * db :=
  let answer := fun code body =>
    {| rpc_status := code; response_id := rpc_id req; rpc_body := body |} in
  if negb (bool_decide (jsonrpc req = Some (js "2.0"))) then
    (answer 400 (RpcError (-32600) (js "Invalid Request: must use JSON-RPC 2.0")), d)
  else if bool_decide (method req = Some (js "tools/list")) then
    (answer 200 (ToolList (List.map fst tools)), d)
  else if bool_decide (method req = Some (js "tools/call")) then
    if negb (truthy_opt (call_name req)) then
      (answer 200 (RpcError (-32602) (js "Invalid params: missing tool name")), d)
    else
      match executeTool toolHandlers env (default [] (call_name req))
              (default no_arguments (call_arguments req))
              {| sessionId :=
                   Some (if truthy_opt x_session_id then default [] x_session_id
                         else js "anonymous") |} d with
      | (Return result, d') => (answer 200 (ToolReply result), d')
      | (Throw _, d') =>
          (answer 200 (RpcError (-32603) (js "Internal error occurred")), d')
      end
  else if bool_decide (method req = Some (js "initialize")) then
    (answer 200 Initialized, d)
  else
    (answer 200 (RpcError (-32601)
                   (js "Method not found: " ++ default (js "undefined") (method req))), d).

(** A [POST /mcp] through the middlewares: [express.json], the check of the
    content type, then the rate limiter, then the handler. An error of
    [express.json] skips them all and is answered 500 by the error
    middleware. [arrival] is the [Date.now()] the rate limiter reads. *)
Definition post_mcp (env : Env) (body : posted rpc_request) (from : client)
    (x_session_id : option jsstring)
    (arrival : Z) (store : gmap jsstring record) (d : db)
  : rpc_response * gmap jsstring record * db :=
  match body with
  | Unparsable =>
      ({| rpc_status := 500; response_id := None; rpc_body := InternalServerError |},
       store, d)
  | NotJson =>
      ({| rpc_status := 415; response_id := None; rpc_body := UnsupportedMediaType |},
       store, d)
  | Body req =>
      let (limit, store') := rate_limit_middleware arrival from store in
      if status_429 limit then
        ({| rpc_status := 429; response_id := None;
            rpc_body := TooManyRequests (Retry_After limit) |}, store', d)
      else
        let (response, d') := mcp_handler env x_session_id req d in
        (response, store', d')
  end.

End Endpoints.

End Server.

(* ===================================================================== *)
(** * workers/scheduler.js: starting and stopping *)
(* ===================================================================== *)

Module Lifecycle.

(** What an interval calls. *)
Inductive callback : Type :=
| Poll       (* processDueTasks() every pollIntervalMs *)
| Reap.      (* cleanupStaleLocks() every five minutes *)

(** The module variables [isRunning] and [pollInterval], and the intervals
    that are set: [setInterval] returns a new handle each time, and
    [clearInterval(h)] removes the interval of handle [h]. *)
Record scheduler : Type := {
  isRunning : bool;
  pollInterval : option nat;
  intervals : list (nat * callback);
  next_handle : nat
}.

Definition initial : scheduler :=
  {| isRunning := false; pollInterval := None; intervals := []; next_handle := 0 |}.

Definition setInterval (f : callback) (s : scheduler) : nat * scheduler :=
  (next_handle s,
   {| isRunning := isRunning s; pollInterval := pollInterval s;
      intervals := intervals s ++ [(next_handle s, f)];
      next_handle := S (next_handle s) |}).

Definition clearInterval (h : nat) (s : scheduler) : scheduler :=
  {| isRunning := isRunning s; pollInterval := pollInterval s;
     intervals := List.filter (fun t => negb (Nat.eqb (fst t) h)) (intervals s);
     next_handle := next_handle s |}.

(** [startScheduler()]: the new state, and whether [processDueTasks()] was
    called for the initial run. *)
Definition startScheduler (s : scheduler) : scheduler * bool :=
  if isRunning s then (s, false)
  else
    let s1 := {| isRunning := true; pollInterval := pollInterval s;
                 intervals := intervals s; next_handle := next_handle s |} in
    let (h, s2) := setInterval Poll s1 in
    let s3 := {| isRunning := isRunning s2; pollInterval := Some h;
                 intervals := intervals s2; next_handle := next_handle s2 |} in
    let (_, s4) := setInterval Reap s3 in
    (s4, true).

(** [stopScheduler()] *)
Definition stopScheduler (s : scheduler) : scheduler :=
  if negb (isRunning s) then s
  else
    let s1 := {| isRunning := false; pollInterval := pollInterval s;
                 intervals := intervals s; next_handle := next_handle s |} in
    match pollInterval s1 with
    | Some h =>
        let s2 := clearInterval h s1 in
        {| isRunning := isRunning s2; pollInterval := None;
           intervals := intervals s2; next_handle := next_handle s2 |}
    | None => s1
    end.

Inductive command : Type := Start | Stop.

Definition obey (c : command) (s : scheduler) : scheduler :=
  match c with
  | Start => fst (startScheduler s)
  | Stop => stopScheduler s
  end.

Definition obey_all (commands : list command) (s : scheduler) : scheduler :=
  List.fold_left (fun s c => obey c s) commands s.

(** The intervals that call [f]. *)
Definition calling (f : callback) (s : scheduler) : list nat :=
  List.map fst (List.filter (fun t => match snd t, f with
                                      | Poll, Poll | Reap, Reap => true
                                      | _, _ => false
                                      end) (intervals s)).

(** The invariant of the module state: handles are distinct and below the
    next one; [pollInterval] is the one polling interval of a running
    scheduler, a stopped one has none; and of every two handles issued, one
    is a reaping interval that is still set. *)
Definition well_formed (s : scheduler) : Prop :=
  NoDup (List.map fst (intervals s))
  /\ (forall h, In h (List.map fst (intervals s)) -> h < next_handle s)
  /\ (if isRunning s
      then exists h, pollInterval s = Some h /\ calling Poll s = [h]
      else pollInterval s = None /\ calling Poll s = [])
  /\ next_handle s = 2 * List.length (calling Reap s).

End Lifecycle.

(* ===================================================================== *)
(** * The specification's own words, for comparison with the code *)
(* ===================================================================== *)

Module Spec.
Local Open Scope N_scope.

(** The cron whitelist as the specification prints it:
    [[0-9 \t,\-*/LW#?]] (digits, space, tab, comma, dash, asterisk, slash,
    L, W, #, ?). *)
Definition spec_cron_whitelist (c : N) : bool :=
  is_digit c || (c =? 32) || (c =? 9) || existsb (N.eqb c) (js ",-*/LW#?").

(** The dotted-decimal literal [a.b.c.d]. *)
Definition dotted (a b c d : N) : jsstring :=
  decimal a ++ js "." ++ decimal b ++ js "." ++ decimal c ++ js "." ++ decimal d.

(** The IPv4 block table of the specification, on the four octets:
    127.0.0.0/8, 10.0.0.0/8, 172.16.0.0/12, 192.168.0.0/16, 169.254.0.0/16,
    0.0.0.0/8, 100.64.0.0/10, 192.0.0.0/24, 192.0.2.0/24, 198.51.100.0/24,
    203.0.113.0/24, 224.0.0.0/4, 240.0.0.0/4 (which holds 255.255.255.255). *)
Definition spec_blocked_ipv4 (a b c d : N) : bool :=
  (a =? 127) || (a =? 10)
  || ((a =? 172) && (16 <=? b) && (b <=? 31))
  || ((a =? 192) && (b =? 168))
  || ((a =? 169) && (b =? 254))
  || (a =? 0)
  || ((a =? 100) && (64 <=? b) && (b <=? 127))
  || ((a =? 192) && (b =? 0) && (c =? 0))
  || ((a =? 192) && (b =? 0) && (c =? 2))
  || ((a =? 198) && (b =? 51) && (c =? 100))
  || ((a =? 203) && (b =? 0) && (c =? 113))
  || ((224 <=? a) && (a <=? 239))
  || ((240 <=? a) && (a <=? 255)).

(** The part of that table which [BLOCKED_IPV4_PATTERNS] covers: the same
    ranges with 224.0.0.0/8, 240.0.0.0/8 and the broadcast address in the
    place of 224.0.0.0/4 and 240.0.0.0/4. *)
Definition covered_ipv4 (a b c d : N) : bool :=
  (a =? 127) || (a =? 10)
  || ((a =? 172) && (16 <=? b) && (b <=? 31))
  || ((a =? 192) && (b =? 168))
  || ((a =? 169) && (b =? 254))
  || (a =? 0)
  || ((a =? 100) && (64 <=? b) && (b <=? 127))
  || ((a =? 192) && (b =? 0) && (c =? 0))
  || ((a =? 192) && (b =? 0) && (c =? 2))
  || ((a =? 198) && (b =? 51) && (c =? 100))
  || ((a =? 203) && (b =? 0) && (c =? 113))
  || (a =? 224)
  || (a =? 240)
  || ((a =? 255) && (b =? 255) && (c =? 255) && (d =? 255)).

(** Whether the 16-bit group [h] lies under the prefix [base/len] (for
    [len] up to 16). *)
Definition group_in_prefix (h base len : N) : bool :=
  N.shiftr h (16 - len) =? N.shiftr base (16 - len).

(** A cron expression whose fields are separated by a line feed once. *)
Definition cron_with_line_feed : jsstring := js "0" ++ [10] ++ js "9 * * 1".

End Spec.
Export Spec.

(* ===================================================================== *)
(** * A reference platform for the closed examples *)
(* ===================================================================== *)

(** The theorems below hold for every [Platform]. The examples run on this
    one, which answers on the inputs the product itself produces: date-times
    as [toISOString] prints them, durations [<integer><unit>], URLs
    [scheme://host/...], and cron expressions [<minute> <hour|*> * * *] in
    UTC. *)
Module Reference.
Local Open Scope Z_scope.

(** The digits of [s] as a number; [None] when [s] is empty or holds another
    code unit. *)
Definition digits_value (s : jsstring) : option Z :=
  if negb (truthy s) || negb (forallb is_digit s) then None
  else Some (fold_left (fun acc c => acc * 10 + (Z.of_N c - 48)) s 0).

Definition days_from_civil (y m d : Z) : Z :=
  let y' := if m <=? 2 then y - 1 else y in
  let era := y' / 400 in
  let yoe := y' - era * 400 in
  let doy := (153 * (if m >? 2 then m - 3 else m + 9) + 2) / 5 + d - 1 in
  let doe := yoe * 365 + yoe / 4 - yoe / 100 + doy in
  era * 146097 + doe - 719468.

Definition days_in_month (y m : Z) : Z :=
  if m =? 2 then
    if ((y mod 4 =? 0) && negb (y mod 100 =? 0)) || (y mod 400 =? 0) then 29 else 28
  else if (m =? 4) || (m =? 6) || (m =? 9) || (m =? 11) then 30
  else 31.

Definition piece (from len : nat) (s : jsstring) : jsstring :=
  firstn len (skipn from s).

(** [YYYY-MM-DDTHH:mm:ss.sssZ] *)
Definition iso_parse (s : jsstring) : option Z :=
  if negb (Nat.eqb (List.length s) 24) then None
  else if negb (jsstring_eqb (piece 4 1 s) (js "-") && jsstring_eqb (piece 7 1 s) (js "-")
                && jsstring_eqb (piece 10 1 s) (js "T") && jsstring_eqb (piece 13 1 s) (js ":")
                && jsstring_eqb (piece 16 1 s) (js ":") && jsstring_eqb (piece 19 1 s) (js ".")
                && jsstring_eqb (piece 23 1 s) (js "Z")) then None
  else
    match digits_value (piece 0 4 s), digits_value (piece 5 2 s),
          digits_value (piece 8 2 s), digits_value (piece 11 2 s),
          digits_value (piece 14 2 s), digits_value (piece 17 2 s),
          digits_value (piece 20 3 s) with
    | Some y, Some m, Some d, Some hh, Some mm, Some ss, Some mmm =>
        if (1 <=? m) && (m <=? 12) && (1 <=? d) && (d <=? days_in_month y m)
           && (hh <=? 23) && (mm <=? 59) && (ss <=? 59)
        then Some (days_from_civil y m d * 86400000
                   + hh * 3600000 + mm * 60000 + ss * 1000 + mmm)
        else None
    | _, _, _, _, _, _, _ => None
    end.

Definition padded (width : nat) (n : Z) : jsstring :=
  let text := decimal (Z.to_N n) in
  repeat (ch "0") (width - List.length text) ++ text.

Definition iso_print (t : Z) : jsstring :=
  let days := t / 86400000 in
  let rest := t mod 86400000 in
  let z := days + 719468 in
  let era := z / 146097 in
  let doe := z - era * 146097 in
  let yoe := (doe - doe / 1460 + doe / 36524 - doe / 146096) / 365 in
  let doy := doe - (365 * yoe + yoe / 4 - yoe / 100) in
  let mp := (5 * doy + 2) / 153 in
  let d := doy - (153 * mp + 2) / 5 + 1 in
  let m := if mp <? 10 then mp + 3 else mp - 9 in
  let y := yoe + era * 400 + (if m <=? 2 then 1 else 0) in
  padded 4 y ++ js "-" ++ padded 2 m ++ js "-" ++ padded 2 d ++ js "T"
  ++ padded 2 (rest / 3600000) ++ js ":" ++ padded 2 (rest / 60000 mod 60) ++ js ":"
  ++ padded 2 (rest / 1000 mod 60) ++ js "." ++ padded 3 (rest mod 1000) ++ js "Z".

(** [<integer><unit>] with the units ms (also when none is written), s, m,
    h, d and w. *)
Definition unit_ms (u : jsstring) : option Z :=
  if jsstring_eqb u (js "ms") || negb (truthy u) then Some 1
  else if jsstring_eqb u (js "s") then Some 1000
  else if jsstring_eqb u (js "m") then Some 60000
  else if jsstring_eqb u (js "h") then Some 3600000
  else if jsstring_eqb u (js "d") then Some 86400000
  else if jsstring_eqb u (js "w") then Some 604800000
  else None.

Fixpoint leading_digits (s : jsstring) : jsstring * jsstring :=
  match s with
  | c :: s' =>
      if is_digit c then
        let (ds, rest) := leading_digits s' in (c :: ds, rest)
      else ([], s)
  | [] => ([], [])
  end.

Definition ms_parse (s : jsstring) : option Z :=
  let (ds, u) := leading_digits s in
  match digits_value ds, unit_ms u with
  | Some n, Some k => Some (n * k)
  | _, _ => None
  end.

(** [<minute> <hour|*> * * *] in UTC: the next such minute after [from]. *)
Definition cron_eval (cron tz : jsstring) (from : Z) : option Z :=
  if negb (jsstring_eqb tz (js "UTC")) then None
  else
    match split_char (ch " ") cron with
    | [minute; hour; dom; month; dow] =>
        if negb (jsstring_eqb dom (js "*") && jsstring_eqb month (js "*")
                 && jsstring_eqb dow (js "*")) then None
        else
          match digits_value minute with
          | None => None
          | Some m =>
              if negb (m <=? 59) then None
              else if jsstring_eqb hour (js "*") then
                let candidate := from / 3600000 * 3600000 + m * 60000 in
                Some (if candidate >? from then candidate else candidate + 3600000)
              else
                match digits_value hour with
                | None => None
                | Some h =>
                    if negb (h <=? 23) then None
                    else
                      let candidate :=
                        from / 86400000 * 86400000 + h * 3600000 + m * 60000 in
                      Some (if candidate >? from then candidate
                            else candidate + 86400000)
                end
          end
    | _ => None
    end.

(** [scheme://host] followed by a port, a path, a query or nothing. *)
Fixpoint until_any (stops : jsstring) (s : jsstring) : jsstring * jsstring :=
  match s with
  | c :: s' =>
      if existsb (N.eqb c) stops then ([], s)
      else let (a, b) := until_any stops s' in (c :: a, b)
  | [] => ([], [])
  end.

Definition url_parse (s : jsstring) : outcome URL :=
  let (scheme, rest) := until_any (js ":") s in
  if negb (truthy scheme) || negb (startsWith (js "://") rest) then
    Throw (js "Invalid URL")
  else
    let (host, _) := until_any (js "/:?#") (skipn 3 rest) in
    if negb (truthy host) then Throw (js "Invalid URL")
    else Return {| protocol := toLowerCase scheme ++ js ":";
                   hostname := toLowerCase host |}.

(** Dotted quads with octets up to 255, and texts of hexadecimal groups and
    colons. *)
Definition is_ipv4 (s : jsstring) : bool :=
  match List.map digits_value (split_char (ch ".") s) with
  | [Some a; Some b; Some c; Some d] =>
      (a <=? 255) && (b <=? 255) && (c <=? 255) && (d <=? 255)
  | _ => false
  end.

Definition is_ipv6 (s : jsstring) : bool :=
  includes_char (ch ":") s
  && forallb (fun c => (N.eqb c (ch ":")) || (N.eqb c (ch "."))
                       || match unhex c with Some _ => true | None => false end) s.

Definition node : Platform := {|
  Date_parse := iso_parse;
  ms := ms_parse;
  cron_next := cron_eval;
  URL_parse := url_parse;
  isIPv4 := is_ipv4;
  isIPv6 := is_ipv6;
  toISOString := iso_print
|}.

(** A resolver that knows no name, outside production. *)
Definition no_dns : Resolver := {|
  resolve4 := fun _ => [];
  resolve6 := fun _ => [];
  production := false
|}.

(** Surroundings in which every outgoing request is refused by the peer. *)
Definition refusing (clock : Z) : Env := {|
  config := default_config;
  now := clock;
  elapsed := 25;
  uuidv4 := js "7c9e6679-7425-40de-944b-e07fc1f90ae7";
  gen_random_uuid := js "0b1c3f0e-52a4-4f6e-9d67-3e5a1c2f8b90";
  dns := {| resolve4 := fun _ => [js "93.184.216.34"];
            resolve6 := fun _ => [];
            production := false |};
  fetch := fun _ => Responded {| resp_status := 503;
                                 resp_statusText := js "Service Unavailable";
                                 resp_location := None;
                                 resp_text := js "down" |};
  sendSlackNotification := fun _ _ => Return (Dispatch.failure (js "No Slack webhook URL configured"));
  sendEmailNotification := fun _ _ => Throw (js "connect ECONNREFUSED")
|}.

(** A one-time webhook task that is due, and a paused recurring task that
    has run five times. *)
Definition reminder : Task.row := {|
  Task.id := js "7c9e6679-7425-40de-944b-e07fc1f90ae7";
  Task.name := js "Check PR status";
  Task.description := None;
  Task.task_type := One_time;
  Task.scheduled_at := Some 1765965600000;
  Task.cron_expression := None;
  Task.timezone := Some (js "UTC");
  Task.next_run_at := Some 1765965600000;
  Task.callback_type := Webhook;
  Task.callback_config := {| Db.url := Some (js "https://example.com/webhook");
                             Db.channel := None; Db.email := None |};
  Task.payload := JObj [(js "pr_number", JNum 123)];
  Task.status := Active;
  Task.max_retries := 3;
  Task.retry_delay_seconds := 60;
  Task.current_retry_count := 0;
  Task.last_executed_at := None;
  Task.execution_count := 0;
  Task.created_at := 1765962000000;
  Task.updated_at := 1765962000000;
  Task.created_by := Some (js "session-1");
  Task.tags := [];
  Task.locked_at := None;
  Task.locked_by := None
|}.

Definition standup : Task.row := {|
  Task.id := js "3f2b8a10-9c4d-4e7a-8b1f-5d6e7f809a1b";
  Task.name := js "Daily standup reminder";
  Task.description := None;
  Task.task_type := Recurring;
  Task.scheduled_at := None;
  Task.cron_expression := Some (js "0 9 * * *");
  Task.timezone := Some (js "UTC");
  Task.next_run_at := Some 1765962000000;
  Task.callback_type := Webhook;
  Task.callback_config := {| Db.url := Some (js "https://example.com/standup");
                             Db.channel := None; Db.email := None |};
  Task.payload := JObj [];
  Task.status := Paused;
  Task.max_retries := 3;
  Task.retry_delay_seconds := 60;
  Task.current_retry_count := 0;
  Task.last_executed_at := Some 1765875600000;
  Task.execution_count := 5;
  Task.created_at := 1765443600000;
  Task.updated_at := 1765879200000;
  Task.created_by := Some (js "session-1");
  Task.tags := [js "team"];
  Task.locked_at := None;
  Task.locked_by := None
|}.

Definition sample_db : db := {|
  tasks := [reminder; standup];
  task_executions := [];
  stored_notifications := []
|}.

(** The argument mapping with no argument, and the one that names a task. *)
Definition no_params : Params.t := {|
  Params.name := None; Params.description := None;
  Params.at_ := None; Params.in_ := None; Params.cron := None;
  Params.timezone := None; Params.callback_ := None; Params.payload := None;
  Params.tags := None; Params.retries := None; Params.enabled := None;
  Params.id := None; Params.include_history := None; Params.status := None;
  Params.type_ := None; Params.limit := None; Params.offset := None
|}.

Definition params_with_id (id : jsstring) : Params.t := {|
  Params.name := None; Params.description := None;
  Params.at_ := None; Params.in_ := None; Params.cron := None;
  Params.timezone := None; Params.callback_ := None; Params.payload := None;
  Params.tags := None; Params.retries := None; Params.enabled := None;
  Params.id := Some id; Params.include_history := None; Params.status := None;
  Params.type_ := None; Params.limit := None; Params.offset := None
|}.

(** [{name, in: "1s", cron: "0 9 * * *", callback: {type: "webhook", url}}] *)
Definition params_webhook (target : jsstring) : Params.t := {|
  Params.name := Some (js "Ping");
  Params.description := None;
  Params.at_ := None;
  Params.in_ := Some (js "1s");
  Params.cron := Some (js "0 9 * * *");
  Params.timezone := None;
  Params.callback_ := Some {| Params.type := Some (js "webhook");
                              Params.url := Some target;
                              Params.channel := None;
                              Params.email := None |};
  Params.payload := None; Params.tags := None; Params.retries := None;
  Params.enabled := None; Params.id := None; Params.include_history := None;
  Params.status := None; Params.type_ := None; Params.limit := None;
  Params.offset := None
|}.

Definition session_1 : Context := {| sessionId := Some (js "session-1") |}.

(** A handler that raises, as one whose query fails does. *)
Definition throwing_handler : handler :=
  fun _ _ _ => throw (js "connect ECONNREFUSED 127.0.0.1:5432").

End Reference.

(* ===================================================================== *)
(** * Properties *)
(* ===================================================================== *)

(** ** The matcher decides the language of a pattern *)

Section RegexAdequacy.

Lemma lang_Void_inv s : lang Void s -> False.
Proof. inversion 1. Qed.

Lemma lang_Eps_inv s : lang Eps s -> s = [].
Proof. by inversion 1. Qed.

Lemma lang_Chr_inv p s : lang (Chr p) s -> exists c, s = [c] /\ p c = true.
Proof. inversion 1; subst; eauto. Qed.

Lemma lang_Seq_inv r1 r2 s :
  lang (Seq r1 r2) s -> exists u v, s = u ++ v /\ lang r1 u /\ lang r2 v.
Proof. inversion 1; subst; eauto. Qed.

Lemma lang_Alt_inv r1 r2 s : lang (Alt r1 r2) s -> lang r1 s \/ lang r2 s.
Proof. inversion 1; subst; auto. Qed.

(** A non-empty word of a repetition starts with a non-empty word of its
    body. *)
Lemma lang_Star_cons_inv r c s :
  lang (Star r) (c :: s) ->
  exists u v, s = u ++ v /\ lang r (c :: u) /\ lang (Star r) v.
Proof.
  intros Hl. remember (Star r) as q eqn:Hq. remember (c :: s) as w eqn:Hw.
  revert s Hw. induction Hl; intros s' Hw; try discriminate.
  injection Hq as ->. destruct u as [|x u'].
  - simpl in Hw. apply IHHl2; auto.
  - simpl in Hw. injection Hw as -> <-. eauto.
Qed.

Lemma nullable_lang r : nullable r = true <-> lang r [].
Proof.
  induction r as [| |p|r1 IH1 r2 IH2|r1 IH1 r2 IH2|r IH]; simpl.
  - split; [discriminate | intros Hl; destruct (lang_Void_inv _ Hl)].
  - split; [constructor | reflexivity].
  - split; [discriminate|].
    intros Hl. destruct (lang_Chr_inv _ _ Hl) as (c & Hc & _). discriminate.
  - rewrite andb_true_iff, IH1, IH2. split.
    + intros [H1 H2]. change (@nil N) with (@nil N ++ []). by constructor.
    + intros Hl. destruct (lang_Seq_inv _ _ _ Hl) as (u & v & Huv & Hu & Hv).
      symmetry in Huv. apply app_eq_nil in Huv as [-> ->]. auto.
  - rewrite orb_true_iff, IH1, IH2. split.
    + intros [H1|H2]; [by apply lang_alt_l | by apply lang_alt_r].
    + apply lang_Alt_inv.
  - split; [constructor | reflexivity].
Qed.

Lemma seq'_lang r1 r2 s : lang (seq' r1 r2) s <-> lang (Seq r1 r2) s.
Proof.
  split.
  - destruct r1, r2; simpl; intros Hl;
      try (destruct (lang_Void_inv _ Hl)); try exact Hl;
      (apply (lang_seq Eps _ [] s); [constructor | exact Hl]).
  - intros Hl. destruct (lang_Seq_inv _ _ _ Hl) as (u & v & -> & Hu & Hv).
    destruct r1, r2; simpl;
      try (destruct (lang_Void_inv _ Hu)); try (destruct (lang_Void_inv _ Hv));
      try (apply lang_Eps_inv in Hu as ->; exact Hv);
      by constructor.
Qed.

Lemma alt'_lang r1 r2 s : lang (alt' r1 r2) s <-> lang (Alt r1 r2) s.
Proof.
  split.
  - destruct r1, r2; simpl; intros Hl;
      try exact Hl; try (by apply lang_alt_r); try (by apply lang_alt_l).
  - intros Hl. apply lang_Alt_inv in Hl as [Hl|Hl];
      destruct r1, r2; simpl;
      try (destruct (lang_Void_inv _ Hl)); try exact Hl;
      try (by apply lang_alt_l); try (by apply lang_alt_r).
Qed.

Lemma deriv_lang c r : forall s, lang (deriv c r) s <-> lang r (c :: s).
Proof.
  induction r as [| |p|r1 IH1 r2 IH2|r1 IH1 r2 IH2|r IH]; intros s; simpl.
  - split; intros Hl; destruct (lang_Void_inv _ Hl).
  - split; intros Hl; [destruct (lang_Void_inv _ Hl)|].
    apply lang_Eps_inv in Hl. discriminate.
  - destruct (p c) eqn:Hp; split; intros Hl.
    + apply lang_Eps_inv in Hl as ->. by constructor.
    + destruct (lang_Chr_inv _ _ Hl) as (c' & Hc & _).
      injection Hc as -> ->. constructor.
    + destruct (lang_Void_inv _ Hl).
    + destruct (lang_Chr_inv _ _ Hl) as (c' & Hc & Hp').
      injection Hc as -> ->. congruence.
  - assert (Hseq : lang (seq' (deriv c r1) r2) s <->
                   exists u v, s = u ++ v /\ lang r1 (c :: u) /\ lang r2 v).
    { rewrite seq'_lang. split.
      - intros Hl. destruct (lang_Seq_inv _ _ _ Hl) as (u & v & -> & Hu & Hv).
        exists u, v. by rewrite <- IH1.
      - intros (u & v & -> & Hu & Hv). constructor; [by apply IH1 | done]. }
    destruct (nullable r1) eqn:Hn.
    + rewrite alt'_lang. split.
      * intros Hl. apply lang_Alt_inv in Hl as [Hl|Hl].
        -- apply Hseq in Hl as (u & v & -> & Hu & Hv).
           change (c :: u ++ v) with ((c :: u) ++ v). by constructor.
        -- change (c :: s) with ([] ++ c :: s). constructor.
           ++ by apply nullable_lang.
           ++ by apply IH2.
      * intros Hl. destruct (lang_Seq_inv _ _ _ Hl) as (u & v & Huv & Hu & Hv).
        destruct u as [|x u'].
        -- simpl in Huv. subst v. apply lang_alt_r. by apply IH2.
        -- simpl in Huv. injection Huv as <- ->. apply lang_alt_l.
           apply Hseq. eauto.
    + rewrite Hseq. split.
      * intros (u & v & -> & Hu & Hv).
        change (c :: u ++ v) with ((c :: u) ++ v). by constructor.
      * intros Hl. destruct (lang_Seq_inv _ _ _ Hl) as (u & v & Huv & Hu & Hv).
        destruct u as [|x u'].
        -- apply nullable_lang in Hu. congruence.
        -- simpl in Huv. injection Huv as <- ->. eauto.
  - rewrite alt'_lang. split.
    + intros Hl. apply lang_Alt_inv in Hl as [Hl|Hl];
        [apply lang_alt_l; by apply IH1 | apply lang_alt_r; by apply IH2].
    + intros Hl. apply lang_Alt_inv in Hl as [Hl|Hl];
        [apply lang_alt_l; by apply IH1 | apply lang_alt_r; by apply IH2].
  - rewrite seq'_lang. split.
    + intros Hl. destruct (lang_Seq_inv _ _ _ Hl) as (u & v & -> & Hu & Hv).
      change (c :: u ++ v) with ((c :: u) ++ v). constructor; [by apply IH | done].
    + intros Hl. apply lang_Star_cons_inv in Hl as (u & v & -> & Hu & Hv).
      constructor; [by apply IH | done].
Qed.

(** Adequacy of the matcher. *)
Lemma matches_lang r s : matches r s = true <-> lang r s.
Proof.
  revert r. induction s as [|c s IH]; intros r; simpl.
  - apply nullable_lang.
  - rewrite IH. apply deriv_lang.
Qed.

Lemma lang_star_any s : lang (Star any) s.
Proof.
  induction s as [|c s IH]; [constructor|].
  change (c :: s) with ([c] ++ s). constructor; [by constructor | done].
Qed.

(** [/^r/.test(s)] holds exactly when a prefix of [s] is in the language. *)
Lemma test_prefix_spec r s :
  test_prefix r s = true <-> exists u v, s = u ++ v /\ lang r u.
Proof.
  unfold test_prefix. rewrite matches_lang. split.
  - intros Hl. destruct (lang_Seq_inv _ _ _ Hl) as (u & v & -> & Hu & _). eauto.
  - intros (u & v & -> & Hu). constructor; [done | apply lang_star_any].
Qed.

(** A character class repeated: every code unit is of the class. *)
Lemma matches_star_class p s : matches (Star (Chr p)) s = forallb p s.
Proof.
  induction s as [|c s IH]; [reflexivity|].
  simpl. destruct (p c); simpl; [exact IH|].
  clear IH. induction s as [|c' s IH]; [reflexivity | exact IH].
Qed.

Lemma test_whole_plus_class p s :
  test_whole (plus (Chr p)) s = negb (Nat.eqb (List.length s) 0) && forallb p s.
Proof.
  unfold test_whole, plus. destruct s as [|c s]; [reflexivity|].
  simpl. destruct (p c); simpl; [apply matches_star_class|].
  induction s as [|c' s IH]; [reflexivity | exact IH].
Qed.

End RegexAdequacy.

(** ** Strings *)

Lemma jsstring_eqb_eq a b : jsstring_eqb a b = true <-> a = b.
Proof. unfold jsstring_eqb. apply bool_decide_eq_true. Qed.

Lemma jsstring_eqb_refl a : jsstring_eqb a a = true.
Proof. by apply jsstring_eqb_eq. Qed.

(** ** [isBlockedIP] and [validateCronExpression] *)

Section Screening.

(** C4 (the code at inputs inside the ranges the claim lists): the patterns
    [/^224\./], [/^240\./], [/^fe80:/] and [/^fc00:/] match one leading group
    each, so addresses of 224.0.0.0/4, 240.0.0.0/4, fe80::/10 and fc00::/7
    beyond that group pass [isBlockedIP], as do their IPv4-mapped forms. *)
Theorem isBlockedIP_misses_parts_of_ranges :
  spec_blocked_ipv4 225 0 0 1 = true
  /\ isBlockedIP (dotted 225 0 0 1) = false
  /\ isBlockedIP (js "::ffff:" ++ dotted 225 0 0 1) = false
  /\ spec_blocked_ipv4 239 255 255 250 = true
  /\ isBlockedIP (dotted 239 255 255 250) = false
  /\ spec_blocked_ipv4 241 0 0 1 = true
  /\ isBlockedIP (dotted 241 0 0 1) = false
  /\ group_in_prefix 0xfe90 0xfe80 10 = true
  /\ isBlockedIP (js "fe90::1") = false
  /\ group_in_prefix 0xfc01 0xfc00 7 = true
  /\ isBlockedIP (js "fc01::1") = false.
Proof. repeat split; vm_compute; reflexivity. Qed.

(** The class of [allowedCharsRegex] is the whitelist of the specification
    widened to all of [\s]. *)
Lemma cron_char_spec c :
  cron_char c = spec_cron_whitelist c || is_space c.
Proof.
  unfold cron_char, spec_cron_whitelist.
  destruct (is_digit c); [reflexivity|].
  destruct (N.eqb_spec c 32) as [->|_]; [reflexivity|].
  destruct (N.eqb_spec c 9) as [->|_]; [reflexivity|].
  cbn [orb]. apply orb_comm.
Qed.

(** C5 (counterexample): a line feed is outside the whitelist as the claim
    prints it, and the expression that holds one is accepted. *)
Lemma validateCronExpression_accepts_line_feed :
  In 10%N cron_with_line_feed
  /\ spec_cron_whitelist 10 = false
  /\ validateCronExpression cron_with_line_feed = accept.
Proof. split; [|split]; vm_compute; auto. Qed.

(** C5 (amended): an expression that holds a code unit outside the class
    [[0-9\s,\-*/LW#?]] of the code, where [\s] is every white space and line
    terminator, is rejected for its invalid characters. *)
Theorem validateCronExpression_rejects_foreign_char (s : jsstring) (c : N) :
  In c s -> cron_char c = false ->
  validateCronExpression s = reject invalid_characters.
Proof.
  intros Hin Hc. unfold validateCronExpression.
  destruct s as [|x s']; [destruct Hin|]. simpl truthy. cbn [negb].
  unfold allowedCharsRegex. rewrite test_whole_plus_class.
  assert (Hall : forallb cron_char (x :: s') = false).
  { apply not_true_is_false. intros Hall.
    rewrite forallb_forall in Hall. specialize (Hall c Hin). congruence. }
  by rewrite Hall, andb_false_r.
Qed.

Lemma validateCronExpression_rejects_foreign_char_witness :
  validateCronExpression (js "0 9 * * *; curl evil.com") = reject invalid_characters.
Proof.
  apply (validateCronExpression_rejects_foreign_char _ (ch ";")).
  - vm_compute. auto 20.
  - vm_compute. reflexivity.
Defined.

End Screening.

(** ** What [validateCronExpression] accepts *)

Section CronAcceptance.

Lemma split_char_length c s : length (split_char c s) <= S (length s).
Proof.
  induction s as [|x s IH]; simpl; [lia|].
  destruct (N.eqb x c); simpl; [lia|].
  destruct (split_char c s); simpl in *; lia.
Qed.

(** The expressions that [validateCronExpression] accepts are exactly the
    non-empty texts over the class [[0-9\s,\-*/LW#?]] that, trimmed and split
    at white space, have five parts of at most 20 code units each, the first
    of them neither [*] nor [*/1]. The check on the number of minute values
    never decides: the error "Too many minute values specified" is returned
    for no input. *)
Theorem validateCronExpression_accepts_iff (expression : jsstring) :
  let parts := split_spaces (trim expression) in
  (valid (validateCronExpression expression) = true
   <-> expression <> []
       /\ forallb cron_char expression = true
       /\ length parts = 5
       /\ Forall (fun part => length part <= 20) parts
       /\ List.hd [] parts <> js "*"
       /\ List.hd [] parts <> js "*/1")
  /\ Security.error (validateCronExpression expression)
     <> Some (js "Too many minute values specified").
Proof.
  cbv zeta. unfold validateCronExpression.
  destruct expression as [|c rest].
  { split; [|by vm_compute]. split; [discriminate | by intros [? _]]. }
  cbn [truthy negb]. unfold allowedCharsRegex. rewrite test_whole_plus_class.
  cbn [length Nat.eqb negb andb].
  set (expression := c :: rest).
  destruct (forallb cron_char expression) eqn:Hclass; cbn [negb].
  2:{ split; [|by vm_compute]. split; [discriminate | by intros (_ & ? & _)]. }
  set (parts := split_spaces (trim expression)).
  destruct (Nat.eqb_spec (length parts) 5) as [Hfive|Hfive]; cbn [negb].
  2:{ split; [|by vm_compute]. split; [discriminate | by intros (_ & _ & ? & _)]. }
  destruct (existsb (fun part => Nat.ltb 20 (length part)) parts) eqn:Hlong.
  { split; [|by vm_compute]. split; [discriminate|].
    intros (_ & _ & _ & Hshort & _).
    apply existsb_exists in Hlong as (part & Hin & Hlt).
    apply Nat.ltb_lt in Hlt.
    pose proof (proj1 (Forall_forall _ _) Hshort part Hin). simpl in *. lia. }
  assert (Hshort : Forall (fun part => length part <= 20) parts).
  { apply Forall_forall. intros part Hin.
    destruct (le_lt_dec (length part) 20) as [|Hlt]; [done|].
    assert (Hex : existsb (fun part => Nat.ltb 20 (length part)) parts = true).
    { apply existsb_exists. exists part. split; [done|]. by apply Nat.ltb_lt. }
    congruence. }
  destruct (jsstring_eqb (hd [] parts) (js "*")) eqn:Hstar; cbn [orb].
  { split; [|by vm_compute]. split; [discriminate|].
    intros (_ & _ & _ & _ & Hne & _). by apply jsstring_eqb_eq in Hstar. }
  destruct (jsstring_eqb (hd [] parts) (js "*/1")) eqn:Hstar1.
  { split; [|by vm_compute]. split; [discriminate|].
    intros (_ & _ & _ & _ & _ & Hne). by apply jsstring_eqb_eq in Hstar1. }
  assert (Hfew : Nat.ltb 30 (length (split_char (ch ",") (hd [] parts))) = false).
  { apply Nat.ltb_ge.
    pose proof (split_char_length (ch ",") (hd [] parts)) as Hlen.
    assert (length (hd [] parts) <= 20).
    { destruct parts as [|minute more]; [simpl; lia|].
      by apply Forall_inv in Hshort. }
    lia. }
  rewrite Hfew, andb_false_r.
  split; [|discriminate]. split; [|done]. intros _.
  repeat split; try done.
  - intros Heq. rewrite Heq in Hstar. by vm_compute in Hstar.
  - intros Heq. rewrite Heq in Hstar1. by vm_compute in Hstar1.
Qed.

(** Schedules of every minute that pass: the check names only [*] and
    [*/1]. *)
Example validateCronExpression_every_minute :
  List.map (fun s => valid (validateCronExpression (js s)))
           [ "* * * * *"; "*/1 * * * *"; "0-59 * * * *"; "*/01 * * * *"; "0/1 * * * *" ]%string
  = [false; false; true; true; true].
Proof. vm_compute. reflexivity. Qed.

End CronAcceptance.

(** ** What [isBlockedIP] does cover *)

Section Coverage.
Local Open Scope N_scope.

Lemma lang_lit p : lang (lit p) p.
Proof.
  induction p as [|c p IH]; [constructor|].
  simpl. change (c :: p) with ([c] ++ p). constructor; [|exact IH].
  constructor. apply N.eqb_refl.
Qed.

Lemma lang_lit_i p : lang (lit_i p) p.
Proof.
  induction p as [|c p IH]; [constructor|].
  simpl. change (c :: p) with ([c] ++ p). constructor; [|exact IH].
  constructor. unfold eq_nocase. by rewrite N.eqb_refl.
Qed.

(** A pattern without [$] that matches a text matches every extension of
    it. *)
Lemma test_prefix_app r u v : matches r u = true -> test_prefix r (u ++ v) = true.
Proof.
  intros Hm. apply test_prefix_spec. exists u, v. split; [done|].
  by apply matches_lang.
Qed.

Lemma digit_char_is_digit m : m < 10 -> is_digit (digit_char m) = true.
Proof.
  intros Hm. unfold is_digit, digit_char.
  apply andb_true_iff. split; apply N.leb_le; lia.
Qed.

Lemma decimal_fuel_digits fuel : forall n acc,
  forallb is_digit acc = true -> forallb is_digit (decimal_fuel fuel n acc) = true.
Proof.
  induction fuel as [|fuel IH]; intros n acc Hacc; [exact Hacc|].
  assert (Hstep : forallb is_digit (digit_char (n mod 10) :: acc) = true).
  { simpl. rewrite Hacc, digit_char_is_digit; [done|]. apply N.mod_lt. lia. }
  simpl. destruct (n <? 10); [exact Hstep | by apply IH].
Qed.

Lemma decimal_fuel_nonempty fuel : forall n acc,
  acc <> [] -> decimal_fuel fuel n acc <> [].
Proof.
  induction fuel as [|fuel IH]; intros n acc Hacc; [exact Hacc|].
  simpl. destruct (n <? 10); [discriminate | by apply IH].
Qed.

(** The decimal text of a number is a non-empty run of digits. *)
Lemma decimal_digits n : lang (plus digit) (decimal n).
Proof.
  apply matches_lang. change (matches (plus digit) (decimal n))
    with (test_whole (plus (Chr is_digit)) (decimal n)).
  rewrite test_whole_plus_class. apply andb_true_iff. split.
  - unfold decimal. simpl.
    destruct (n <? 10); [reflexivity|].
    destruct (decimal_fuel _ _ _) eqn:Hd; [|reflexivity].
    by apply decimal_fuel_nonempty in Hd.
  - unfold decimal. by apply decimal_fuel_digits.
Qed.

Lemma dotted_is_dotted_quad a b c d : lang dotted_quad (dotted a b c d).
Proof.
  unfold dotted_quad, dotted, seqs.
  assert (Hdot : lang (chr (ch ".")) (js ".")) by (by constructor).
  repeat (apply lang_seq; [apply decimal_digits|]; apply lang_seq; [exact Hdot|]).
  rewrite <- (app_nil_r (decimal d)). apply lang_seq; [apply decimal_digits | constructor].
Qed.

(** The mapped form of a dotted quad is unwrapped to the quad. *)
Lemma ipv4MappedMatch_dotted a b c d :
  ipv4MappedMatch (js "::ffff:" ++ dotted a b c d) = Some (dotted a b c d).
Proof.
  unfold ipv4MappedMatch.
  replace (test_whole _ _) with true; [reflexivity|].
  symmetry. apply matches_lang. apply lang_seq; [apply lang_lit_i | apply dotted_is_dotted_quad].
Qed.

Lemma isBlockedIP_of_ipv4_pattern ip :
  existsb (fun p => pattern_test p ip) BLOCKED_IPV4_PATTERNS = true ->
  isBlockedIP ip = true.
Proof.
  intros Hv4. unfold isBlockedIP. rewrite Hv4. by destruct (negb (truthy ip)).
Qed.

Lemma isBlockedIP_of_mapped a b c d :
  existsb (fun p => pattern_test p (dotted a b c d)) BLOCKED_IPV4_PATTERNS = true ->
  isBlockedIP (js "::ffff:" ++ dotted a b c d) = true.
Proof.
  intros Hv4. unfold isBlockedIP. rewrite ipv4MappedMatch_dotted, Hv4.
  destruct (negb (truthy _)); [reflexivity|].
  destruct (existsb (fun p => pattern_test p (js "::ffff:" ++ dotted a b c d))
                    BLOCKED_IPV4_PATTERNS); [reflexivity|].
  destruct (existsb (fun p => pattern_test p (js "::ffff:" ++ dotted a b c d))
                    BLOCKED_IPV6_PATTERNS); reflexivity.
Qed.

(** The second octets of 172.16.0.0/12 and of 100.64.0.0/10. *)
Lemma octet_16_31_matches b :
  16 <= b <= 31 ->
  matches (seqs [lit (js "172."); octet_16_31; chr (ch ".")])
          (js "172." ++ decimal b ++ js ".") = true.
Proof.
  intros Hb.
  assert (Hall : forallb (fun k =>
            matches (seqs [lit (js "172."); octet_16_31; chr (ch ".")])
                    (js "172." ++ decimal (N.of_nat k) ++ js ".")) (seq 16 16) = true)
    by (vm_compute; reflexivity).
  rewrite forallb_forall in Hall. specialize (Hall (N.to_nat b)).
  rewrite N2Nat.id in Hall. apply Hall, in_seq. lia.
Qed.

Lemma octet_cgnat_matches b :
  64 <= b <= 127 ->
  matches (seqs [lit (js "100."); octet_cgnat; chr (ch ".")])
          (js "100." ++ decimal b ++ js ".") = true.
Proof.
  intros Hb.
  assert (Hall : forallb (fun k =>
            matches (seqs [lit (js "100."); octet_cgnat; chr (ch ".")])
                    (js "100." ++ decimal (N.of_nat k) ++ js ".")) (seq 64 64) = true)
    by (vm_compute; reflexivity).
  rewrite forallb_forall in Hall. specialize (Hall (N.to_nat b)).
  rewrite N2Nat.id in Hall. apply Hall, in_seq. lia.
Qed.

(** One pattern of the list matching is enough. *)
Lemma ipv4_pattern_hit (p : pattern) ip :
  In p BLOCKED_IPV4_PATTERNS -> pattern_test p ip = true ->
  existsb (fun p => pattern_test p ip) BLOCKED_IPV4_PATTERNS = true.
Proof. intros Hin Hp. apply existsb_exists. eauto. Qed.

Ltac hit_literal prefix :=
  apply (ipv4_pattern_hit (starts (lit prefix))); [simpl; auto 20|];
  apply (test_prefix_app (lit prefix) prefix); vm_compute; reflexivity.

Lemma covered_ipv4_pattern a b c d :
  covered_ipv4 a b c d = true ->
  existsb (fun p => pattern_test p (dotted a b c d)) BLOCKED_IPV4_PATTERNS = true.
Proof.
  unfold covered_ipv4. rewrite !orb_true_iff, !andb_true_iff, !N.eqb_eq, !N.leb_le.
  intros Hcase.
  repeat match goal with
         | Hc : _ \/ _ |- _ => destruct Hc as [Hc|Hc]
         | Hc : _ /\ _ |- _ => destruct Hc
         end; subst.
  - hit_literal (js "127.").
  - hit_literal (js "10.").
  - apply (ipv4_pattern_hit
             (starts (seqs [lit (js "172."); octet_16_31; chr (ch ".")])));
      [simpl; auto 20|].
    unfold dotted.
    replace (decimal 172 ++ js "." ++ decimal b ++ js "." ++ decimal c ++ js "." ++ decimal d)
      with ((js "172." ++ decimal b ++ js ".") ++ decimal c ++ js "." ++ decimal d)
      by (rewrite <- !app_assoc; reflexivity).
    apply test_prefix_app, octet_16_31_matches. lia.
  - hit_literal (js "192.168.").
  - hit_literal (js "169.254.").
  - hit_literal (js "0.").
  - apply (ipv4_pattern_hit
             (starts (seqs [lit (js "100."); octet_cgnat; chr (ch ".")])));
      [simpl; auto 20|].
    unfold dotted.
    replace (decimal 100 ++ js "." ++ decimal b ++ js "." ++ decimal c ++ js "." ++ decimal d)
      with ((js "100." ++ decimal b ++ js ".") ++ decimal c ++ js "." ++ decimal d)
      by (rewrite <- !app_assoc; reflexivity).
    apply test_prefix_app, octet_cgnat_matches. lia.
  - hit_literal (js "192.0.0.").
  - hit_literal (js "192.0.2.").
  - hit_literal (js "198.51.100.").
  - hit_literal (js "203.0.113.").
  - hit_literal (js "224.").
  - hit_literal (js "240.").
  - apply (ipv4_pattern_hit (exactly (lit (js "255.255.255.255"))));
      [simpl; auto 20 | vm_compute; reflexivity].
Qed.

(** The closure that does hold: every dotted-decimal literal of the ranges
    that the patterns cover is blocked, and so is its IPv4-mapped form. *)
Theorem isBlockedIP_covers (a b c d : N) :
  covered_ipv4 a b c d = true ->
  isBlockedIP (dotted a b c d) = true
  /\ isBlockedIP (js "::ffff:" ++ dotted a b c d) = true.
Proof.
  intros Hcov. split.
  - by apply isBlockedIP_of_ipv4_pattern, covered_ipv4_pattern.
  - by apply isBlockedIP_of_mapped, covered_ipv4_pattern.
Qed.

Lemma isBlockedIP_covers_witness :
  isBlockedIP (dotted 169 254 169 254) = true
  /\ isBlockedIP (js "::ffff:" ++ dotted 169 254 169 254) = true.
Proof. apply (isBlockedIP_covers 169 254 169 254). reflexivity. Defined.

(** The two tables differ exactly on 225-239.x.x.x and on 241-255.x.x.x short
    of the broadcast address. *)
Lemma covered_ipv4_spec a b c d :
  covered_ipv4 a b c d = true ->
  spec_blocked_ipv4 a b c d = true.
Proof.
  unfold covered_ipv4, spec_blocked_ipv4.
  rewrite !orb_true_iff, !andb_true_iff, !N.eqb_eq, !N.leb_le. intros Hcase.
  repeat match goal with
         | Hc : _ \/ _ |- _ => destruct Hc as [Hc|Hc]
         | Hc : _ /\ _ |- _ => destruct Hc
         end; subst; try lia; auto 20.
Qed.

End Coverage.

(** ** [validateWebhookUrl] *)

Section WebhookUrl.
Context `{Platform}.

(** The addresses that come with an accepted URL: at least one, none of
    them blocked. *)
Lemma validateWebhookUrl_accepted_ips (cfg : Config) (dns : Resolver)
    (urlString : jsstring) :
  url_valid (validateWebhookUrl cfg dns urlString) = true ->
  resolvedIps (validateWebhookUrl cfg dns urlString) <> []
  /\ forall ip, In ip (resolvedIps (validateWebhookUrl cfg dns urlString)) ->
                isBlockedIP ip = false.
Proof.
  unfold validateWebhookUrl.
  destruct (URL_parse urlString) as [url|msg]; [|discriminate].
  repeat (match goal with
          | |- context [if ?b then url_reject _ else _] => destruct b; [discriminate|]
          end).
  cbv zeta.
  destruct (find isBlockedIP _) as [ip|] eqn:Hfind; [discriminate|].
  intros _. cbn [resolvedIps]. split; [|intros ip; apply (find_none _ _ Hfind)].
  destruct (Nat.eqb_spec (length (resolve4 dns (toLowerCase (hostname url))
                                  ++ resolve6 dns (toLowerCase (hostname url)))) 0)
    as [Hlen|Hlen]; [done|].
  intros Hnil. by rewrite Hnil in Hlen.
Qed.

(** What a URL that [validateWebhookUrl] accepts has passed: it parsed, its
    scheme is https (or http outside production), its host is on no blocked
    name, and the addresses returned for pinning are at least one, none of
    them blocked by [isBlockedIP]. *)
Theorem validateWebhookUrl_accepted (cfg : Config) (dns : Resolver) (urlString : jsstring) :
  url_valid (validateWebhookUrl cfg dns urlString) = true ->
  exists url,
    URL_parse urlString = Return url
    /\ (protocol url = js "https:"
        \/ (production dns = false /\ protocol url = js "http:"))
    /\ existsb (hostname_matches (toLowerCase (hostname url))) BLOCKED_HOSTNAMES = false
    /\ resolvedIps (validateWebhookUrl cfg dns urlString) <> []
    /\ forall ip, In ip (resolvedIps (validateWebhookUrl cfg dns urlString)) ->
                  isBlockedIP ip = false.
Proof.
  unfold validateWebhookUrl.
  destruct (URL_parse urlString) as [url|msg]; [|discriminate].
  destruct (jsstring_eqb (protocol url) (js "https:")) eqn:Hhttps;
    destruct (jsstring_eqb (protocol url) (js "http:")) eqn:Hhttp;
    cbn [negb andb]; try discriminate;
    rewrite ?andb_false_r; cbv beta iota.
  all: try (destruct (production dns) eqn:Hprod; cbn [negb andb]; try discriminate).
  all: destruct (existsb (hostname_matches _) BLOCKED_HOSTNAMES) eqn:Hname;
    [discriminate|].
  all: destruct (startsWith _ _ && endsWith _ _ && isBlockedIP _); [discriminate|].
  all: destruct (negb (length (allowedWebhookDomains cfg) =? 0)%nat && _);
    [discriminate|].
  all: cbv zeta.
  all: destruct ((length _ =? 0)%nat && negb _); [discriminate|].
  all: destruct (find isBlockedIP _) as [ip|] eqn:Hfind; [discriminate|].
  all: intros _; exists url; split; [reflexivity|].
  all: split; [first [left; by apply jsstring_eqb_eq
                     | right; split; [done | by apply jsstring_eqb_eq]]|].
  all: split; [exact Hname|].
  all: cbn [resolvedIps].
  all: split; [| intros ip; apply (find_none _ _ Hfind)].
  all: destruct (Nat.eqb_spec (length (resolve4 dns (toLowerCase (hostname url))
                                      ++ resolve6 dns (toLowerCase (hostname url)))) 0)
         as [Hlen|Hlen]; [done|].
  all: intros Hnil; by rewrite Hnil in Hlen.
Qed.

End WebhookUrl.

Section WebhookUrlExamples.
Import Reference.
Local Existing Instance node.

Lemma validateWebhookUrl_accepted_witness :
  let outcome := validateWebhookUrl default_config (dns (refusing 0))
                   (js "https://example.com/webhook") in
  exists url,
    URL_parse (js "https://example.com/webhook") = Return url
    /\ (protocol url = js "https:"
        \/ (production (dns (refusing 0)) = false /\ protocol url = js "http:"))
    /\ existsb (hostname_matches (toLowerCase (hostname url))) BLOCKED_HOSTNAMES = false
    /\ resolvedIps outcome <> []
    /\ forall ip, In ip (resolvedIps outcome) -> isBlockedIP ip = false.
Proof.
  intros outcome.
  apply (validateWebhookUrl_accepted default_config (dns (refusing 0))
           (js "https://example.com/webhook")).
  vm_compute. reflexivity.
Defined.

(** DNS rebinding: a name that resolves to one public and one loopback
    address is refused. *)
Example validateWebhookUrl_refuses_mixed_resolution :
  let rebinding := {| resolve4 := fun _ => [js "93.184.216.34"; js "127.0.0.1"];
                      resolve6 := fun _ => [];
                      production := false |} in
  validateWebhookUrl default_config rebinding (js "https://example.com/webhook")
  = url_reject (js "IP 127.0.0.1 is in a blocked range (SSRF protection)").
Proof. vm_compute. reflexivity. Qed.

End WebhookUrlExamples.

(** ** [generateHmacSignature] and [verifyHmacSignature] *)

Section Signatures.
Local Open Scope N_scope.

Lemma unhex_hex_digit d : d < 16 -> unhex (hex_digit d) = Some d.
Proof.
  intros Hd. unfold hex_digit, unhex, is_digit, in_range.
  destruct (N.ltb_spec d 10).
  - replace ((48 <=? 48 + d) && (48 + d <=? 57)) with true
      by (symmetry; apply andb_true_iff; split; apply N.leb_le; lia).
    f_equal. lia.
  - replace ((48 <=? 87 + d) && (87 + d <=? 57)) with false
      by (symmetry; apply andb_false_iff; right; apply N.leb_gt; lia).
    replace ((97 <=? 87 + d) && (87 + d <=? 102)) with true
      by (symmetry; apply andb_true_iff; split; apply N.leb_le; lia).
    f_equal. lia.
Qed.

(** [Buffer.from(bytes.toString('hex'), 'hex')] gives the bytes back. *)
Lemma hex_decode_encode bs :
  Forall (fun b => b < 256) bs -> hex_decode (hex_encode bs) = bs.
Proof.
  induction 1 as [|b bs Hb _ IH]; [reflexivity|].
  unfold hex_encode in *. cbn [flat_map app hex_decode].
  rewrite !unhex_hex_digit.
  - rewrite IH. f_equal. pose proof (N.div_mod b 16). lia.
  - apply N.mod_lt. lia.
  - apply N.Div0.div_lt_upper_bound. lia.
Qed.

Lemma be_bytes_bound n x : Forall (fun b => b < 256) (be_bytes n x).
Proof.
  induction n as [|n IH]; simpl; constructor; [|exact IH].
  apply N.mod_lt. lia.
Qed.

Lemma sha256_bytes msg : Forall (fun b => b < 256) (sha256 msg).
Proof.
  unfold sha256. apply Forall_flat_map, Forall_forall.
  intros w _. apply be_bytes_bound.
Qed.

Lemma hmac_sha256_bytes key msg : Forall (fun b => b < 256) (hmac_sha256 key msg).
Proof. unfold hmac_sha256. apply sha256_bytes. Qed.

(** What [timingSafeEqual] gathers and how many pairs it reads. *)
Lemma timingSafeEqual_gather : forall (a b : list N) (acc : N) (n : nat),
  List.length a = List.length b ->
  let gathered :=
    fold_left (fun st p => (N.lor (fst st) (N.lxor (fst p) (snd p)), S (snd st)))
              (combine a b) (acc, n) in
  (fst gathered = 0 <-> acc = 0 /\ a = b)
  /\ snd gathered = (n + List.length a)%nat.
Proof.
  induction a as [|x a IH]; intros [|y b] acc n Hlen; try discriminate Hlen.
  - cbn. split; [|lia]. split; [by intros -> | by intros [-> _]].
  - injection Hlen as Hlen. cbn [combine fold_left fst snd].
    destruct (IH b (N.lor acc (N.lxor x y)) (S n) Hlen) as [Hzero Hreads].
    cbv zeta in *. split.
    + rewrite Hzero, N.lor_eq_0_iff. split.
      * intros [[-> Hxor] ->]. apply N.lxor_eq in Hxor. by subst.
      * intros [-> [= -> ->]]. by rewrite N.lxor_nilpotent.
    + rewrite Hreads. cbn [List.length]. lia.
Qed.

Lemma timingSafeEqual_spec (a b : list N) :
  timingSafeEqual a b
  = if Nat.eqb (List.length a) (List.length b) then Some (bool_decide (a = b)) else None.
Proof.
  unfold timingSafeEqual, timingSafeEqual_run.
  destruct (Nat.eqb_spec (List.length a) (List.length b)) as [Hlen|Hlen]; [|reflexivity].
  cbn [fst]. f_equal.
  destruct (timingSafeEqual_gather a b 0 0%nat Hlen) as [Hzero _]. cbv zeta in Hzero.
  destruct (N.eqb_spec (fst (fold_left
    (fun st p => (N.lor (fst st) (N.lxor (fst p) (snd p)), S (snd st)))
    (combine a b) (0, 0%nat))) 0) as [Heq|Hne]; symmetry.
  - apply bool_decide_eq_true. by apply Hzero.
  - apply bool_decide_eq_false. intros ->. apply Hne, Hzero. done.
Qed.


(** [timingSafeEqual] inside the [try] of [verifyHmacSignature]: the
    verdict is the equality of the two buffers, a difference of lengths
    included. *)
Lemma timingSafeEqual_verdict (a b : list N) (msg : jsstring) :
  valid (match timingSafeEqual a b with
         | Some isValid => Validation isValid None
         | None => reject msg
         end) = bool_decide (a = b).
Proof.
  rewrite timingSafeEqual_spec.
  destruct (Nat.eqb_spec (List.length a) (List.length b)) as [Hlen|Hlen]; simpl.
  - reflexivity.
  - symmetry. apply bool_decide_eq_false. congruence.
Qed.

End Signatures.

Section SignaturesOnAnyPlatform.
Context `{Platform}.
Local Open Scope Z_scope.

(** The verdict once the timestamp has passed (or there is none): the
    signature decodes to the HMAC of the signed content. *)
Lemma verify_fresh_verdict cfg payload signature timestamp :
  valid (match timingSafeEqual
                 (hex_decode (generateHmacSignature cfg payload timestamp))
                 (hex_decode signature) with
         | Some isValid => Validation isValid None
         | None => reject (js "Signature verification failed")
         end)
  = bool_decide (hex_decode signature
                 = hmac_sha256 (utf8 (hmacSecret cfg))
                               (utf8 (signedContent payload timestamp))).
Proof.
  rewrite timingSafeEqual_verdict. unfold generateHmacSignature.
  rewrite hex_decode_encode by apply hmac_sha256_bytes.
  apply bool_decide_ext. split; congruence.
Qed.


End SignaturesOnAnyPlatform.

Section SignatureExamples.
Import Reference.
Local Existing Instance node.
Local Open Scope Z_scope.

(** The HMAC is the one of RFC 4231 (test case 2). *)
Example hmac_sha256_rfc4231 :
  hex_encode (hmac_sha256 (js "Jefe") (js "what do ya want for nothing?"))
  = js "5bdcc146bf60754e6a042426089575c75a003f089d2739839dec58b964ec3843".
Proof. vm_compute. reflexivity. Qed.


(** A signature with another last byte has the length of the HMAC and is
    refused; one cut short by a pair that is no hexadecimal digit (the
    tampered signature of the test suite) is refused for its length. *)
Example verifyHmacSignature_tampered :
  let timestamp := js "2025-12-17T10:00:00.000Z" in
  let signature := generateHmacSignature default_config (js "{}") timestamp in
  hex_text (removelast signature ++ js "0") = true
  /\ valid (verifyHmacSignature default_config 1765965600000 (js "{}")
              (removelast signature ++ js "0") timestamp default_maxAgeMs) = false
  /\ verifyHmacSignature default_config 1765965600000 (js "{}")
       (removelast (removelast signature) ++ js "xx") timestamp default_maxAgeMs
     = reject (js "Signature verification failed").
Proof. vm_compute. done. Qed.

(** The replay scenario: the same request ten minutes later is refused. *)
Example verifyHmacSignature_replay :
  verifyHmacSignature default_config (1765965600000 + 600000) (js "{}")
    (generateHmacSignature default_config (js "{}") (js "2025-12-17T10:00:00.000Z"))
    (js "2025-12-17T10:00:00.000Z") default_maxAgeMs
  = reject (js "Timestamp too old or too far in future").
Proof. vm_compute. reflexivity. Qed.

End SignatureExamples.

(** ** [sendWebhook] and [secureFetch] *)

Section Webhook.
Context `{Platform}.
Local Open Scope Z_scope.

(** A signature just generated verifies whenever the timestamp passes the
    freshness check (or is empty, when there is no such check). *)
Lemma generated_signature_verifies cfg clock payload timestamp maxAgeMs :
  timestamp = []
  \/ (exists t, Date_parse timestamp = Some t /\ Z.abs (clock - t) <= maxAgeMs) ->
  valid (verifyHmacSignature cfg clock payload
           (generateHmacSignature cfg payload timestamp) timestamp maxAgeMs) = true.
Proof.
  intros Hfresh. unfold verifyHmacSignature.
  assert (Hstale :
    (if truthy timestamp
     then match Date_parse timestamp with
          | Some timestampMs =>
              if Z.abs (clock - timestampMs) >? maxAgeMs
              then Some (js "Timestamp too old or too far in future")
              else None
          | None => Some (js "Invalid timestamp format")
          end
     else None) = None).
  { destruct Hfresh as [-> | (t & Hparse & Hage)]; [reflexivity|].
    rewrite Hparse. destruct (truthy timestamp); [|reflexivity].
    destruct (Z.gtb_spec (Z.abs (clock - t)) maxAgeMs); [lia | reflexivity]. }
  rewrite Hstale, verify_fresh_verdict. apply bool_decide_eq_true.
  unfold generateHmacSignature. apply hex_decode_encode, hmac_sha256_bytes.
Qed.

(** What [sendWebhook] sends. Its result depends on the peer only through
    the answer to requests of this kind: the body is the callback payload of
    the task; the configured URL has passed [validateWebhookUrl] at this very
    moment; the URL that is fetched is the configured one, or the configured
    one with the first occurrence of the parsed host name replaced by the
    first resolved address, which [isBlockedIP] does not block; the [Host]
    header is the parsed host name; and the signature header verifies, with
    [verifyHmacSignature], against the body and the timestamp header for as
    long as the timestamp is fresh. Two surroundings that answer such
    requests alike give the same result. *)
Theorem sendWebhook_requests (env1 env2 : Env) (task : Task.row)
    (callbackConfig : CallbackConfig) :
  config env1 = config env2 ->
  now env1 = now env2 ->
  dns env1 = dns env2 ->
  (forall (q : request) (target : jsstring) (parsedUrl : URL),
     url callbackConfig = Some target ->
     url_valid (validateWebhookUrl (config env1) (dns env1) target) = true ->
     URL_parse target = Return parsedUrl ->
     req_host q = hostname parsedUrl ->
     (req_url q = target
      \/ exists ip,
           List.hd_error (resolvedIps (validateWebhookUrl (config env1) (dns env1) target))
           = Some ip
           /\ isBlockedIP ip = false
           /\ req_url q
              = String_replace target (hostname parsedUrl)
                  (if isIPv6 ip then js "[" ++ ip ++ js "]" else ip)) ->
     req_body q = JSON_stringify (webhook_payload env1 task) ->
     req_task_id q = Task.id task ->
     req_timestamp q = toISOString (now env1) ->
     (forall clock,
        req_timestamp q = []
        \/ (exists t, Date_parse (req_timestamp q) = Some t
                      /\ Z.abs (clock - t) <= default_maxAgeMs) ->
        valid (verifyHmacSignature (config env1) clock (req_body q)
                 (req_signature q) (req_timestamp q) default_maxAgeMs) = true) ->
     fetch env1 q = fetch env2 q) ->
  sendWebhook env1 task callbackConfig = sendWebhook env2 task callbackConfig.
Proof.
  intros Hcfg Hnow Hdns Hfetch.
  unfold sendWebhook, secureFetch.
  assert (Hpayload : webhook_payload env2 task = webhook_payload env1 task)
    by (unfold webhook_payload; by rewrite Hnow).
  rewrite Hpayload, <- Hcfg, <- Hnow, <- Hdns.
  destruct (url callbackConfig) as [target|] eqn:Hurl; [|reflexivity].
  destruct (truthy_opt (Some target)); [|reflexivity].
  cbn [negb]. cbv zeta. cbn [default from_option id].
  destruct (url_valid (validateWebhookUrl (config env1) (dns env1) target))
    eqn:Hvalid; [|reflexivity].
  cbn [negb].
  destruct (URL_parse target) as [parsedUrl|msg] eqn:Hparse; [|reflexivity].
  rewrite (Hfetch _ target parsedUrl); [reflexivity|..];
    cbn [req_body req_task_id req_timestamp req_url req_host req_signature];
    try done.
  - destruct (validateWebhookUrl_accepted_ips _ _ _ Hvalid) as [_ Hclean].
    destruct (resolvedIps _) as [|first rest]; cbn [hd_error default from_option id];
      [by left|].
    destruct (truthy first && negb (isIPv4 (hostname parsedUrl))
              && negb (isIPv6 (hostname parsedUrl))); [|by left].
    right. exists first. split; [done|]. split; [|done]. apply Hclean. by left.
  - intros clock Hfresh. by apply generated_signature_verifies.
Qed.

(** What [sendWebhook] returns. It never raises. It reports success only
    when a URL is configured, the URL passes [validateWebhookUrl] and the
    peer answers with a status from 200 to 299; a redirect (300 to 399) is a
    failure; every failure carries an error text; and the body that is kept
    is at most 1000 code units long. *)
Theorem sendWebhook_result (env : Env) (task : Task.row)
    (callbackConfig : CallbackConfig) :
  let r := sendWebhook env task callbackConfig in
  (Dispatch.success r = true ->
     exists target code,
       url callbackConfig = Some target /\ target <> []
       /\ url_valid (validateWebhookUrl (config env) (dns env) target) = true
       /\ Dispatch.statusCode r = Some code /\ 200 <= code <= 299
       /\ Dispatch.error r = None)
  /\ (Dispatch.success r = false -> exists msg, Dispatch.error r = Some msg)
  /\ (forall text, Dispatch.body r = Some text -> (length text <= 1000)%nat)
  /\ (forall code, Dispatch.statusCode r = Some code -> 300 <= code <= 399 -> False).
Proof.
  cbv zeta. unfold sendWebhook, secureFetch.
  destruct (url callbackConfig) as [[|c target]|] eqn:Hurl;
    cbn [truthy_opt truthy negb];
    [by repeat split; try discriminate; eauto
    | | by repeat split; try discriminate; eauto].
  cbv zeta. cbn [default from_option id].
  destruct (url_valid _) eqn:Hvalid; cbn [negb];
    [|destruct (jsstring_eqb _ _); by repeat split; try discriminate; eauto].
  destruct (URL_parse _) as [parsedUrl|msg];
    [|destruct (jsstring_eqb _ _); by repeat split; try discriminate; eauto].
  destruct (fetch env _) as [resp|name msg];
    [|destruct (jsstring_eqb _ _); by repeat split; try discriminate; eauto].
  destruct (Z.leb_spec 300 (resp_status resp)) as [H300|H300];
    destruct (Z.ltb_spec (resp_status resp) 400) as [H400|H400]; cbn [andb];
    try (destruct (jsstring_eqb _ _); by repeat split; try discriminate; eauto).
  all: destruct (Z.leb_spec 200 (resp_status resp)) as [H200|H200];
    destruct (Z.leb_spec (resp_status resp) 299) as [H299|H299]; cbn [andb];
    cbn [Dispatch.success Dispatch.statusCode Dispatch.body Dispatch.error].
  all: repeat split; try discriminate; eauto.
  all: try (intros _; exists (c :: target), (resp_status resp);
            repeat split; try done; lia).
  all: try (intros text [= <-]; rewrite length_firstn; lia).
  all: try (intros code [= <-]; lia).
Qed.

End Webhook.

Section WebhookExamples.
Import Reference.
Local Existing Instance node.
Local Open Scope Z_scope.

Lemma sendWebhook_requests_witness :
  let env1 := refusing 1765965600000 in
  let env2 := {|
    config := config env1; now := now env1; elapsed := elapsed env1;
    uuidv4 := uuidv4 env1; gen_random_uuid := gen_random_uuid env1;
    dns := dns env1;
    fetch := fun q => if jsstring_eqb (req_task_id q) (Task.id reminder)
                      then fetch env1 q
                      else Failing (js "Error") (js "unexpected request");
    sendSlackNotification := sendSlackNotification env1;
    sendEmailNotification := sendEmailNotification env1 |} in
  sendWebhook env1 reminder (Task.callback_config reminder)
  = sendWebhook env2 reminder (Task.callback_config reminder).
Proof.
  intros env1 env2.
  apply (sendWebhook_requests env1 env2 reminder (Task.callback_config reminder));
    try reflexivity.
  intros q target parsedUrl _ _ _ _ _ _ Hid _ _. cbn [fetch env2]. rewrite Hid.
  by rewrite jsstring_eqb_refl.
Defined.

(** The URL that is fetched, read from a peer that echoes it. For a host
    name written as URL parsing gives it, the resolved address takes its
    place; for one written in upper case nothing is replaced, and the name is
    fetched as it stands. *)
Example sendWebhook_fetched_url :
  let env := {|
    config := default_config; now := 1765965600000; elapsed := 25;
    uuidv4 := uuidv4 (refusing 0); gen_random_uuid := gen_random_uuid (refusing 0);
    dns := dns (refusing 0);
    fetch := fun q => Responded {| resp_status := 200; resp_statusText := js "OK";
                                   resp_location := None;
                                   resp_text := req_url q |};
    sendSlackNotification := sendSlackNotification (refusing 0);
    sendEmailNotification := sendEmailNotification (refusing 0) |} in
  let to := fun target => {| Db.url := Some target; Db.channel := None;
                             Db.email := None |} in
  Dispatch.body (sendWebhook env reminder (to (js "https://example.com/webhook")))
  = Some (js "https://93.184.216.34/webhook")
  /\ Dispatch.body (sendWebhook env reminder (to (js "https://EXAMPLE.com/webhook")))
     = Some (js "https://EXAMPLE.com/webhook").
Proof. vm_compute. done. Qed.

(** A peer that redirects: the answer is a failure, and no status code is
    kept. *)
Example sendWebhook_redirect :
  let env := {|
    config := default_config; now := 1765965600000; elapsed := 25;
    uuidv4 := uuidv4 (refusing 0); gen_random_uuid := gen_random_uuid (refusing 0);
    dns := dns (refusing 0);
    fetch := fun _ => Responded {| resp_status := 302; resp_statusText := js "Found";
                                   resp_location := Some (js "http://169.254.169.254/");
                                   resp_text := [] |};
    sendSlackNotification := sendSlackNotification (refusing 0);
    sendEmailNotification := sendEmailNotification (refusing 0) |} in
  sendWebhook env reminder (Task.callback_config reminder)
  = Dispatch.failure
      (js "Webhook failed: Redirects are blocked for security. Target: http://169.254.169.254/").
Proof. vm_compute. reflexivity. Qed.

End WebhookExamples.

(** ** [sanitizePayload] *)

Section Payload.

(** Induction on JSON values, with the hypothesis for every element of an
    array and every member of an object. *)
Lemma json_nested_ind (P : json -> Prop) :
  P JNull -> (forall b, P (JBool b)) -> (forall n, P (JNum n)) ->
  (forall s, P (JStr s)) ->
  (forall items, Forall P items -> P (JArr items)) ->
  (forall fields, Forall (fun kv => P (snd kv)) fields -> P (JObj fields)) ->
  forall v, P v.
Proof.
  intros Hnull Hbool Hnum Hstr Harr Hobj.
  fix IH 1.
  intros [| b | n | s | items | fields];
    [exact Hnull | apply Hbool | apply Hnum | apply Hstr | |].
  - apply Harr. induction items as [|x items IHitems]; constructor;
      [apply IH | exact IHitems].
  - apply Hobj. induction fields as [|[k x] fields IHfields]; constructor;
      [apply IH | exact IHfields].
Qed.

(** The reviver leaves no dangerous name at any depth. *)
Lemma revive_clean v : has_dangerous_key (revive v) = false.
Proof.
  induction v as [| b | n | s | items IH | fields IH] using json_nested_ind;
    try reflexivity.
  - simpl. induction IH as [|x items Hx _ IHitems]; [reflexivity|].
    simpl. by rewrite Hx, IHitems.
  - simpl. induction IH as [|[k x] fields Hx _ IHfields]; [reflexivity|].
    simpl. destruct (dangerous k) eqn:Hk; [exact IHfields|].
    simpl. simpl in Hx. by rewrite Hk, Hx, IHfields.
Qed.

(** What [sanitizePayload] hands on holds no dangerous name. *)
Lemma sanitized_clean payload maxSize v :
  sanitized (sanitizePayload payload maxSize) = Some v ->
  has_dangerous_key v = false.
Proof.
  unfold sanitizePayload. destruct payload as [w|]; [|by intros [= <-]].
  intros Hs.
  assert (Hv : v = revive w \/ v = JObj []).
  { destruct w; cbv beta iota zeta in Hs; try destruct (_ >? _)%Z;
      cbn [sanitized] in Hs;
      first [discriminate | left; congruence | right; congruence]. }
  destruct Hv as [-> | ->]; [apply revive_clean | reflexivity].
Qed.

(** Payload reviver: a sanitized payload holds no member named
    [__proto__], [constructor] or [prototype] at any depth; a payload whose
    numbers are safe integers (which [JSON.stringify] prints digit by digit)
    and whose JSON text is longer than the cap is refused; an absent or null
    payload gives the empty object. *)
Theorem sanitizePayload_spec (payload : option json) (maxSize : Z) :
  (forall v, sanitized (sanitizePayload payload maxSize) = Some v ->
             has_dangerous_key v = false)
  /\ (forall v, payload = Some v -> v <> JNull -> safe_numbers v = true ->
                (Z.of_nat (List.length (JSON_stringify v)) > maxSize)%Z ->
                payload_valid (sanitizePayload payload maxSize) = false)
  /\ (payload = None \/ payload = Some JNull ->
      sanitized (sanitizePayload payload maxSize) = Some (JObj [])).
Proof.
  split; [|split].
  - intros v. apply sanitized_clean.
  - intros v -> Hnotnull _ Hbig. unfold sanitizePayload.
    assert (Hgt : (Z.of_nat (List.length (JSON_stringify v)) >? maxSize)%Z = true)
      by (apply Z.gtb_lt; lia).
    destruct v; try congruence; cbv beta iota zeta; by rewrite Hgt.
  - by intros [-> | ->].
Qed.

(** The payload of the test suite: the [__proto__] member is dropped, the
    rest is kept. *)
Example sanitizePayload_nested :
  sanitizePayload
    (Some (JObj [ (js "level1",
                   JObj [ (js "level2",
                           JObj [ (js "__proto__", JObj [(js "hacked", JBool true)]);
                                  (js "kept", JNum 1) ]) ]) ]))
    65536
  = {| payload_valid := true;
       sanitized := Some (JObj [ (js "level1",
                                  JObj [ (js "level2", JObj [ (js "kept", JNum 1) ]) ]) ]);
       payload_error := None |}.
Proof. vm_compute. reflexivity. Qed.

(** A payload over the cap: sixteen digits and two brackets against a cap
    of ten. *)
Example sanitizePayload_oversize :
  safe_numbers (JArr [JNum 9007199254740991]) = true
  /\ sanitizePayload (Some (JArr [JNum 9007199254740991])) 10
     = {| payload_valid := false; sanitized := None;
          payload_error := Some (js "Payload exceeds maximum size of 10 bytes") |}.
Proof. vm_compute. done. Qed.

Example JSON_stringify_text :
  JSON_stringify (JObj [ (js "k", JNum 1); (js "tags", JArr [JStr (js "a"); JNull]);
                         (js "neg", JNum (-42)) ])
  = js "{" ++ quote (js "k") ++ js ":1," ++ quote (js "tags") ++ js ":["
    ++ quote (js "a") ++ js ",null]," ++ quote (js "neg") ++ js ":-42}".
Proof. vm_compute. reflexivity. Qed.

End Payload.

(** ** [parseTimeInput] *)

Section Timing.
Context `{Platform}.

(** [parseTimeInput] returns a date or an error, never both and never
    neither; [at] takes precedence over [in]; a date read from [at] is
    strictly after the clock reading, and a date read from [in] is the clock
    reading plus the duration that [ms] gives. *)
Theorem parseTimeInput_spec (now : Z) (at_ in_ : option jsstring) :
  let r := parseTimeInput now at_ in_ in
  (scheduledAt r = None <-> timing_error r <> None)
  /\ (truthy_opt at_ = true ->
      forall dt, scheduledAt r = Some dt ->
        exists t, Date_parse (default [] at_) = Some t
                  /\ (now < t)%Z /\ dt = new_Date t)
  /\ (truthy_opt at_ = false ->
      forall dt, scheduledAt r = Some dt ->
        truthy_opt in_ = true
        /\ exists milliseconds, ms (default [] in_) = Some milliseconds
                                /\ dt = new_Date (now + milliseconds)).
Proof.
  cbv zeta. unfold parseTimeInput, parseRelativeTime.
  destruct (truthy_opt at_) eqn:Hat.
  - destruct (Date_parse (default [] at_)) as [t|] eqn:Hparse; cbn [scheduledAt timing_error].
    + destruct (Z.leb_spec t now); cbn [scheduledAt timing_error].
      * split; [by split|]. split; [by intros _ dt|done].
      * split; [by split|]. split; [|done].
        intros _ dt [= <-]. exists t. by repeat split.
    + split; [by split|]. split; [by intros _ dt|done].
  - destruct (truthy_opt in_) eqn:Hin; cbn [negb].
    + destruct (ms (default [] in_)) as [milliseconds|] eqn:Hms;
        cbn [scheduledAt timing_error].
      * split; [by split|]. split; [done|].
        intros _ dt [= <-]. split; [done|]. by exists milliseconds.
      * split; [by split|]. split; [done|]. by intros _ dt.
    + cbn [scheduledAt timing_error]. split; [by split|]. split; [done|]. by intros _ dt.
Qed.

End Timing.

Section TimingExamples.
Import Reference.
Local Existing Instance node.
Local Open Scope Z_scope.

Example parseTimeInput_in_30m :
  parseTimeInput 1765965600000 None (Some (js "30m"))
  = {| scheduledAt := Some (DateOf 1765967400000); timing_error := None |}.
Proof. vm_compute. reflexivity. Qed.

Example parseTimeInput_at_past :
  parseTimeInput 1765965600000 (Some (js "2020-01-01T00:00:00.000Z")) (Some (js "30m"))
  = {| scheduledAt := None;
       timing_error := Some (js "Scheduled time must be in the future") |}.
Proof. vm_compute. reflexivity. Qed.

End TimingExamples.

(** ** The lease: [lockTask] *)

Section Lease.


Lemma map_unless {A : Type} (cond : A -> bool) (f : A -> A) (l : list A) :
  (forall t, In t l -> cond t = false) ->
  List.map (fun t => if cond t then f t else t) l = l.
Proof.
  intros Hno. induction l as [|t l IH]; [reflexivity|]. simpl.
  rewrite (Hno t) by (by left). f_equal. apply IH. intros t' Ht'. apply Hno. by right.
Qed.


(** What [lockTask] computes: the rows that meet its condition are set and
    returned, the others are left as they are. *)
Lemma lockTask_run now id workerId d :
  let locked := fun t =>
    Task.update_updated_at_column now (Task.with_lock (Some now) (Some workerId) t) in
  TaskQueries.lockTask now id workerId d
  = (Return (first_row (List.map locked (List.filter (lockable id) (tasks d)))),
     with_tasks (List.map (fun t => if lockable id t then locked t else t) (tasks d)) d).
Proof. reflexivity. Qed.






Lemma primary_key_unique d t1 t2 :
  primary_key d -> In t1 (tasks d) -> In t2 (tasks d) ->
  Task.id t1 = Task.id t2 -> t1 = t2.
Proof.
  unfold primary_key. induction (tasks d) as [|t l IH]; [by inversion 2|].
  simpl. inversion 1 as [|? ? Hnotin Hnodup]; subst.
  intros [->|H1] [->|H2] Hid; auto.
  - destruct Hnotin. rewrite Hid. by apply in_map.
  - destruct Hnotin. rewrite <- Hid. by apply in_map.
Qed.


Section LeaseExamples.
Import Reference.
Local Open Scope Z_scope.


(** The lease ends with [unlockTask]: the next attempt succeeds. *)
Example lockTask_after_unlockTask :
  let d1 := after (TaskQueries.lockTask 1765965600000 (Task.id reminder)
                     (js "worker-1a2b3c4d")) sample_db in
  let d2 := after (TaskQueries.unlockTask 1765965600050 (Task.id reminder)) d1 in
  exists row d3,
    TaskQueries.lockTask 1765965600060 (Task.id reminder) (js "worker-9f8e7d6c") d2
    = (Return (Some row), d3)
    /\ Task.locked_by row = Some (js "worker-9f8e7d6c").
Proof. vm_compute. eauto. Qed.

End LeaseExamples.

End Lease.

(** ** The primary key and the stale-lock cleanup *)

Section Reaper.

Lemma ids_of_update (cond : Task.row -> bool) (g : Task.row -> Task.row) l :
  (forall t, Task.id (g t) = Task.id t) ->
  List.map Task.id (List.map (fun t => if cond t then g t else t) l)
  = List.map Task.id l.
Proof.
  intros Hid. rewrite map_map. apply map_ext. intros t.
  destruct (cond t); [apply Hid | reflexivity].
Qed.

Lemma NoDup_map_filter {A B : Type} (f : A -> B) (keep : A -> bool) l :
  NoDup (List.map f l) -> NoDup (List.map f (List.filter keep l)).
Proof.
  induction l as [|x l IH]; [done|]. simpl. inversion 1 as [|? ? Hnotin Hnodup]; subst.
  destruct (keep x); [|by auto]. simpl. constructor; [|by auto].
  intros Hin. apply Hnotin. apply in_map_iff in Hin as (y & Hy & Hin).
  apply filter_In in Hin as [Hin _]. rewrite <- Hy. by apply in_map.
Qed.

(** Every statement keeps the primary key of [tasks]. *)
Lemma step_keeps_primary_key st d : primary_key d -> primary_key (step st d).
Proof.
  unfold primary_key. intros Hpk.
  destruct st as [now i w|now i|now i next done|cfg clock|now i s|now uuid task|i]; simpl.
  1-2, 4-5: by rewrite ids_of_update.
  - unfold after, TaskQueries.recordExecution.
    destruct (existsb _ (tasks d)); [exact Hpk|]. simpl. by rewrite ids_of_update.
  - unfold after, TaskQueries.create. repeat case_match; simpl; try exact Hpk.
    rewrite map_app. simpl.
    apply NoDup_app; [exact Hpk | repeat constructor; by inversion 1 |].
    intros x Hx [<-|[]].
    match goal with
    | Hex : existsb _ (tasks d) = false |- _ =>
        rewrite <- not_true_iff_false, existsb_exists in Hex; destruct Hex
    end.
    apply in_map_iff in Hx as (t & Ht & Hin). exists t. split; [done|].
    rewrite Ht. apply jsstring_eqb_refl.
  - by apply NoDup_map_filter.
Qed.

(** Invariant: task ids stay pairwise distinct along every history of
    statements. *)
Theorem run_keeps_primary_key history : forall d,
  primary_key d -> primary_key (run history d).
Proof.
  induction history as [|st history IH]; intros d Hpk; [exact Hpk|].
  simpl. by apply IH, step_keeps_primary_key.
Qed.

(** Reaper correctness: an active task whose lease is older than the lock
    timeout can be leased by any worker after one run of the cleanup. *)
Theorem cleanupStaleLocks_frees_stale_lease (cfg : Config) (clock : Z) (d : db)
    (t : Task.row) (since : Z) (now : Z) (workerId : jsstring) :
  In t (tasks d) ->
  Task.status t = Active ->
  Task.locked_at t = Some since ->
  (since < clock - lockTimeoutMs cfg)%Z ->
  exists row d',
    TaskQueries.lockTask now (Task.id t) workerId (after (cleanupStaleLocks cfg clock) d)
    = (Return (Some row), d')
    /\ Task.id row = Task.id t
    /\ Task.locked_by row = Some workerId.
Proof.
  intros Hin Hactive Hlocked Hstale. rewrite lockTask_run. cbv zeta.
  set (freed := Task.update_updated_at_column clock (Task.with_lock None None t)).
  assert (Hfreed : In freed (tasks (after (cleanupStaleLocks cfg clock) d))).
  { simpl. apply in_map_iff. exists t. split; [|exact Hin].
    rewrite Hlocked. simpl.
    destruct (Z.ltb_spec since (clock - lockTimeoutMs cfg)); [reflexivity | lia]. }
  assert (Hok : lockable (Task.id t) freed = true).
  { unfold lockable, freed. simpl. rewrite Hactive.
    rewrite !bool_decide_eq_true_2 by done. reflexivity. }
  destruct (List.filter (lockable (Task.id t)) _) as [|t0 rest] eqn:Hfilter.
  - assert (Hnone : In freed []) by (rewrite <- Hfilter; by apply filter_In).
    destruct Hnone.
  - assert (Ht0 : In t0 (t0 :: rest)) by (by left).
    rewrite <- Hfilter in Ht0. apply filter_In in Ht0 as [_ Ht0].
    unfold lockable in Ht0. apply andb_true_iff in Ht0 as [Ht0 _].
    apply andb_true_iff in Ht0 as [Ht0 _]. apply bool_decide_eq_true in Ht0.
    eexists _, _. split; [reflexivity|]. by split.
Qed.

End Reaper.

Section ReaperExamples.
Import Reference.
Local Open Scope Z_scope.

Lemma cleanupStaleLocks_frees_stale_lease_witness :
  let crashed := Task.with_lock (Some 1765965600000) (Some (js "worker-1a2b3c4d")) reminder in
  exists row d',
    TaskQueries.lockTask 1765965900000 (Task.id crashed) (js "worker-9f8e7d6c")
      (after (cleanupStaleLocks default_config 1765965900000)
             (with_tasks [crashed; standup] sample_db))
    = (Return (Some row), d')
    /\ Task.id row = Task.id crashed
    /\ Task.locked_by row = Some (js "worker-9f8e7d6c").
Proof.
  intros crashed.
  apply (cleanupStaleLocks_frees_stale_lease default_config 1765965900000
           (with_tasks [crashed; standup] sample_db) crashed 1765965600000).
  - by left.
  - reflexivity.
  - reflexivity.
  - vm_compute. reflexivity.
Defined.

Lemma run_keeps_primary_key_witness :
  primary_key
    (run [ LockTask 1765965600000 (Task.id reminder) (js "worker-1a2b3c4d");
           RecordExecution 1765965600025 (Task.id reminder) None true;
           UpdateStatus 1765965700000 (Some (Task.id standup)) Active;
           CleanupStaleLocks default_config 1765965900000;
           Delete (Task.id reminder) ]
         sample_db).
Proof.
  apply (run_keeps_primary_key _ sample_db).
  unfold primary_key. simpl.
  apply NoDup_cons; [intros [Heq|[]]; discriminate Heq|].
  apply NoDup_cons; [intros []|]. apply NoDup_nil.
Defined.

End ReaperExamples.

(** ** [getDueTasks] *)

Section DueTasks.

Lemma key_le_total a b : key_le a b = false -> key_le b a = true.
Proof. destruct a, b; simpl; try done. rewrite Z.leb_gt, Z.leb_le. lia. Qed.

Lemma insert_by_In {A : Type} (key : A -> option Z) x l y :
  In y (insert_by key x l) <-> y = x \/ In y l.
Proof.
  induction l as [|z l IH]; simpl; [by intuition|].
  destruct (key_le (key x) (key z)); simpl; [by intuition|].
  rewrite IH. by intuition.
Qed.

Lemma order_by_In {A : Type} (key : A -> option Z) l y :
  In y (order_by key l) <-> In y l.
Proof.
  induction l as [|x l IH]; simpl; [done|].
  rewrite insert_by_In, IH. by intuition.
Qed.

Lemma insert_by_length {A : Type} (key : A -> option Z) x l :
  length (insert_by key x l) = S (length l).
Proof.
  induction l as [|z l IH]; simpl; [done|].
  destruct (key_le (key x) (key z)); simpl; by rewrite ?IH.
Qed.

Lemma order_by_length {A : Type} (key : A -> option Z) l :
  length (order_by key l) = length l.
Proof.
  induction l as [|x l IH]; simpl; [done|]. by rewrite insert_by_length, IH.
Qed.

Lemma insert_by_sorted {A : Type} (key : A -> option Z) x l :
  Sorted (fun a b => key_le (key a) (key b) = true) l ->
  Sorted (fun a b => key_le (key a) (key b) = true) (insert_by key x l).
Proof.
  induction l as [|z l IH]; simpl; intros Hsorted.
  - by repeat constructor.
  - destruct (key_le (key x) (key z)) eqn:Hle.
    + constructor; [exact Hsorted | by constructor].
    + apply Sorted_inv in Hsorted as [Hsorted Hhd].
      constructor; [by apply IH|].
      destruct l as [|w l]; simpl.
      * constructor. by apply key_le_total.
      * destruct (key_le (key x) (key w)); constructor.
        -- by apply key_le_total.
        -- by inversion Hhd.
Qed.

Lemma order_by_sorted {A : Type} (key : A -> option Z) l :
  Sorted (fun a b => key_le (key a) (key b) = true) (order_by key l).
Proof.
  induction l as [|x l IH]; simpl; [constructor | by apply insert_by_sorted].
Qed.

Lemma firstn_In {A : Type} n : forall (l : list A) x,
  In x (firstn n l) -> In x l.
Proof.
  induction n as [|n IH]; intros [|y l] x; simpl; try done.
  intros [->|Hin]; [by left | right; by apply IH].
Qed.

Lemma firstn_sorted {A : Type} (R : A -> A -> Prop) n : forall l,
  Sorted R l -> Sorted R (firstn n l).
Proof.
  induction n as [|n IH]; intros [|x l] Hsorted; simpl; try constructor.
  - apply IH. by apply Sorted_inv in Hsorted as [? _].
  - apply Sorted_inv in Hsorted as [_ Hhd].
    destruct n, l; simpl; constructor. by inversion Hhd.
Qed.

(** [getDueTasks(n)] with [n >= 0] changes nothing and returns at most [n]
    rows, each of them an active, unleased task of the store that is due, in
    ascending order of [COALESCE(next_run_at, scheduled_at)] (NULL last);
    when no more than [n] tasks are due it returns every one of them. *)
Theorem getDueTasks_spec (now batchSize : Z) (d : db) rows d' :
  TaskQueries.getDueTasks now batchSize d = (Return rows, d') ->
  d' = d
  /\ (Z.of_nat (length rows) <= batchSize)%Z
  /\ (forall t, In t rows ->
        In t (tasks d) /\ Task.status t = Active /\ Task.locked_at t = None
        /\ is_due now t = true)
  /\ Sorted ascending rows
  /\ ((Z.of_nat (length (due_tasks now d)) <= batchSize)%Z ->
      forall t, In t (tasks d) -> is_due now t = true -> In t rows).
Proof.
  unfold TaskQueries.getDueTasks.
  destruct (Z.ltb_spec batchSize 0) as [|Hn]; [discriminate|].
  intros [= <- <-]. split; [reflexivity|].
  split; [rewrite length_firstn; lia|].
  split; [|split].
  - intros t Hin. apply firstn_In in Hin. apply order_by_In in Hin.
    apply filter_In in Hin as [Hin Hdue]. split; [exact Hin|].
    pose proof Hdue as Hparts. unfold is_due in Hparts.
    apply andb_true_iff in Hparts as [Hparts _].
    apply andb_true_iff in Hparts as [Hactive Hfree].
    apply bool_decide_eq_true in Hactive.
    split; [exact Hactive|]. split; [|exact Hdue].
    by destruct (Task.locked_at t).
  - apply firstn_sorted, order_by_sorted.
  - intros Hall t Hin Hdue.
    rewrite firstn_all2 by (rewrite order_by_length; lia).
    apply order_by_In, filter_In. by split.
Qed.

End DueTasks.

Section DueTasksExamples.
Import Reference.
Local Open Scope Z_scope.

Lemma getDueTasks_spec_witness :
  let rows := [reminder] in
  sample_db = sample_db
  /\ Z.of_nat (length rows) <= 50
  /\ (forall t, In t rows ->
        In t (tasks sample_db) /\ Task.status t = Active /\ Task.locked_at t = None
        /\ is_due 1765965600000 t = true)
  /\ Sorted ascending rows
  /\ (Z.of_nat (length (due_tasks 1765965600000 sample_db)) <= 50 ->
      forall t, In t (tasks sample_db) -> is_due 1765965600000 t = true -> In t rows).
Proof.
  intros rows.
  apply (getDueTasks_spec 1765965600000 50 sample_db rows sample_db).
  vm_compute. reflexivity.
Defined.

(** A negative batch size is refused by the database. *)
Example getDueTasks_negative_limit :
  TaskQueries.getDueTasks 1765965600000 (-1) sample_db
  = (Throw (js "LIMIT must not be negative"), sample_db).
Proof. reflexivity. Qed.

End DueTasksExamples.

(** ** [cancel_task] *)

Section Cancel.

(** [getById] reads the first row with the id and changes nothing. *)
Lemma getById_found id d task :
  TaskQueries.getById id d = (Return (Some task), d) ->
  exists rest,
    List.filter (fun t => bool_decide (Some (Task.id t) = id)) (tasks d) = task :: rest.
Proof.
  unfold TaskQueries.getById. intros Hget. injection Hget as Hfirst.
  destruct (List.filter _ (tasks d)) as [|t rest]; [discriminate|].
  injection Hfirst as ->. eauto.
Qed.


End Cancel.

(** ** [pause_task] *)

Section Pause.

Lemma pauseHandler_run env params context d task :
  TaskQueries.getById (Params.id params) d = (Return (Some task), d) ->
  pauseHandler env params context d
  = if bool_decide (Task.status task = Active) then
      (Return (Reply.ok (Some (summary_of
                 (Task.update_updated_at_column (now env)
                    (Task.with_status Paused task)) None))),
       after (TaskQueries.pause (now env) (Params.id params)) d)
    else (Return (Reply.failure (cannot (js "pause") (Task.status task))), d).
Proof.
  intros Hget. destruct (getById_found _ _ _ Hget) as (rest & Hfilter).
  unfold pauseHandler, try_catch. unfold mbind at 1, M_bind at 1. rewrite Hget.
  destruct (bool_decide (Task.status task = Active)); [|reflexivity].
  unfold mbind, M_bind, after, TaskQueries.pause, TaskQueries.updateStatus,
    update_tasks, mret, M_ret.
  unfold mbind, M_bind. cbn [negb]. cbv beta iota. rewrite Hfilter. reflexivity.
Qed.


Lemma filter_length_map {A : Type} (f g : A -> bool) (h : A -> A) (l : list A) :
  (forall x, In x l -> f (h x) = g x) ->
  length (List.filter f (List.map h l)) = length (List.filter g l).
Proof.
  induction l as [|x l IH]; intros Hsame; [done|]. simpl.
  rewrite Hsame by (by left).
  destruct (g x); simpl; rewrite IH; auto; intros y Hy; apply Hsame; by right.
Qed.

(** [pause_task] on a task that exists succeeds exactly when the task is
    [active]. On success the row of the task is [paused] and changes in
    nothing else but [updated_at], every other row and the other two tables
    are as they were, the task is due at no time, and it still counts
    against the cap of its session; on failure nothing changes. *)
Theorem pauseHandler_spec (env : Env) (params : Params.t) (context : Context)
    (d : db) (task : Task.row) :
  primary_key d ->
  TaskQueries.getById (Params.id params) d = (Return (Some task), d) ->
  exists r d',
    pauseHandler env params context d = (Return r, d')
    /\ (Reply.success r = true <-> Task.status task = Active)
    /\ (Reply.success r = false -> d' = d)
    /\ (Reply.success r = true ->
        tasks d'
        = List.map (fun t =>
            if bool_decide (Task.id t = Task.id task)
            then Task.update_updated_at_column (now env) (Task.with_status Paused task)
            else t) (tasks d)
        /\ task_executions d' = task_executions d
        /\ stored_notifications d' = stored_notifications d
        /\ (forall later t, In t (due_tasks later d') -> Task.id t <> Task.id task)
        /\ forall session,
             fst (TaskQueries.countActiveByUser session d')
             = fst (TaskQueries.countActiveByUser session d)).
Proof.
  intros Hpk Hget. rewrite (pauseHandler_run _ _ _ _ _ Hget).
  destruct (getById_found _ _ _ Hget) as (rest & Hfilter).
  assert (Htask : In task (tasks d) /\ Some (Task.id task) = Params.id params).
  { assert (Hin : In task (task :: rest)) by (by left).
    rewrite <- Hfilter in Hin. apply filter_In in Hin as [Hin Hid].
    by apply bool_decide_eq_true in Hid. }
  destruct Htask as [Hin Hid].
  assert (Hrows : forall t, In t (tasks d) ->
            (if bool_decide (Some (Task.id t) = Params.id params)
             then Task.update_updated_at_column (now env) (Task.with_status Paused t)
             else t)
            = (if bool_decide (Task.id t = Task.id task)
               then Task.update_updated_at_column (now env) (Task.with_status Paused task)
               else t)).
  { intros t Ht. rewrite <- Hid.
    destruct (decide (Task.id t = Task.id task)) as [Heq|Hne].
    - rewrite !bool_decide_eq_true_2 by congruence.
      by rewrite (primary_key_unique d t task Hpk Ht Hin Heq).
    - rewrite !bool_decide_eq_false_2 by congruence. done. }
  destruct (bool_decide (Task.status task = Active)) eqn:Hactive.
  - apply bool_decide_eq_true in Hactive.
    eexists _, _. split; [reflexivity|]. split; [done|]. split; [done|].
    intros _.
    assert (Htasks : tasks (after (TaskQueries.pause (now env) (Params.id params)) d)
              = List.map (fun t =>
                  if bool_decide (Task.id t = Task.id task)
                  then Task.update_updated_at_column (now env)
                         (Task.with_status Paused task)
                  else t) (tasks d)).
    { simpl. apply map_ext_in. exact Hrows. }
    split; [exact Htasks|]. split; [reflexivity|]. split; [reflexivity|].
    split.
    + intros later t Hdue Heq. unfold due_tasks in Hdue.
      apply filter_In in Hdue as [Ht Hdue]. rewrite Htasks in Ht.
      apply in_map_iff in Ht as (t0 & Ht0 & _).
      destruct (bool_decide (Task.id t0 = Task.id task)) eqn:Hb.
      * by rewrite <- Ht0 in Hdue.
      * apply bool_decide_eq_false in Hb. by rewrite <- Ht0 in Heq.
    + intros session. unfold TaskQueries.countActiveByUser. cbn [fst].
      rewrite Htasks. do 2 f_equal. apply filter_length_map.
      intros t Ht. destruct (bool_decide (Task.id t = Task.id task)) eqn:Hb; [|done].
      apply bool_decide_eq_true in Hb.
      rewrite (primary_key_unique d t task Hpk Ht Hin Hb). simpl.
      rewrite (bool_decide_eq_true_2 (Task.status task = Active)) by done.
      by destruct (bool_decide (Task.created_by task = Some session)).
  - apply bool_decide_eq_false in Hactive.
    eexists _, _. split; [reflexivity|]. split; [|done]. by split.
Qed.

End Pause.

Section PauseExamples.
Import Reference.
Local Open Scope Z_scope.

Lemma pauseHandler_spec_witness :
  exists r d',
    pauseHandler (refusing 1765965600000) (params_with_id (Task.id reminder))
                 session_1 sample_db = (Return r, d')
    /\ (Reply.success r = true <-> Task.status reminder = Active)
    /\ (Reply.success r = false -> d' = sample_db)
    /\ (Reply.success r = true ->
        tasks d'
        = List.map (fun t =>
            if bool_decide (Task.id t = Task.id reminder)
            then Task.update_updated_at_column (now (refusing 1765965600000))
                   (Task.with_status Paused reminder)
            else t) (tasks sample_db)
        /\ task_executions d' = task_executions sample_db
        /\ stored_notifications d' = stored_notifications sample_db
        /\ (forall later t, In t (due_tasks later d') -> Task.id t <> Task.id reminder)
        /\ forall session,
             fst (TaskQueries.countActiveByUser session d')
             = fst (TaskQueries.countActiveByUser session sample_db)).
Proof.
  apply (pauseHandler_spec (refusing 1765965600000)
           (params_with_id (Task.id reminder)) session_1 sample_db reminder).
  - unfold primary_key. simpl.
    apply NoDup_cons; [intros [Heq|[]]; discriminate Heq|].
    apply NoDup_cons; [intros []|]. apply NoDup_nil.
  - vm_compute. reflexivity.
Defined.

End PauseExamples.

(** ** [resume_task] *)

Section Resume.
Context `{Platform}.

(** [recordExecution] goes through when no count leaves the range of INT. *)
Lemma recordExecution_in_range now id next completed d :
  (forall t, In t (tasks d) -> Task.id t = id ->
             int4 (Task.execution_count t + 1) = true) ->
  TaskQueries.recordExecution now id next completed d
  = (rows ← update_tasks now (fun t => bool_decide (Task.id t = id))
               (fun t =>
                  Task.with_lock None None
                    (Task.with_status (if completed then Completed else Task.status t)
                       (Task.with_next_run_at next
                          (Task.with_execution_count (Task.execution_count t + 1)
                             (Task.with_last_executed_at (Some now) t)))));
     mret (first_row rows)) d.
Proof.
  intros Hrange. unfold TaskQueries.recordExecution.
  replace (existsb _ (tasks d)) with false; [reflexivity|].
  symmetry. apply not_true_iff_false. intros Hex.
  apply existsb_exists in Hex as (t & Hin & Ht).
  apply andb_true_iff in Hex as [Hid Hout] || apply andb_true_iff in Ht as [Hid Hout].
  apply bool_decide_eq_true in Hid. by rewrite (Hrange t Hin Hid) in Hout.
Qed.

(** Resuming a paused recurring task whose next run can be computed: the
    status is set by [resume], and then [recordExecution] runs on the task
    although nothing was executed. *)
Lemma resumeHandler_recurring_run env params context d task cron fresh :
  TaskQueries.getById (Params.id params) d = (Return (Some task), d) ->
  (forall t, In t (tasks d) -> Task.id t = Task.id task ->
             int4 (Task.execution_count t + 1) = true) ->
  Task.status task = Paused ->
  Task.task_type task = Recurring ->
  Task.cron_expression task = Some cron ->
  truthy cron = true ->
  getNextCronRun (now env) cron (Task.timezone task) = Some fresh ->
  exists r,
    resumeHandler env params context d
    = (Return r,
       run [ UpdateStatus (now env) (Params.id params) Active;
             RecordExecution (now env) (Task.id task) (Some fresh) false ] d)
    /\ Reply.success r = true.
Proof.
  intros Hget Hrange Hst Hty Hcron Htruthy Hnext.
  destruct (getById_found _ _ _ Hget) as (rest & Hfilter). clear Hget.
  set (d1 := with_tasks
               (List.map (fun t => if bool_decide (Some (Task.id t) = Params.id params)
                                   then Task.update_updated_at_column (now env)
                                          (Task.with_status Active t)
                                   else t) (tasks d)) d).
  assert (Hrange1 : forall t, In t (tasks d1) -> Task.id t = Task.id task ->
                              int4 (Task.execution_count t + 1) = true).
  { intros t Hin Hid. cbn [d1 tasks with_tasks] in Hin.
    apply in_map_iff in Hin as (t0 & <- & Hin0).
    destruct (bool_decide _); cbn in *; by apply Hrange. }
  pose proof (recordExecution_in_range (now env) (Task.id task) (Some fresh) false d1
                Hrange1) as Hrecord.
  cbv beta iota zeta delta [resumeHandler try_catch mbind M_bind mret M_ret
    TaskQueries.getById TaskQueries.resume TaskQueries.updateStatus update_tasks
    first_row run step after fold_left].
  rewrite Hfilter. cbn [hd_error List.map].
  rewrite Hst, Hty, Hcron.
  change (bool_decide (Paused = Paused)) with true.
  change (bool_decide (Recurring = Recurring)) with true.
  cbn [negb andb truthy_opt default]. unfold id. rewrite Htruthy, Hnext.
  cbv beta iota. cbn [snd]. fold d1. rewrite !Hrecord.
  cbv beta iota zeta delta [mbind M_bind mret M_ret update_tasks first_row].
  rewrite Hfilter. cbn [list.head List.map snd].
  eexists. split; reflexivity.
Qed.

(** The rows of the task after these two statements: one more execution is
    counted and the time of the last execution is the time of the call. *)
Lemma resume_then_record_row now id fresh d t' :
  (forall t, In t (tasks d) -> Task.id t = id ->
             int4 (Task.execution_count t + 1) = true) ->
  In t' (tasks (run [ UpdateStatus now (Some id) Active;
                      RecordExecution now id (Some fresh) false ] d)) ->
  Task.id t' = id ->
  exists t, In t (tasks d) /\ Task.id t = id
            /\ Task.execution_count t' = (Task.execution_count t + 1)%Z
            /\ Task.last_executed_at t' = Some now
            /\ Task.next_run_at t' = Some fresh
            /\ Task.status t' = Active
            /\ Task.locked_at t' = None.
Proof.
  intros Hrange. cbn [run fold_left step].
  unfold after at 1. rewrite recordExecution_in_range.
  2:{ intros t Hin Hid. cbn in Hin. apply in_map_iff in Hin as (t0 & <- & Hin0).
      destruct (bool_decide _); cbn in *; by apply Hrange. }
  simpl. rewrite map_map. intros Hin Hid.
  apply in_map_iff in Hin as (t & <- & Hin). exists t.
  destruct (bool_decide (Some (Task.id t) = Some id)) eqn:Hb.
  - apply bool_decide_eq_true in Hb. injection Hb as Hb.
    simpl. rewrite bool_decide_eq_true_2 by exact Hb. simpl. auto 10.
  - apply bool_decide_eq_false in Hb.
    destruct (bool_decide (Task.id t = id)) eqn:Hb'.
    + apply bool_decide_eq_true in Hb'. destruct Hb. by f_equal.
    + apply bool_decide_eq_false in Hb'. rewrite Hb' in Hid || (simpl in Hid; contradiction).
Qed.

(** Resuming a paused task for which no next run is computed (a one-time
    task): only [resume] runs, which sets the status (and, by the trigger,
    [updated_at]). *)
Lemma resumeHandler_one_time_run env params context d task :
  TaskQueries.getById (Params.id params) d = (Return (Some task), d) ->
  Task.status task = Paused ->
  Task.task_type task = One_time ->
  exists r,
    resumeHandler env params context d
    = (Return r, run [UpdateStatus (now env) (Params.id params) Active] d)
    /\ Reply.success r = true.
Proof.
  intros Hget Hst Hty.
  destruct (getById_found _ _ _ Hget) as (rest & Hfilter). clear Hget.
  cbv beta iota zeta delta [resumeHandler try_catch mbind M_bind mret M_ret
    TaskQueries.getById TaskQueries.resume TaskQueries.updateStatus update_tasks
    first_row run step after fold_left].
  rewrite Hfilter. cbn [hd_error List.map].
  rewrite Hst, Hty.
  change (bool_decide (Paused = Paused)) with true.
  change (bool_decide (One_time = Recurring)) with false.
  cbn [negb andb]. cbv beta iota. rewrite Hfilter. cbn [list.head List.map snd].
  eexists. split; reflexivity.
Qed.

End Resume.

Section ResumeExamples.
Import Reference.
Local Existing Instance node.
Local Open Scope Z_scope.

(** C9 (the code at a paused recurring task): [resume_task] on the task
    that has run five times, last on 16 December, leaves it with six
    executions, the last one at the time of the call. *)
Theorem resumeHandler_counts_an_execution :
  Task.status standup = Paused
  /\ Task.execution_count standup = 5
  /\ Task.last_executed_at standup = Some 1765875600000
  /\ exists r d',
       resumeHandler (refusing 1765965600000) (params_with_id (Task.id standup))
                     session_1 sample_db = (Return r, d')
       /\ Reply.success r = true
       /\ List.map (fun t => (Task.status t, Task.execution_count t,
                              Task.last_executed_at t, Task.next_run_at t))
                   (tasks d')
          = [ (Active, 0, None, Some 1765965600000);
              (Active, 6, Some 1765965600000, Some 1766048400000) ].
Proof. repeat split. eexists _, _. vm_compute. auto. Qed.

End ResumeExamples.

(** ** [executeTask] *)

Section Execute.
Context `{Platform}.

(** [recordExecution] fails, and changes nothing, when a count would leave
    the range of INT; otherwise it updates the rows of the task. *)
Lemma recordExecution_outcome now id next completed d :
  ((exists t, In t (tasks d) /\ Task.id t = id
              /\ int4 (Task.execution_count t + 1) = false)
   /\ TaskQueries.recordExecution now id next completed d
      = (Throw (js "integer out of range"), d))
  \/ ((forall t, In t (tasks d) -> Task.id t = id ->
                 int4 (Task.execution_count t + 1) = true)
      /\ exists r,
           TaskQueries.recordExecution now id next completed d
           = (Return r,
              with_tasks
                (List.map (fun t => if bool_decide (Task.id t = id)
                                    then TaskQueries.recorded now next completed t else t)
                          (tasks d)) d)).
Proof.
  unfold TaskQueries.recordExecution.
  destruct (existsb _ (tasks d)) eqn:Hex.
  - left. split; [|reflexivity].
    apply existsb_exists in Hex as (t & Hin & Ht).
    apply andb_true_iff in Ht as [Hid Hout]. apply bool_decide_eq_true in Hid.
    exists t. split; [done|]. split; [done|]. by destruct (int4 _).
  - right. split; [|eexists; reflexivity].
    intros t Hin Hid. destruct (int4 _) eqn:Hrange; [reflexivity|].
    assert (existsb (fun t => bool_decide (Task.id t = id)
                              && negb (int4 (Task.execution_count t + 1)))
                    (tasks d) = true); [|congruence].
    apply existsb_exists. exists t. split; [done|].
    by rewrite bool_decide_eq_true_2, Hrange.
Qed.

Lemma recordExecution_tasks now id next completed d r d' :
  TaskQueries.recordExecution now id next completed d = (Return r, d') ->
  tasks d'
  = List.map (fun t => if bool_decide (Task.id t = id)
                       then TaskQueries.recorded now next completed t else t) (tasks d)
  /\ task_executions d' = task_executions d
  /\ stored_notifications d' = stored_notifications d.
Proof.
  destruct (recordExecution_outcome now id next completed d)
    as [(_ & Hthrow)|(_ & r0 & Hrun)].
  - by rewrite Hthrow.
  - rewrite Hrun. by intros [= _ <-].
Qed.

Lemma recordExecution_raised now id next completed d msg d' :
  TaskQueries.recordExecution now id next completed d = (Throw msg, d') -> d' = d.
Proof.
  destruct (recordExecution_outcome now id next completed d)
    as [(_ & Hthrow)|(_ & r0 & Hrun)].
  - rewrite Hthrow. by intros [= _ <-].
  - by rewrite Hrun.
Qed.

(** [complete] changes the executions alone, and nothing when it fails. *)
Lemma complete_frame now id status code body duration error d :
  let after_it := ExecutionQueries.complete now id status code body duration error d in
  tasks (snd after_it) = tasks d
  /\ stored_notifications (snd after_it) = stored_notifications d
  /\ List.length (task_executions (snd after_it)) = List.length (task_executions d)
  /\ (forall msg, fst after_it = Throw msg -> snd after_it = d).
Proof.
  cbv zeta. unfold ExecutionQueries.complete.
  destruct (has_nul body || has_nul error); [by repeat split|].
  destruct (negb _); [by repeat split|].
  cbn [fst snd tasks stored_notifications task_executions with_task_executions].
  rewrite length_map. by repeat split.
Qed.

(** The callback changes the notifications alone. *)
Lemma dispatch_frame env task d :
  let after_it := try_catch (dispatch env task)
                            (fun msg => mret (Dispatch.failure msg)) d in
  (exists result, fst after_it = Return result)
  /\ tasks (snd after_it) = tasks d
  /\ task_executions (snd after_it) = task_executions d.
Proof.
  cbv zeta. unfold try_catch, dispatch.
  destruct (Task.callback_type task).
  - cbn. eauto.
  - unfold lift_outcome. destruct (sendSlackNotification env task _); cbn; eauto.
  - unfold lift_outcome. destruct (sendEmailNotification env task _); cbn; eauto.
  - unfold mbind, M_bind, store_notification.
    destruct (negb (task_exists (Task.id task) d)); cbn; eauto.
Qed.

(** Whatever the callback returned, and whether it raised, a run of
    [executeTask] that returns has advanced the task by [recordExecution]: the
    [tasks] table afterwards is the one before with the rows of the task
    recorded. *)
Lemma executeTask_tasks env task d result d' :
  executeTask env task d = (Return result, d') ->
  tasks d'
  = List.map (fun t => if bool_decide (Task.id t = Task.id task)
                       then TaskQueries.recorded (now env + elapsed env)
                              (fst (advance_of env task)) (snd (advance_of env task)) t
                       else t) (tasks d).
Proof.
  unfold executeTask. intros Hrun.
  unfold mbind at 1, M_bind at 1 in Hrun.
  destruct (ExecutionQueries.create _ _ _ d) as [[execution|msg] d1] eqn:Hcreate;
    [|discriminate].
  assert (Htasks1 : tasks d1 = tasks d).
  { unfold ExecutionQueries.create in Hcreate. repeat case_match; by simplify_eq. }
  unfold mbind at 1, M_bind at 1 in Hrun.
  destruct (dispatch_frame env task d1) as ((result0 & Hresult) & Htasks2 & _).
  cbv zeta in Hresult, Htasks2.
  destruct (try_catch _ _ d1) as [[result1|msg] d2]; [|discriminate].
  cbv zeta in Hrun. unfold mbind at 1, M_bind at 1 in Hrun.
  match type of Hrun with
  | context [ExecutionQueries.complete ?a ?b ?c ?e ?f ?g ?h d2] =>
      destruct (complete_frame a b c e f g h d2) as (Htasks3 & _);
      destruct (ExecutionQueries.complete a b c e f g h d2) as [[row|msg] d3];
      [|discriminate]
  end.
  cbn [snd] in Htasks2, Htasks3.
  unfold mbind at 1, M_bind at 1 in Hrun.
  assert (Hrecord : exists r,
    TaskQueries.recordExecution (now env + elapsed env) (Task.id task)
      (fst (advance_of env task)) (snd (advance_of env task)) d3 = (Return r, d')).
  { unfold advance_of. destruct (Task.task_type task); cbn [fst snd];
      match type of Hrun with
      | context [TaskQueries.recordExecution ?a ?b ?c ?e d3] =>
          destruct (TaskQueries.recordExecution a b c e d3) as [[r|msg] d4];
          [|discriminate]
      end; injection Hrun as _ <-; eauto. }
  destruct Hrecord as (r & Hrecord).
  apply recordExecution_tasks in Hrecord as (-> & _).
  by rewrite Htasks3, Htasks2, Htasks1.
Qed.

(** No statement of [executeTask] writes [current_retry_count], and none
    sets the status [failed]. *)
Theorem executeTask_keeps_retry_count env task d result d' :
  executeTask env task d = (Return result, d') ->
  List.map Task.current_retry_count (tasks d')
  = List.map Task.current_retry_count (tasks d)
  /\ forall t', In t' (tasks d') -> Task.status t' = Failed ->
                exists t, In t (tasks d) /\ Task.id t = Task.id t'
                          /\ Task.status t = Failed.
Proof.
  intros Hrun. rewrite (executeTask_tasks _ _ _ _ _ Hrun).
  split.
  - rewrite map_map. apply map_ext. intros t. by destruct (bool_decide _).
  - intros t' Hin Hfailed. apply in_map_iff in Hin as (t & <- & Hin).
    exists t. destruct (bool_decide (Task.id t = Task.id task)); [|by auto].
    simpl in Hfailed. split; [done|]. split; [done|].
    by destruct (snd (advance_of env task)).
Qed.

End Execute.

Section ExecuteExamples.
Import Reference.
Local Existing Instance node.
Local Open Scope Z_scope.

(** C2 (the code at a failing webhook): the due one-time task, leased by a
    worker, is dispatched to a peer that answers 503. The dispatcher returns
    [success: false]; afterwards the task is [completed] with
    [current_retry_count] still 0 out of [max_retries = 3], and it is not due
    at any later time: it will not be leased again. *)
Theorem executeTask_completes_task_on_failed_webhook :
  let d1 := after (TaskQueries.lockTask 1765965600000 (Task.id reminder)
                     (js "worker-1a2b3c4d")) sample_db in
  exists result d2,
    executeTask (refusing 1765965600000) reminder d1 = (Return result, d2)
    /\ Dispatch.success result = false
    /\ Dispatch.error result = Some (js "HTTP 503: Service Unavailable")
    /\ List.map (fun t => (Task.status t, Task.current_retry_count t,
                           Task.max_retries t, Task.execution_count t))
                (tasks d2)
       = [ (Completed, 0, 3, 1); (Paused, 0, 3, 5) ]
    /\ List.map Execution.status (task_executions d2) = [ExecFailed]
    /\ forall later, due_tasks later d2 = [].
Proof.
  eexists _, _. split; [vm_compute; reflexivity|].
  repeat split.
Qed.

(** The same for a recurring task: the failed dispatch advances
    [next_run_at] like a successful one. *)
Example executeTask_advances_recurring_on_failed_webhook :
  let task := Task.with_status Active standup in
  let d := with_tasks [task] sample_db in
  exists result d',
    executeTask (refusing 1765965600000) task d = (Return result, d')
    /\ Dispatch.success result = false
    /\ List.map (fun t => (Task.status t, Task.current_retry_count t,
                           Task.next_run_at t, Task.execution_count t))
                (tasks d')
       = [ (Active, 0, Some 1766048400000, 6) ].
Proof. eexists _, _. split; [vm_compute; reflexivity|]. repeat split. Qed.

Lemma executeTask_keeps_retry_count_witness :
  let d' := after (executeTask (refusing 1765965600000) reminder) sample_db in
  List.map Task.current_retry_count (tasks d')
  = List.map Task.current_retry_count (tasks sample_db)
  /\ forall t', In t' (tasks d') -> Task.status t' = Failed ->
                exists t, In t (tasks sample_db) /\ Task.id t = Task.id t'
                          /\ Task.status t = Failed.
Proof.
  intros d'.
  eapply (executeTask_keeps_retry_count (refusing 1765965600000) reminder sample_db).
  vm_compute. reflexivity.
Defined.

End ExecuteExamples.

(** ** The scheduling tools *)

Section Schedule.
Context `{Platform}.

(** An INSERT that fails inserts nothing. *)
Lemma create_outcome now uuid task d :
  (exists e, TaskQueries.create now uuid task d = (Throw e, d))
  \/ (exists row, TaskQueries.create now uuid task d
                  = (Return row, with_tasks (tasks d ++ [row]) d)).
Proof.
  unfold TaskQueries.create. repeat case_match; eauto.
Qed.




(** The metadata address: whatever the resolver says, a webhook URL whose
    host is 169.254.169.254 is refused by name, and nothing is stored. *)
Lemma schedule_task_blocked_metadata_address env params context d cb target scheme :
  timing_error (parseTimeInput (now env) (Params.at_ params) (Params.in_ params)) = None ->
  Params.callback_ params = Some cb ->
  Params.type cb = Some (js "webhook") ->
  Params.url cb = Some target ->
  truthy target = true ->
  URL_parse target = Return {| protocol := scheme; hostname := js "169.254.169.254" |} ->
  scheme = js "http:" \/ scheme = js "https:" ->
  production (dns env) = false ->
  schedule_task env params context d
  = (Return (Reply.failure
               (js "Invalid webhook URL: Hostname 169.254.169.254 is blocked")), d).
Proof.
  intros Htiming Hcb Hty Hurl Htruthy Hparse Hscheme Hprod.
  unfold schedule_task. rewrite Htiming.
  assert (Hcheck : check_callback env (Params.callback_ params)
                     (js "Webhook URL is required for webhook callback type") true
                   = Some (js "Invalid webhook URL: Hostname 169.254.169.254 is blocked")).
  { unfold check_callback. rewrite Hcb, Hty, Hurl.
    cbn [truthy_opt default]. unfold id. rewrite Htruthy.
    change (truthy (js "webhook")) with true.
    change (bool_decide (Some (js "webhook") = Some (js "webhook"))) with true.
    cbn [negb andb].
    unfold validateWebhookUrl. rewrite Hparse, Hprod.
    cbn [protocol hostname andb].
    destruct Hscheme as [-> | ->]; reflexivity. }
  by rewrite Hcheck.
Qed.

End Schedule.

Section ScheduleExamples.
Import Reference.
Local Existing Instance node.
Local Open Scope Z_scope.


(** The cron injection scenario, and a call that succeeds: one row more. *)
Example schedule_recurring_rejects_injection :
  schedule_recurring (refusing 1765965600000)
    {| Params.name := Some (js "Ping"); Params.description := None;
       Params.at_ := None; Params.in_ := None;
       Params.cron := Some (js "0 9 * * *; curl evil");
       Params.timezone := None; Params.callback_ := None; Params.payload := None;
       Params.tags := None; Params.retries := None; Params.enabled := None;
       Params.id := None; Params.include_history := None; Params.status := None;
       Params.type_ := None; Params.limit := None; Params.offset := None |}
    session_1 sample_db
  = (Return (Reply.failure invalid_characters), sample_db).
Proof. vm_compute. reflexivity. Qed.

Example schedule_task_inserts_on_success :
  exists r d',
    schedule_task (refusing 1765965600000)
      (params_webhook (js "https://example.com/hook")) session_1
      (with_tasks [standup] sample_db) = (Return r, d')
    /\ Reply.success r = true
    /\ List.map Task.name (tasks d') = [Task.name standup; js "Ping"].
Proof. eexists _, _. split; [vm_compute; reflexivity|]. repeat split. Qed.

End ScheduleExamples.

(** ** [executeTool] *)

Section ExecuteTool.


End ExecuteTool.

Section ExecuteToolExamples.
Import Reference.
Local Existing Instance node.
Local Open Scope Z_scope.

(** The registry of the server holds the seven tools. *)
Example toolHandlers_names :
  List.map (fun name => bool_decide (is_Some (Map_get toolHandlers name)))
           (List.map fst tools ++ [js "throw_db_error"])
  = [true; true; true; true; true; true; true; false].
Proof. vm_compute. reflexivity. Qed.

Example executeTool_unknown_tool :
  executeTool toolHandlers (refusing 1765965600000) (js "throw_db_error")
              no_params session_1 sample_db
  = (Return (Reply.failure (js "Unknown tool: throw_db_error")), sample_db).
Proof. vm_compute. reflexivity. Qed.

Example executeTool_catches :
  executeTool (<[js "ping" := throwing_handler]> toolHandlers)
              (refusing 1765965600000) (js "ping") no_params session_1 sample_db
  = (Return (Reply.failure
               (js "Tool execution failed: connect ECONNREFUSED 127.0.0.1:5432")),
     sample_db).
Proof. vm_compute. reflexivity. Qed.

End ExecuteToolExamples.

(** ** What a successful scheduling call leaves *)

Section Scheduled.
Context `{Platform}.

(** The row that a successful INSERT returns. *)
Lemma create_inserted now uuid task d row d' :
  TaskQueries.create now uuid task d = (Return row, d') ->
  d' = with_tasks (tasks d ++ [row]) d
  /\ Task.id row = uuid
  /\ existsb (fun t => jsstring_eqb (Task.id t) uuid) (tasks d) = false
  /\ Task.status row = Active
  /\ Task.task_type row = taskType task
  /\ timestamp_param (new_scheduledAt task) = Return (Task.scheduled_at row)
  /\ timestamp_param (coalesce (nextRunAt task) (new_scheduledAt task))
     = Return (Task.next_run_at row)
  /\ Task.cron_expression row = or_null (cronExpression task)
  /\ Task.created_by row = or_null (createdBy task)
  /\ Task.payload row = json_or_empty (new_payload task)
  /\ Task.callback_config row = callbackConfig task
  /\ Task.locked_at row = None
  /\ Task.execution_count row = 0%Z
  /\ Task.last_executed_at row = None.
Proof.
  unfold TaskQueries.create. intros Hrun.
  repeat case_match; try discriminate.
  injection Hrun as <- <-. repeat split; done.
Qed.

Lemma fresh_id uuid (rows : list Task.row) :
  existsb (fun t => jsstring_eqb (Task.id t) uuid) rows = false ->
  forall old, In old rows -> Task.id old <> uuid.
Proof.
  intros Hfresh old Hin Heq.
  assert (Hex : existsb (fun t => jsstring_eqb (Task.id t) uuid) rows = true).
  { apply existsb_exists. exists old. split; [done|].
    rewrite Heq. apply jsstring_eqb_refl. }
  congruence.
Qed.







End Scheduled.

Section ScheduledExamples.
Import Reference.
Local Existing Instance node.
Local Open Scope Z_scope.



End ScheduledExamples.

(** ** The bookkeeping of [executeTask] and [processDueTasks] *)

Section Bookkeeping.
Context `{Platform}.
Local Open Scope Z_scope.

Lemma complete_new_row (hit : Execution.row -> bool) (set : Execution.row -> Execution.row)
    (rows : list Execution.row) inserted :
  (forall old, In old rows -> hit old = false) ->
  hit inserted = true ->
  List.map (fun e => if hit e then set e else e) (rows ++ [inserted])
  = rows ++ [set inserted].
Proof.
  intros Hold Hnew. rewrite map_app. simpl. rewrite Hnew. f_equal.
  by apply map_unless.
Qed.

Lemma fresh_execution uuid (rows : list Execution.row) :
  existsb (fun e => jsstring_eqb (Execution.id e) uuid) rows = false ->
  forall old, In old rows -> bool_decide (Execution.id old = uuid) = false.
Proof.
  intros Hfresh old Hin. apply bool_decide_eq_false_2. intros Heq.
  assert (Hex : existsb (fun e => jsstring_eqb (Execution.id e) uuid) rows = true).
  { apply existsb_exists. exists old. split; [done|].
    rewrite Heq. apply jsstring_eqb_refl. }
  congruence.
Qed.

Lemma bind_return {A B : Type} (m : M A) (k : A -> M B) d a d' :
  m d = (Return a, d') -> (m ≫= k) d = k a d'.
Proof. intros Hm. unfold mbind, M_bind. by rewrite Hm. Qed.

Lemma bind_throw {A B : Type} (m : M A) (k : A -> M B) d e d' :
  m d = (Throw e, d') -> (m ≫= k) d = (Throw e, d').
Proof. intros Hm. unfold mbind, M_bind. by rewrite Hm. Qed.

(** The [try]/[catch] around the callback: it gives a result whatever the
    callback does, and touches nothing but the notifications of a [store]
    callback. *)
Lemma dispatch_caught env task d :
  task_exists (Task.id task) d = true ->
  exists result d',
    try_catch (dispatch env task) (fun msg => mret (Dispatch.failure msg)) d
    = (Return result, d')
    /\ tasks d' = tasks d
    /\ task_executions d' = task_executions d
    /\ (if bool_decide (Task.callback_type task = Store)
        then exists n,
               stored_notifications d' = stored_notifications d ++ [n]
               /\ Notification.task_id n = Task.id task
               /\ Notification.session_id n = Task.created_by task
               /\ Notification.read_at n = None
               /\ Dispatch.success result = true
        else stored_notifications d' = stored_notifications d).
Proof.
  intros Hexists. unfold try_catch, dispatch.
  destruct (Task.callback_type task).
  - eexists _, _. split; [reflexivity|]. by repeat split.
  - unfold lift_outcome.
    destruct (sendSlackNotification env task _);
      eexists _, _; (split; [reflexivity|]); by repeat split.
  - unfold lift_outcome.
    destruct (sendEmailNotification env task _);
      eexists _, _; (split; [reflexivity|]); by repeat split.
  - unfold mbind, M_bind, store_notification. rewrite Hexists. cbn [negb].
    eexists _, _. split; [reflexivity|]. split; [done|]. split; [done|].
    rewrite bool_decide_eq_true_2 by done.
    eexists. split; [reflexivity|]. by repeat split.
Qed.

(** [complete] on the row just inserted: it fails on a text with the code
    unit 0 or a number outside INT and changes nothing, or it finishes the
    row. *)
Lemma complete_outcome now id status code body duration error d :
  (exists msg,
     ExecutionQueries.complete now id status code body duration error d = (Throw msg, d))
  \/ (has_nul body = false /\ has_nul error = false
      /\ exists r,
           ExecutionQueries.complete now id status code body duration error d
           = (Return r,
              with_task_executions
                (List.map (fun e =>
                   if bool_decide (Execution.id e = id)
                   then {| Execution.id := Execution.id e;
                           Execution.task_id := Execution.task_id e;
                           Execution.executed_at := Execution.executed_at e;
                           Execution.completed_at := Some now;
                           Execution.status := status;
                           Execution.response_code := code;
                           Execution.response_body := body;
                           Execution.duration_ms := Some duration;
                           Execution.error_message := error;
                           Execution.retry_number := Execution.retry_number e;
                           Execution.request_url := Execution.request_url e;
                           Execution.request_payload := Execution.request_payload e |}
                   else e) (task_executions d)) d)).
Proof.
  unfold ExecutionQueries.complete.
  destruct (has_nul body); [left; eauto|].
  destruct (has_nul error); [left; eauto|]. cbn [orb].
  destruct (negb _); [left; eauto|].
  right. split; [done|]. split; [done|]. eexists. reflexivity.
Qed.

(** The ways [executeTask] can go. When it raises, the tasks are as they
    were and at most the execution row has been added. When it returns, the
    execution row is there and finished, the task is recorded, and a [store]
    callback that succeeded has added its notification. *)
Lemma executeTask_outcome (env : Env) (task : Task.row) (d : db) :
  match executeTask env task d with
  | (Throw _, d') =>
      tasks d' = tasks d
      /\ (length (task_executions d') <= S (length (task_executions d)))%nat
  | (Return result, d') =>
      task_exists (Task.id task) d = true
      /\ (exists d1,
            try_catch (dispatch env task) (fun msg => mret (Dispatch.failure msg)) d1
            = (Return result,
               with_stored_notifications (stored_notifications d') d1)
            /\ tasks d1 = tasks d /\ stored_notifications d1 = stored_notifications d)
      /\ (exists e,
            task_executions d' = task_executions d ++ [e]
            /\ Execution.id e = gen_random_uuid env
            /\ Execution.task_id e = Task.id task
            /\ Execution.executed_at e = now env
            /\ Execution.completed_at e = Some (now env + elapsed env)
            /\ Execution.status e
               = (if Dispatch.success result then Success else ExecFailed)
            /\ Execution.response_code e = nonzero (Dispatch.statusCode result)
            /\ Execution.response_body e = or_null (Dispatch.body result)
            /\ Execution.duration_ms e = Some (elapsed env)
            /\ Execution.error_message e = or_null (Dispatch.error result))
      /\ tasks d'
         = List.map (fun t =>
             if bool_decide (Task.id t = Task.id task)
             then TaskQueries.recorded (now env + elapsed env)
                    (fst (advance_of env task)) (snd (advance_of env task)) t
             else t) (tasks d)
      /\ (if bool_decide (Task.callback_type task = Store)
          then exists n,
                 stored_notifications d' = stored_notifications d ++ [n]
                 /\ Notification.task_id n = Task.id task
                 /\ Notification.session_id n = Task.created_by task
                 /\ Notification.read_at n = None
                 /\ Dispatch.success result = true
          else stored_notifications d' = stored_notifications d)
  end.
Proof.
  destruct (task_exists (Task.id task) d) eqn:Hexists.
  2:{ unfold executeTask. erewrite bind_throw; [split; [done | lia]|].
      unfold ExecutionQueries.create. cbn [taskId]. by rewrite Hexists. }
  destruct (existsb (fun e => jsstring_eqb (Execution.id e) (gen_random_uuid env))
                    (task_executions d)) eqn:Hfresh.
  { unfold executeTask. erewrite bind_throw; [split; [done | lia]|].
    unfold ExecutionQueries.create. cbn [taskId]. by rewrite Hexists, Hfresh. }
  pose proof (fresh_execution _ _ Hfresh) as Hold.
  (* the INSERT of the execution row *)
  set (created := {|
         Execution.id := gen_random_uuid env;
         Execution.task_id := Task.id task;
         Execution.executed_at := now env;
         Execution.completed_at := None;
         Execution.status := Running;
         Execution.response_code := None;
         Execution.response_body := None;
         Execution.error_message := None;
         Execution.duration_ms := None;
         Execution.retry_number := 0;
         Execution.request_url := or_null (url (Task.callback_config task));
         Execution.request_payload := json_or_empty (Some (Task.payload task)) |}).
  set (d1 := with_task_executions (task_executions d ++ [created]) d).
  assert (Hcreate : ExecutionQueries.create (now env) (gen_random_uuid env)
              {| taskId := Task.id task; new_status := Running;
                 requestUrl := url (Task.callback_config task);
                 requestPayload := Task.payload task |} d
            = (Return created, d1)).
  { unfold ExecutionQueries.create.
    cbn [taskId new_status requestUrl requestPayload].
    by rewrite Hexists, Hfresh. }
  assert (Hexists1 : task_exists (Task.id task) d1 = true) by exact Hexists.
  (* the callback *)
  destruct (dispatch_caught env task d1 Hexists1)
    as (result & d2 & Hdispatch & Htasks2 & Hexec2 & Hnote2).
  set (later := now env + elapsed env).
  unfold executeTask.
  erewrite bind_return by exact Hcreate.
  erewrite bind_return by exact Hdispatch.
  cbv zeta. cbn [Execution.id created]. fold later.
  (* the UPDATE of the execution row *)
  match goal with
  | |- context [ExecutionQueries.complete ?a ?b ?c ?e ?f ?g ?h] =>
      destruct (complete_outcome a b c e f g h d2)
        as [(msg & Hcomplete)|(_ & _ & r & Hcomplete)]
  end.
  { erewrite bind_throw by exact Hcomplete.
    split; [by rewrite Htasks2|]. rewrite Hexec2. subst d1.
    cbn [task_executions with_task_executions]. rewrite length_app. simpl. lia. }
  erewrite bind_return by exact Hcomplete.
  match type of Hcomplete with
  | _ = (_, ?d) => set (d3 := d) in *
  end.
  assert (Htasks3 : tasks d3 = tasks d)
    by (subst d3; cbn [tasks with_task_executions]; by rewrite Htasks2).
  assert (Hexec3 : exists e,
            task_executions d3 = task_executions d ++ [e]
            /\ Execution.id e = gen_random_uuid env
            /\ Execution.task_id e = Task.id task
            /\ Execution.executed_at e = now env
            /\ Execution.completed_at e = Some later
            /\ Execution.status e
               = (if Dispatch.success result then Success else ExecFailed)
            /\ Execution.response_code e = nonzero (Dispatch.statusCode result)
            /\ Execution.response_body e = or_null (Dispatch.body result)
            /\ Execution.duration_ms e = Some (elapsed env)
            /\ Execution.error_message e = or_null (Dispatch.error result)).
  { subst d3. cbn [task_executions with_task_executions]. rewrite Hexec2.
    subst d1. cbn [task_executions with_task_executions].
    eexists. split.
    - rewrite complete_new_row; [reflexivity | exact Hold |].
      by apply bool_decide_eq_true_2.
    - by repeat split. }
  assert (Hnote3 : stored_notifications d3 = stored_notifications d2) by reflexivity.
  (* the UPDATE of the task *)
  assert (Hstep :
    (match Task.task_type task with
     | One_time => TaskQueries.recordExecution later (Task.id task) None true
     | Recurring =>
         TaskQueries.recordExecution later (Task.id task)
           match Task.cron_expression task with
           | Some cron => getNextCronRun later cron (Task.timezone task)
           | None => None
           end false
     end)
    = TaskQueries.recordExecution later (Task.id task)
        (fst (advance_of env task)) (snd (advance_of env task))).
  { unfold advance_of. fold later. by destruct (Task.task_type task). }
  rewrite Hstep.
  destruct (recordExecution_outcome later (Task.id task)
              (fst (advance_of env task)) (snd (advance_of env task)) d3)
    as [(_ & Hrecord)|(_ & r' & Hrecord)].
  { erewrite bind_throw by exact Hrecord. split; [done|].
    destruct Hexec3 as (e & -> & _). rewrite length_app. simpl. lia. }
  erewrite bind_return by exact Hrecord.
  cbn [mret M_ret tasks with_tasks task_executions stored_notifications].
  split; [reflexivity|]. split.
  { exists d1. split; [|by split]. rewrite Hdispatch. f_equal.
    rewrite Hnote3. destruct d2 as [t2 e2 n2]. cbn in *. by rewrite Htasks2, Hexec2. }
  split; [exact Hexec3|]. split; [by rewrite Htasks3|].
  rewrite Hnote3. exact Hnote2.
Qed.

(** What one [executeTask] that returns has done. The task existed. The
    result is the one of the callback, or the failure made of what the
    callback raised. Exactly one execution row has been added, which is
    finished: [success] or [failed] as the result says, with its completion
    time, duration, response and error text. The rows of the task are
    recorded ([recordExecution]): one more execution is counted, the time of
    the last execution is set, the lease is gone, and a one-time task is
    [completed]; no other row has changed. A [store] callback that succeeded
    has added one unread notification for the session that owns the task; no
    other callback touches the notifications. *)
Theorem executeTask_records (env : Env) (task : Task.row) (d : db)
    (result : Dispatch.result) (d' : db) :
  executeTask env task d = (Return result, d') ->
  task_exists (Task.id task) d = true
  /\ (Task.callback_type task = Webhook ->
      result = sendWebhook env task (Task.callback_config task))
  /\ (exists e,
        task_executions d' = task_executions d ++ [e]
        /\ Execution.id e = gen_random_uuid env
        /\ Execution.task_id e = Task.id task
        /\ Execution.executed_at e = now env
        /\ Execution.completed_at e = Some (now env + elapsed env)
        /\ Execution.status e = (if Dispatch.success result then Success else ExecFailed)
        /\ Execution.response_code e = nonzero (Dispatch.statusCode result)
        /\ Execution.response_body e = or_null (Dispatch.body result)
        /\ Execution.duration_ms e = Some (elapsed env)
        /\ Execution.error_message e = or_null (Dispatch.error result))
  /\ tasks d'
     = List.map (fun t =>
         if bool_decide (Task.id t = Task.id task)
         then TaskQueries.recorded (now env + elapsed env)
                (fst (advance_of env task)) (snd (advance_of env task)) t
         else t) (tasks d)
  /\ (forall t, In t (tasks d') -> Task.id t = Task.id task ->
        Task.locked_at t = None
        /\ Task.last_executed_at t = Some (now env + elapsed env)
        /\ (Task.task_type task = One_time -> Task.status t = Completed))
  /\ (Task.callback_type task = Store -> Dispatch.success result = true ->
      exists n,
        stored_notifications d' = stored_notifications d ++ [n]
        /\ Notification.task_id n = Task.id task
        /\ Notification.session_id n = Task.created_by task
        /\ Notification.read_at n = None)
  /\ (Task.callback_type task <> Store ->
      stored_notifications d' = stored_notifications d).
Proof.
  intros Hrun. pose proof (executeTask_outcome env task d) as Hout.
  rewrite Hrun in Hout.
  destruct Hout as (Hexists & (d1 & Hdispatch & _) & Hexec & Htasks & Hnotes).
  split; [exact Hexists|]. split.
  { intros Hwebhook. unfold try_catch, dispatch in Hdispatch.
    rewrite Hwebhook in Hdispatch. by injection Hdispatch as <- _. }
  split; [exact Hexec|]. split; [exact Htasks|]. split.
  { intros t Hin Hid. rewrite Htasks in Hin.
    apply in_map_iff in Hin as (t0 & <- & _).
    destruct (bool_decide (Task.id t0 = Task.id task)) eqn:Hb.
    - split; [done|]. split; [done|]. intros Hone.
      unfold advance_of. by rewrite Hone.
    - apply bool_decide_eq_false in Hb. by destruct Hb. }
  split.
  - intros Hstore _. rewrite bool_decide_eq_true_2 in Hnotes by done.
    destruct Hnotes as (n & ? & ? & ? & ? & _). eauto.
  - intros Hother. by rewrite bool_decide_eq_false_2 in Hnotes.
Qed.

Lemma rows_unlocked_after now id (set : Task.row -> Task.row) rows :
  (forall t, Task.locked_at (set t) = None) ->
  (forall t, In t rows -> Task.id t <> id -> Task.locked_at t = None) ->
  forall t,
    In t (List.map (fun t => if bool_decide (Task.id t = id)
                             then Task.update_updated_at_column now (set t) else t) rows) ->
    Task.locked_at t = None.
Proof.
  intros Hset Hothers t Hin. apply in_map_iff in Hin as (t0 & <- & Hin0).
  destruct (bool_decide (Task.id t0 = id)) eqn:Hb.
  - apply Hset.
  - apply bool_decide_eq_false in Hb. by apply Hothers.
Qed.

Lemma locked_rows_others now id workerId d :
  (forall t, In t (tasks d) -> Task.locked_at t = None) ->
  forall t, In t (tasks (after (TaskQueries.lockTask now id workerId) d)) ->
            Task.id t <> id -> Task.locked_at t = None.
Proof.
  intros Hfree t Hin Hne. unfold after in Hin. rewrite lockTask_run in Hin.
  cbv zeta in Hin.
  simpl in Hin. apply in_map_iff in Hin as (t0 & <- & Hin0).
  destruct (lockable id t0) eqn:Hlockable; [|by apply Hfree].
  unfold lockable in Hlockable.
  apply andb_true_iff in Hlockable as [Hlockable _].
  apply andb_true_iff in Hlockable as [Hid _].
  apply bool_decide_eq_true in Hid. by destruct Hne.
Qed.

(** One turn of the loop of [processDueTasks]: it does not raise, it leaves
    no lease behind, it adds at most one execution row, and it neither adds
    nor removes a task. *)
Lemma process_task_steps WORKER_ID env task d :
  exists d',
    process_task WORKER_ID env task d = (Return tt, d')
    /\ ((forall t, In t (tasks d) -> Task.locked_at t = None) ->
        forall t, In t (tasks d') -> Task.locked_at t = None)
    /\ (length (task_executions d') <= S (length (task_executions d)))%nat
    /\ List.map Task.id (tasks d') = List.map Task.id (tasks d).
Proof.
  unfold process_task.
  pose proof (lockTask_run (now env) (Task.id task) WORKER_ID d) as Hlock.
  cbv beta zeta in Hlock.
  assert (Hids : List.map Task.id
                   (tasks (after (TaskQueries.lockTask (now env) (Task.id task) WORKER_ID) d))
                 = List.map Task.id (tasks d)).
  { unfold after. rewrite Hlock. simpl. rewrite map_map.
    apply map_ext. intros t. by destruct (lockable _ t). }
  pose proof (locked_rows_others (now env) (Task.id task) WORKER_ID d) as Hothers.
  assert (Hafter : after (TaskQueries.lockTask (now env) (Task.id task) WORKER_ID) d
                   = with_tasks
                       (List.map (fun t => if lockable (Task.id task) t
                                           then Task.update_updated_at_column (now env)
                                                  (Task.with_lock (Some (now env))
                                                     (Some WORKER_ID) t)
                                           else t) (tasks d)) d)
    by (unfold after; by rewrite Hlock).
  rewrite <- Hafter in Hlock.
  set (dL := after (TaskQueries.lockTask (now env) (Task.id task) WORKER_ID) d) in *.
  assert (HexecL : task_executions dL = task_executions d) by (by rewrite Hafter).
  destruct (List.filter (lockable (Task.id task)) (tasks d)) as [|hit more] eqn:Hfilter.
  - erewrite bind_return by exact Hlock. cbn [first_row List.map hd_error].
    eexists. split; [reflexivity|]. split; [|split].
    + intros Hfree t Hin.
      destruct (decide (Task.id t = Task.id task)) as [Heq|Hne]; [|by apply Hothers].
      rewrite Hafter in Hin. simpl in Hin. apply in_map_iff in Hin as (t0 & <- & Hin0).
      destruct (lockable (Task.id task) t0) eqn:Hlockable; [|by apply Hfree].
      assert (Hin1 : In t0 (List.filter (lockable (Task.id task)) (tasks d)))
        by (by apply filter_In).
      by rewrite Hfilter in Hin1.
    + rewrite HexecL. lia.
    + exact Hids.
  - erewrite bind_return by exact Hlock. cbn [first_row List.map hd_error].
    unfold try_catch.
    pose proof (executeTask_outcome env task dL) as Hout.
    destruct (executeTask env task dL) as [[result|msg] d'] eqn:Hrun.
    + destruct Hout as (_ & _ & (e & Hexec & _) & Htasks & _).
      erewrite bind_return by exact Hrun.
      eexists. split; [reflexivity|]. split; [|split].
      * intros Hfree. rewrite Htasks.
        apply rows_unlocked_after; [done|]. intros t Hin Hne. by apply Hothers.
      * rewrite Hexec, length_app, HexecL. simpl. lia.
      * rewrite Htasks, <- Hids, map_map. apply map_ext.
        intros t. by destruct (bool_decide _).
    + destruct Hout as (Htasks & Hexec).
      erewrite bind_throw by exact Hrun.
      eexists. split; [reflexivity|].
      unfold mbind, M_bind, TaskQueries.unlockTask, update_tasks, mret, M_ret.
      cbn [snd tasks with_tasks task_executions].
      split; [|split].
      * intros Hfree. rewrite Htasks. apply rows_unlocked_after; [done|].
        intros t Hin Hne. by apply Hothers.
      * rewrite HexecL in Hexec. lia.
      * rewrite Htasks, <- Hids, map_map. apply map_ext. intros t.
        by destruct (bool_decide _).
Qed.

Lemma process_all_steps WORKER_ID env_of : forall dueTasks d,
  exists d',
    process_all WORKER_ID env_of dueTasks d = (Return tt, d')
    /\ ((forall t, In t (tasks d) -> Task.locked_at t = None) ->
        forall t, In t (tasks d') -> Task.locked_at t = None)
    /\ (length (task_executions d')
        <= length (task_executions d) + length dueTasks)%nat
    /\ List.map Task.id (tasks d') = List.map Task.id (tasks d).
Proof.
  induction dueTasks as [|task rest IH]; intros d.
  - exists d. simpl. repeat split; auto; lia.
  - destruct (process_task_steps WORKER_ID (env_of task) task d)
      as (d1 & Hstep & Hfree1 & Hexec1 & Hids1).
    destruct (IH d1) as (d' & Hrest & Hfree & Hexec & Hids).
    exists d'. simpl. erewrite bind_return by exact Hstep.
    split; [exact Hrest|]. split; [auto|]. split; [lia | congruence].
Qed.

(** [processDueTasks] never raises. A worker that is not running does
    nothing. A running worker leaves no lease behind (if no task was leased
    before, none is afterwards), runs at most [batchSize] executions, and
    neither adds nor removes a task. *)
Theorem processDueTasks_spec (isRunning : bool) (WORKER_ID : jsstring) (cfg : Config)
    (clock : Z) (env_of : Task.row -> Env) (d : db) :
  exists d',
    processDueTasks isRunning WORKER_ID cfg clock env_of d = (Return tt, d')
    /\ (isRunning = false -> d' = d)
    /\ ((forall t, In t (tasks d) -> Task.locked_at t = None) ->
        forall t, In t (tasks d') -> Task.locked_at t = None)
    /\ (length (task_executions d')
        <= length (task_executions d) + Z.to_nat (batchSize cfg))%nat
    /\ List.map Task.id (tasks d') = List.map Task.id (tasks d).
Proof.
  unfold processDueTasks. destruct isRunning; cbn [negb].
  2:{ exists d. repeat split; auto. lia. }
  unfold try_catch, TaskQueries.getDueTasks. unfold mbind at 1, M_bind at 1.
  destruct (batchSize cfg <? 0).
  { exists d. repeat split; auto; try discriminate. lia. }
  match goal with
  | |- context [process_all _ _ ?l d] =>
      destruct (process_all_steps WORKER_ID env_of l d)
        as (d' & Hrun & Hfree & Hexec & Hids);
      assert (Hbatch : (length l <= Z.to_nat (batchSize cfg))%nat)
        by (rewrite length_firstn; lia)
  end.
  rewrite Hrun. exists d'. split; [reflexivity|]. split; [discriminate|].
  split; [exact Hfree|]. split; [lia | exact Hids].
Qed.

End Bookkeeping.

Section BookkeepingExamples.
Import Reference.
Local Existing Instance node.
Local Open Scope Z_scope.

Lemma executeTask_records_witness :
  let env := refusing 1765965600000 in
  let result := sendWebhook env reminder (Task.callback_config reminder) in
  let d' := after (executeTask env reminder) sample_db in
  task_exists (Task.id reminder) sample_db = true
  /\ (Task.callback_type reminder = Webhook ->
      result = sendWebhook env reminder (Task.callback_config reminder))
  /\ (exists e,
        task_executions d' = task_executions sample_db ++ [e]
        /\ Execution.id e = gen_random_uuid env
        /\ Execution.task_id e = Task.id reminder
        /\ Execution.executed_at e = now env
        /\ Execution.completed_at e = Some (now env + elapsed env)
        /\ Execution.status e = (if Dispatch.success result then Success else ExecFailed)
        /\ Execution.response_code e = nonzero (Dispatch.statusCode result)
        /\ Execution.response_body e = or_null (Dispatch.body result)
        /\ Execution.duration_ms e = Some (elapsed env)
        /\ Execution.error_message e = or_null (Dispatch.error result))
  /\ tasks d'
     = List.map (fun t =>
         if bool_decide (Task.id t = Task.id reminder)
         then TaskQueries.recorded (now env + elapsed env)
                (fst (advance_of env reminder)) (snd (advance_of env reminder)) t
         else t) (tasks sample_db)
  /\ (forall t, In t (tasks d') -> Task.id t = Task.id reminder ->
        Task.locked_at t = None
        /\ Task.last_executed_at t = Some (now env + elapsed env)
        /\ (Task.task_type reminder = One_time -> Task.status t = Completed))
  /\ (Task.callback_type reminder = Store -> Dispatch.success result = true ->
      exists n,
        stored_notifications d' = stored_notifications sample_db ++ [n]
        /\ Notification.task_id n = Task.id reminder
        /\ Notification.session_id n = Task.created_by reminder
        /\ Notification.read_at n = None)
  /\ (Task.callback_type reminder <> Store ->
      stored_notifications d' = stored_notifications sample_db).
Proof.
  intros env result d'.
  apply (executeTask_records env reminder sample_db result d').
  vm_compute. reflexivity.
Defined.

(** A peer whose answer holds the code unit 0: the execution row cannot be
    finished, [executeTask] raises, and the poll frees the task, which is
    due again. *)
Example processDueTasks_unstorable_response :
  let env := {|
    config := default_config; now := 1765965600000; elapsed := 25;
    uuidv4 := uuidv4 (refusing 0); gen_random_uuid := gen_random_uuid (refusing 0);
    dns := dns (refusing 0);
    fetch := fun _ => Responded {| resp_status := 200; resp_statusText := js "OK";
                                   resp_location := None;
                                   resp_text := [0%N] |};
    sendSlackNotification := sendSlackNotification (refusing 0);
    sendEmailNotification := sendEmailNotification (refusing 0) |} in
  let d' := after (processDueTasks true (js "worker-1a2b3c4d") default_config
                     1765965600000 (fun _ => env)) sample_db in
  fst (executeTask env reminder sample_db)
  = Throw (js "invalid byte sequence for encoding UTF8: 0x00")
  /\ List.map (fun t => (Task.status t, Task.locked_at t, Task.execution_count t))
              (tasks d')
     = [ (Active, None, 0); (Paused, None, 5) ]
  /\ List.map Execution.status (task_executions d') = [Running]
  /\ List.map Task.id (due_tasks 1765965600000 d') = [Task.id reminder].
Proof. vm_compute. done. Qed.

(** One poll over the sample store: the due reminder is executed (the peer
    answers 503) and ends [completed] and unleased; the paused task is not
    touched. *)
Example processDueTasks_sample :
  let d' := after (processDueTasks true (js "worker-1a2b3c4d") default_config
                     1765965600000 (fun _ => refusing 1765965600000)) sample_db in
  List.map (fun t => (Task.status t, Task.locked_at t, Task.execution_count t)) (tasks d')
  = [ (Completed, None, 1); (Paused, None, 5) ]
  /\ List.map Execution.status (task_executions d') = [ExecFailed].
Proof. vm_compute. done. Qed.

End BookkeepingExamples.

(** ** [list_tasks] and [get_task] *)

Section Reading.
Local Open Scope Z_scope.

Lemma skipn_In {A : Type} n : forall (l : list A) x, In x (skipn n l) -> In x l.
Proof.
  induction n as [|n IH]; intros [|y l] x; simpl; try done.
  intros Hin. right. by apply IH.
Qed.

Lemma skipn_sorted {A : Type} (R : A -> A -> Prop) n : forall l,
  Sorted R l -> Sorted R (skipn n l).
Proof.
  induction n as [|n IH]; intros [|x l] Hsorted; simpl; try done.
  apply IH. by apply Sorted_inv in Hsorted as [? _].
Qed.

Lemma newest_first {A : Type} (at_ : A -> Z) (l : list A) :
  Sorted (fun a b => at_ b <= at_ a) (order_by (fun x => Some (- at_ x)) l).
Proof.
  eapply Sorted_ind with (P := fun l => Sorted (fun a b => at_ b <= at_ a) l);
    [constructor | | apply (order_by_sorted (fun x => Some (- at_ x)))].
  intros a l0 _ IH Hhd. constructor; [exact IH|].
  destruct Hhd as [|b l1 Hle]; constructor.
  simpl in Hle. apply Z.leb_le in Hle. lia.
Qed.

Lemma int_or_spec x fallback :
  TaskQueries.int_or (Some x) fallback = if x =? 0 then fallback else x.
Proof. by destruct x. Qed.

(** [list_tasks] with [limit] and [offset] safe integers (when they are
    given). It changes nothing and never raises. With a negative [limit] it
    fails. The rows it returns are at most 200 rows of the store, and at
    most [limit] of them (a [limit] of 0 is read as the default of 50),
    newest first; with a session id in the context every row returned was
    created by that session; with no [status] argument every row returned is
    active, and with a [status] other than [all] every row has that status. *)
Theorem list_tasks_spec (env : Env) (params : Params.t) (context : Context) (d : db) :
  (forall n, Params.limit params = Some n -> safe_integer n = true) ->
  (forall n, Params.offset params = Some n -> safe_integer n = true) ->
  exists r,
    list_tasks env params context d = (Return r, d)
    /\ (default 50 (Params.limit params) < 0 -> Reply.success r = false)
    /\ (Reply.success r = false -> Reply.rows r = [])
    /\ (length (Reply.rows r) <= 200)%nat
    /\ (Params.limit params = Some 0 -> (length (Reply.rows r) <= 50)%nat)
    /\ (forall n, Params.limit params = Some n -> 0 < n ->
                  (length (Reply.rows r) <= Z.to_nat n)%nat)
    /\ Sorted (fun a b => Task.created_at b <= Task.created_at a) (Reply.rows r)
    /\ (forall t, In t (Reply.rows r) ->
          In t (tasks d)
          /\ (truthy_opt (sessionId context) = true ->
              Task.created_by t = sessionId context)
          /\ (Params.status params = None -> Task.status t = Active)
          /\ (forall s, Params.status params = Some s -> s <> [] -> s <> js "all" ->
              status_text (Task.status t) = s)).
Proof.
  intros _ _.
  unfold list_tasks, try_catch, TaskQueries.list.
  unfold mbind, M_bind, mret, M_ret.
  cbn [TaskQueries.f_status TaskQueries.f_taskType TaskQueries.f_tags
       TaskQueries.f_limit TaskQueries.f_offset TaskQueries.f_createdBy].
  cbv zeta. rewrite int_or_spec.
  set (limit := default 50 (Params.limit params)).
  set (effective := Z.min (if Z.min limit 200 =? 0 then 50 else Z.min limit 200) 200).
  assert (Heffective : effective <= 200 /\ (effective < 0 <-> limit < 0)
                       /\ (limit = 0 -> effective = 50)
                       /\ (0 < limit -> effective <= limit)).
  { unfold effective. destruct (Z.eqb_spec (Z.min limit 200) 0); lia. }
  destruct Heffective as (Hmost & Hneg & Hzero & Hpos).
  destruct (negb (int8 effective && int8 _)).
  { eexists. split; [reflexivity|]. cbn [Reply.success Reply.rows Reply.failure].
    repeat split; try (simpl; lia); try constructor; by intros. }
  destruct (Z.ltb_spec effective 0) as [Hbad|Hgood].
  - eexists. split; [reflexivity|]. cbn [Reply.success Reply.rows Reply.failure].
    repeat split; try (simpl; lia); try constructor; by intros.
  - eexists. split; [reflexivity|]. cbn [Reply.success Reply.rows].
    split; [lia|]. split; [discriminate|].
    match goal with
    | |- context [firstn _ (skipn ?o (order_by ?k (List.filter ?f (tasks d))))] =>
        set (offset := o); set (keep := f)
    end.
    split; [rewrite length_firstn; lia|].
    split; [intros Hlimit; rewrite length_firstn;
            assert (limit = 0) by (unfold limit; by rewrite Hlimit); lia|].
    split; [intros n Hlimit Hn; rewrite length_firstn;
            assert (limit = n) by (unfold limit; by rewrite Hlimit); lia|].
    split; [apply firstn_sorted, skipn_sorted, newest_first|].
    intros t Hin. apply firstn_In, skipn_In, order_by_In, filter_In in Hin
      as [Hin Hkeep].
    split; [exact Hin|]. unfold keep in Hkeep.
    apply andb_true_iff in Hkeep as [Hkeep _].
    apply andb_true_iff in Hkeep as [Hkeep Howner].
    apply andb_true_iff in Hkeep as [Hstatus _].
    split; [|split].
    + intros Hsession. rewrite Hsession in Howner. by apply bool_decide_eq_true in Howner.
    + intros Hdefault. rewrite Hdefault in Hstatus.
      change (truthy_opt (Some (default (js "active") None))) with true in Hstatus.
      rewrite (bool_decide_eq_false_2 (Some (default (js "active") None) = Some (js "all")))
        in Hstatus by (by vm_compute).
      cbn [negb andb] in Hstatus. apply bool_decide_eq_true in Hstatus.
      by destruct (Task.status t).
    + intros s Hgiven Hne Hall. rewrite Hgiven in Hstatus.
      cbn [default from_option id] in Hstatus.
      destruct s as [|c s]; [done|].
      change (truthy_opt (Some (c :: s))) with true in Hstatus.
      rewrite (bool_decide_eq_false_2 (Some (c :: s) = Some (js "all")))
        in Hstatus by congruence.
      cbn [negb andb] in Hstatus. apply bool_decide_eq_true in Hstatus. congruence.
Qed.

(** [get_task] with an id in the form in which the database prints a UUID
    (when one is given at all). It changes nothing and never raises. It
    succeeds exactly when a task has the id; it then returns that task with
    at most 10 executions, all of them of this task, newest first, and none
    when [include_history] is false. *)
Theorem get_task_spec (env : Env) (params : Params.t) (context : Context) (d : db) :
  (forall id, Params.id params = Some id -> canonical_uuid id = true) ->
  exists r,
    get_task env params context d = (Return r, d)
    /\ (Reply.success r = true
        <-> exists t, In t (tasks d) /\ Some (Task.id t) = Params.id params)
    /\ (forall t, In t (Reply.rows r) ->
          In t (tasks d) /\ Some (Task.id t) = Params.id params)
    /\ (Reply.success r = true -> length (Reply.rows r) = 1%nat)
    /\ (length (Reply.executionHistory r) <= 10)%nat
    /\ (Params.include_history params = Some false -> Reply.executionHistory r = [])
    /\ Sorted (fun a b => Execution.executed_at b <= Execution.executed_at a)
              (Reply.executionHistory r)
    /\ (forall e, In e (Reply.executionHistory r) ->
          In e (task_executions d) /\ Some (Execution.task_id e) = Params.id params).
Proof.
  intros _.
  unfold get_task, try_catch, TaskQueries.getById, ExecutionQueries.getByTaskId.
  unfold mbind, M_bind, mret, M_ret. cbv zeta.
  destruct (List.filter (fun t => bool_decide (Some (Task.id t) = Params.id params))
                        (tasks d)) as [|task rest] eqn:Hfilter;
    cbn [first_row hd_error].
  - eexists. split; [reflexivity|]. cbn [Reply.success Reply.rows Reply.failure
      Reply.executionHistory].
    split.
    { split; [discriminate|]. intros (t & Hin & Hid).
      assert (Hhit : In t (List.filter
                 (fun t => bool_decide (Some (Task.id t) = Params.id params)) (tasks d)))
        by (apply filter_In; split; [done | by apply bool_decide_eq_true_2]).
      by rewrite Hfilter in Hhit. }
    repeat split; try done; try (simpl; lia); constructor.
  - assert (Htask : In task (tasks d) /\ Some (Task.id task) = Params.id params).
    { assert (Hin : In task (task :: rest)) by (by left).
      rewrite <- Hfilter in Hin. apply filter_In in Hin as [Hin Hid].
      by apply bool_decide_eq_true in Hid. }
    destruct (default true (Params.include_history params)) eqn:Hhistory;
      eexists; (split; [reflexivity|]);
      cbn [Reply.success Reply.rows Reply.executionHistory];
      (split; [split; [intros _; exists task; exact Htask | done]|]);
      (split; [by intros t [<-|[]]|]); (split; [done|]).
    + split; [rewrite length_firstn; lia|].
      split; [intros Hoff; by rewrite Hoff in Hhistory|].
      split; [apply firstn_sorted, newest_first|].
      intros e Hin. apply firstn_In, order_by_In, filter_In in Hin as [Hin Hid].
      by apply bool_decide_eq_true in Hid.
    + repeat split; try done; try (simpl; lia); constructor.
Qed.

End Reading.

Section ReadingExamples.
Import Reference.
Local Open Scope Z_scope.

(** [limit: 0] gives the default page, and a negative [limit] is an error
    of the database. *)
Example list_tasks_limits :
  let with_limit := fun n => {|
    Params.name := None; Params.description := None;
    Params.at_ := None; Params.in_ := None; Params.cron := None;
    Params.timezone := None; Params.callback_ := None; Params.payload := None;
    Params.tags := None; Params.retries := None; Params.enabled := None;
    Params.id := None; Params.include_history := None;
    Params.status := Some (js "all");
    Params.type_ := None; Params.limit := Some n; Params.offset := None |} in
  List.map Task.name
    (Reply.rows (default (Reply.failure [])
       (match fst (list_tasks (refusing 0) (with_limit 0) session_1 sample_db) with
        | Return r => Some r | Throw _ => None end)))
  = [Task.name reminder; Task.name standup]
  /\ fst (list_tasks (refusing 0) (with_limit (-1)) session_1 sample_db)
     = Return (Reply.failure (js "Failed to list tasks: LIMIT must not be negative")).
Proof. vm_compute. done. Qed.

(** The first page of one row, for a session that owns two tasks, one of
    them active. *)
Lemma list_tasks_spec_witness :
  let params := {|
    Params.name := None; Params.description := None;
    Params.at_ := None; Params.in_ := None; Params.cron := None;
    Params.timezone := None; Params.callback_ := None; Params.payload := None;
    Params.tags := None; Params.retries := None; Params.enabled := None;
    Params.id := None; Params.include_history := None;
    Params.status := None;
    Params.type_ := None; Params.limit := Some 1; Params.offset := Some 0 |} in
  exists r,
    list_tasks (refusing 0) params session_1 sample_db = (Return r, sample_db)
    /\ (default 50 (Params.limit params) < 0 -> Reply.success r = false)
    /\ (Reply.success r = false -> Reply.rows r = [])
    /\ (length (Reply.rows r) <= 200)%nat
    /\ (Params.limit params = Some 0 -> (length (Reply.rows r) <= 50)%nat)
    /\ (forall n, Params.limit params = Some n -> 0 < n ->
                  (length (Reply.rows r) <= Z.to_nat n)%nat)
    /\ Sorted (fun a b => Task.created_at b <= Task.created_at a) (Reply.rows r)
    /\ (forall t, In t (Reply.rows r) ->
          In t (tasks sample_db)
          /\ (truthy_opt (sessionId session_1) = true ->
              Task.created_by t = sessionId session_1)
          /\ (Params.status params = None -> Task.status t = Active)
          /\ (forall s, Params.status params = Some s -> s <> [] -> s <> js "all" ->
              status_text (Task.status t) = s)).
Proof.
  intros params.
  apply (list_tasks_spec (refusing 0) params session_1 sample_db);
    intros n [= <-]; reflexivity.
Defined.

Lemma get_task_spec_witness :
  exists r,
    get_task (refusing 0) (params_with_id (Task.id standup)) session_1 sample_db
    = (Return r, sample_db)
    /\ (Reply.success r = true
        <-> exists t, In t (tasks sample_db)
                      /\ Some (Task.id t) = Params.id (params_with_id (Task.id standup)))
    /\ (forall t, In t (Reply.rows r) ->
          In t (tasks sample_db)
          /\ Some (Task.id t) = Params.id (params_with_id (Task.id standup)))
    /\ (Reply.success r = true -> length (Reply.rows r) = 1%nat)
    /\ (length (Reply.executionHistory r) <= 10)%nat
    /\ (Params.include_history (params_with_id (Task.id standup)) = Some false ->
        Reply.executionHistory r = [])
    /\ Sorted (fun a b => Execution.executed_at b <= Execution.executed_at a)
              (Reply.executionHistory r)
    /\ (forall e, In e (Reply.executionHistory r) ->
          In e (task_executions sample_db)
          /\ Some (Execution.task_id e) = Params.id (params_with_id (Task.id standup))).
Proof.
  apply (get_task_spec (refusing 0) (params_with_id (Task.id standup)) session_1
           sample_db).
  intros id [= <-]. vm_compute. reflexivity.
Defined.

(** The forms of an id: the one that the database prints, and two that it
    does not. *)
Example canonical_uuid_forms :
  canonical_uuid (js "3f2b8a10-9c4d-4e7a-8b1f-5d6e7f809a1b") = true
  /\ canonical_uuid (js "3F2B8A10-9C4D-4E7A-8B1F-5D6E7F809A1B") = false
  /\ canonical_uuid (js "3f2b8a109c4d4e7a8b1f5d6e7f809a1b") = false.
Proof. vm_compute. done. Qed.

End ReadingExamples.

(** ** The notification endpoints of index.js *)

Section NotificationEndpoints.
Context `{Platform}.
Import Server.
Local Open Scope Z_scope.
Variable uuid_in : jsstring -> option jsstring.

Lemma get_notifications_reads x_session_id session_id d :
  exists r, get_notifications x_session_id session_id d = (Return r, d).
Proof. unfold get_notifications. cbv zeta. destruct (negb _); eauto. Qed.

(** Reading after marking. [POST /notifications/read] with an array of
    UUIDs answers 200 with [marked] the length of the array, whether or not
    the ids denote notifications; it touches no task and no execution; and
    from then on [GET /notifications], for whatever session, returns none of
    the notifications named, only unread rows that the call left as they
    were. With a text that is no UUID, or without an array, the call changes
    nothing. *)
Theorem mark_then_get (now : Z) (ids : option (list jsstring)) (d : db)
    (x_session_id session_id : option jsstring) :
  exists r d' r',
    mark_notifications_read uuid_in now ids d = (Return r, d')
    /\ get_notifications x_session_id session_id d' = (Return r', d')
    /\ tasks d' = tasks d /\ task_executions d' = task_executions d
    /\ (http_status r <> 200 -> d' = d)
    /\ (http_status r = 200
        <-> exists l, ids = Some l
                      /\ forall i, In i l -> is_Some (uuid_in i))
    /\ (forall l, ids = Some l -> http_status r = 200 ->
          reply_count r = Z.of_nat (length l)
          /\ forall n, In n (notifications r') ->
               In n (stored_notifications d)
               /\ Notification.read_at n = None
               /\ forall i, In i l -> uuid_in i <> Some (Notification.id n)).
Proof.
  unfold mark_notifications_read.
  destruct ids as [l|].
  2:{ destruct (get_notifications_reads x_session_id session_id d) as [r' Hr'].
      eexists _, d, r'. split; [reflexivity|]. split; [exact Hr'|].
      repeat split; try done. intros (l & Hl & _). discriminate. }
  destruct (forallb (fun i => bool_decide (is_Some (uuid_in i))) l) eqn:Hvalid;
    cbn [negb].
  - unfold get_notifications. cbv zeta.
    set (sessionId := if truthy_opt x_session_id then x_session_id else session_id).
    destruct (truthy_opt sessionId) eqn:Hsession; cbn [negb].
    + eexists _, _, _. split; [reflexivity|].
      split; [reflexivity|]. split; [done|]. split; [done|].
      cbn [http_status reply_count notifications].
      split; [done|]. split.
      { split; [|done]. intros _. exists l. split; [done|].
        intros i Hi. rewrite forallb_forall in Hvalid.
        by eapply bool_decide_eq_true_1, Hvalid. }
      intros l' [= <-] _. split; [done|].
      intros n Hin. apply firstn_In, order_by_In, filter_In in Hin as [Hin Hkeep].
      cbn [stored_notifications with_stored_notifications] in Hin.
      apply in_map_iff in Hin as (n0 & Hn0 & Hin0).
      apply andb_true_iff in Hkeep as [_ Hunread].
      destruct (existsb (fun i => bool_decide (uuid_in i = Some (Notification.id n0))) l)
        eqn:Hnamed.
      * rewrite <- Hn0 in Hunread. discriminate.
      * subst n0. split; [exact Hin0|].
        split; [by destruct (Notification.read_at n)|].
        intros i Hi Heq.
        assert (Hex : existsb
                  (fun i => bool_decide (uuid_in i = Some (Notification.id n))) l = true)
          by (apply existsb_exists; exists i; split;
              [done | by apply bool_decide_eq_true_2]).
        congruence.
    + eexists _, _, _. split; [reflexivity|].
      split; [reflexivity|]. split; [done|]. split; [done|].
      cbn [http_status reply_count notifications refused].
      split; [done|]. split.
      { split; [|done]. intros _. exists l. split; [done|].
        intros i Hi. rewrite forallb_forall in Hvalid.
        by eapply bool_decide_eq_true_1, Hvalid. }
      intros l' [= <-] _. split; [done|]. by intros n [].
  - destruct (get_notifications_reads x_session_id session_id d) as [r' Hr'].
    eexists _, d, r'. split; [reflexivity|]. split; [exact Hr'|].
    cbn [http_status refused]. split; [done|]. split; [done|]. split; [done|].
    split; [|by intros l' _ ?].
    split; [done|]. intros (l' & [= <-] & Hall).
    assert (Hok : forallb (fun i => bool_decide (is_Some (uuid_in i))) l = true).
    { apply forallb_forall. intros i Hi. by apply bool_decide_eq_true_2, Hall. }
    congruence.
Qed.

(** From the worker to the client. When [executeTask] has returned a
    success for a task with a [store] callback that a session owns,
    [GET /notifications] with that session id returns the notification of the
    task, as long as the session had fewer than 50 unread notifications
    before. *)
Theorem stored_notification_is_delivered (env : Env) (task : Task.row) (d : db)
    (session : jsstring) (result : Dispatch.result) (d' : db) :
  executeTask env task d = (Return result, d') ->
  Dispatch.success result = true ->
  Task.callback_type task = Store ->
  Task.created_by task = Some session ->
  session <> [] ->
  (length (List.filter (fun n => bool_decide (Notification.session_id n = Some session)
                                 && is_null (Notification.read_at n))
                       (stored_notifications d)) < 50)%nat ->
  exists r n,
    stored_notifications d' = stored_notifications d ++ [n]
    /\ Notification.task_id n = Task.id task
    /\ get_notifications (Some session) None d' = (Return r, d')
    /\ http_status r = 200
    /\ In n (notifications r).
Proof.
  intros Hrun Hok Hstore Howner Hsession Hfew.
  pose proof (executeTask_outcome env task d) as Hout. rewrite Hrun in Hout.
  destruct Hout as (_ & _ & _ & _ & Hnote).
  rewrite Hstore, bool_decide_eq_true_2 in Hnote by done.
  destruct Hnote as (n & Hnotes & Htask & Hsess & Hunread & _).
  eexists _, n.
  split; [exact Hnotes|]. split; [exact Htask|].
  destruct session as [|c session]; [done|].
  unfold get_notifications. cbv zeta. cbn [truthy_opt truthy negb].
  split; [reflexivity|]. split; [reflexivity|]. cbn [notifications].
  rewrite Hnotes, filter_app. cbn [List.filter].
  rewrite Hsess, Howner, Hunread, bool_decide_eq_true_2 by done. cbn [andb is_null].
  rewrite firstn_all2.
  - apply order_by_In, in_or_app. right. by left.
  - rewrite order_by_length, length_app. simpl. lia.
Qed.

End NotificationEndpoints.

Section NotificationExamples.
Import Reference Server.
Local Existing Instance node.
Local Open Scope Z_scope.

(** A task of the session with a [store] callback. *)
Lemma stored_notification_is_delivered_witness :
  let env := refusing 1765965600000 in
  let note : Task.row := {|
    Task.id := Task.id reminder; Task.name := Task.name reminder;
    Task.description := None; Task.task_type := One_time;
    Task.scheduled_at := Task.scheduled_at reminder; Task.cron_expression := None;
    Task.timezone := Task.timezone reminder;
    Task.next_run_at := Task.next_run_at reminder;
    Task.callback_type := Store;
    Task.callback_config := {| Db.url := None; Db.channel := None; Db.email := None |};
    Task.payload := Task.payload reminder; Task.status := Active;
    Task.max_retries := 3; Task.retry_delay_seconds := 60;
    Task.current_retry_count := 0; Task.last_executed_at := None;
    Task.execution_count := 0; Task.created_at := Task.created_at reminder;
    Task.updated_at := Task.updated_at reminder;
    Task.created_by := Some (js "session-1"); Task.tags := [];
    Task.locked_at := None; Task.locked_by := None |} in
  let d := with_tasks [note; standup] sample_db in
  let d' := after (executeTask env note) d in
  exists r n,
    stored_notifications d' = stored_notifications d ++ [n]
    /\ Notification.task_id n = Task.id note
    /\ get_notifications (Some (js "session-1")) None d' = (Return r, d')
    /\ http_status r = 200
    /\ In n (notifications r).
Proof.
  intros env note d d'.
  apply (stored_notification_is_delivered env note d (js "session-1")
           {| Dispatch.success := true; Dispatch.statusCode := None;
              Dispatch.body := None; Dispatch.error := None |} d');
    try reflexivity; [discriminate | simpl; lia].
Defined.

End NotificationExamples.

(** ** Invariants of the database along tool calls and worker steps *)

Section KeepsRules.
Import Operation.
Context {I : db -> Prop}.

Lemma keeps_ret {A : Type} (a : A) (Q : A -> Prop) :
  Q a -> keeps I (mret a) Q.
Proof. by intros Ha d Hd. Qed.

Lemma keeps_throw {A : Type} msg (Q : A -> Prop) :
  keeps I (throw msg) Q.
Proof. by intros d Hd. Qed.

Lemma keeps_bind {A B : Type} (m : M A) (k : A -> M B) (Q : A -> Prop) (R : B -> Prop) :
  keeps I m Q ->
  (forall a, Q a -> keeps I (k a) R) ->
  keeps I (m ≫= k) R.
Proof.
  intros Hm Hk d Hd. specialize (Hm d Hd). unfold mbind, M_bind.
  destruct (m d) as [[a|msg] d1]; [|done].
  destruct Hm as [Hd1 Ha]. exact (Hk a Ha d1 Hd1).
Qed.

Lemma keeps_try {A : Type} (body : M A) (handler : jsstring -> M A) (R : A -> Prop) :
  keeps I body R ->
  (forall msg, keeps I (handler msg) R) ->
  keeps I (try_catch body handler) R.
Proof.
  intros Hbody Hhandler d Hd. specialize (Hbody d Hd). unfold try_catch.
  destruct (body d) as [[a|msg] d1]; [done|]. exact (Hhandler msg d1 Hbody).
Qed.

Lemma keeps_weaken {A : Type} (m : M A) (Q R : A -> Prop) :
  keeps I m Q -> (forall a, Q a -> R a) -> keeps I m R.
Proof.
  intros Hm HQR d Hd. specialize (Hm d Hd).
  destruct (m d) as [[a|msg] d1]; [|done]. destruct Hm. auto.
Qed.

End KeepsRules.

Section Registry.

(** What [toolHandlers.get(name)] finds is an entry of the array [tools]. *)
Lemma new_Map_lookup {V : Type} (entries : list (jsstring * V)) key v :
  Map_get (new_Map entries) key = Some v -> In (key, v) entries.
Proof.
  unfold new_Map, Map_get.
  assert (Hacc : forall (m : gmap jsstring V),
            fold_left (fun m kv => <[fst kv := snd kv]> m) entries m !! key = Some v ->
            In (key, v) entries \/ m !! key = Some v).
  { induction entries as [|[k x] entries IH]; intros m Hm; [by right|].
    simpl in Hm. apply IH in Hm as [Hin|Hm]; [left; by right|].
    destruct (decide (k = key)) as [->|Hne].
    - rewrite lookup_insert_eq in Hm. injection Hm as ->. left. by left.
    - rewrite lookup_insert_ne in Hm by done. by right. }
  intros Hget. destruct (Hacc ∅ Hget) as [Hin|Hempty]; [done|].
  by rewrite lookup_empty in Hempty.
Qed.

End Registry.

(** ** Finished tasks stay as they are *)

Section Finished.
Context `{Platform}.
Import Operation.
Local Open Scope Z_scope.

Variables (id : jsstring) (L : list Task.row).
Hypothesis L_exists : L <> [].
Hypothesis L_finished : Forall finished_row L.
Local Set Default Proof Using "All".

Local Abbreviation unchanged := (fun d : db => rows_of id d = L).
Local Abbreviation anything := (fun _ => True).

(** A computation that leaves the table [tasks] alone. *)
Lemma keeps_same_tasks {A : Type} (m : M A) :
  (forall d, tasks (snd (m d)) = tasks d) -> keeps unchanged m anything.
Proof.
  intros Hsame d Hd. specialize (Hsame d). unfold rows_of in *.
  destruct (m d) as [[a|msg] d1]; simpl in Hsame; rewrite Hsame; auto.
Qed.

Lemma row_of_L d t : rows_of id d = L -> In t (tasks d) -> Task.id t = id -> In t L.
Proof.
  intros Hd Hin Hid. rewrite <- Hd. apply filter_In.
  split; [done | by apply bool_decide_eq_true_2].
Qed.

Lemma finished_in_L t : In t L -> finished_row t.
Proof. intros Hin. by apply (proj1 (Forall_forall _ _) L_finished). Qed.

Lemma some_row d : rows_of id d = L -> exists t, In t (tasks d) /\ Task.id t = id.
Proof.
  intros Hd. destruct L as [|t rest] eqn:HL; [done|].
  assert (Hin : In t (rows_of id d)) by (rewrite Hd; by left).
  apply filter_In in Hin as [Hin Hid]. apply bool_decide_eq_true in Hid. eauto.
Qed.

(** An UPDATE that keeps the ids and whose condition no finished row of the
    task meets. *)
Lemma update_tasks_keeps now (cond : Task.row -> bool) (set : Task.row -> Task.row) :
  (forall t, Task.id (set t) = Task.id t) ->
  (forall t, Task.id t = id -> finished_row t -> cond t = false) ->
  keeps unchanged (update_tasks now cond set) anything.
Proof.
  intros Hids Hcond d Hd. unfold update_tasks. split; [|done].
  rewrite <- Hd. unfold rows_of. cbn [tasks with_tasks].
  assert (Hrows : forall t, In t (tasks d) -> Task.id t = id -> cond t = false).
  { intros t Hin Hid. apply Hcond; [done|]. apply finished_in_L.
    by apply (row_of_L d). }
  clear Hd. induction (tasks d) as [|t rows IH]; [done|]. simpl.
  rewrite IH by (intros t' Ht'; apply Hrows; by right).
  destruct (cond t) eqn:Hc; [|done].
  change (Task.id (Task.update_updated_at_column now (set t))) with (Task.id (set t)).
  rewrite Hids.
  destruct (bool_decide (Task.id t = id)) eqn:Hb; [|done].
  apply bool_decide_eq_true in Hb. rewrite Hrows in Hc by (by left || done). done.
Qed.

Lemma getById_keeps id' :
  keeps unchanged (TaskQueries.getById id')
    (fun found => forall task, found = Some task ->
       Some (Task.id task) = id' /\ (Task.id task = id -> finished_row task)).
Proof.
  intros d Hd. unfold TaskQueries.getById. split; [done|].
  intros task Hfound.
  destruct (List.filter _ (tasks d)) as [|t rest] eqn:Hfilter; [done|].
  injection Hfound as ->.
  assert (Hin : In task (task :: rest)) by (by left).
  rewrite <- Hfilter in Hin. apply filter_In in Hin as [Hin Hid].
  apply bool_decide_eq_true in Hid. split; [done|].
  intros Hours. apply finished_in_L. by apply (row_of_L d).
Qed.

Lemma create_keeps now uuid task :
  keeps unchanged (TaskQueries.create now uuid task) (fun row => Task.id row <> id).
Proof.
  intros d Hd.
  destruct (TaskQueries.create now uuid task d) as [[row|msg] d1] eqn:Hcreate.
  - apply create_inserted in Hcreate as (-> & Hid & Hfresh & _).
    destruct (some_row d Hd) as (t & Hin & Ht).
    assert (Hne : Task.id row <> id).
    { rewrite Hid. intros ->. by apply (fresh_id _ _ Hfresh t Hin). }
    split; [|done]. unfold rows_of in *. cbn [tasks with_tasks].
    rewrite filter_app. simpl. rewrite bool_decide_eq_false_2 by done.
    by rewrite app_nil_r.
  - destruct (create_outcome now uuid task d) as [(e & Hc)|(row & Hc)];
      rewrite Hc in Hcreate; by simplify_eq.
Qed.

Lemma getDueTasks_keeps now batchSize :
  keeps unchanged (TaskQueries.getDueTasks now batchSize)
    (fun rows => forall t, In t rows -> Task.id t <> id).
Proof.
  intros d Hd. unfold TaskQueries.getDueTasks.
  destruct (batchSize <? 0); [done|]. split; [done|].
  intros t Hin Hid. apply firstn_In, order_by_In, filter_In in Hin as [Hin Hdue].
  destruct (finished_in_L t (row_of_L d t Hd Hin Hid)) as [Hstatus _].
  unfold is_due in Hdue. apply andb_true_iff in Hdue as [Hdue _].
  apply andb_true_iff in Hdue as [Hactive _]. apply bool_decide_eq_true in Hactive.
  destruct Hstatus; congruence.
Qed.

Lemma updateStatus_keeps now id' status :
  id' <> Some id ->
  keeps unchanged (TaskQueries.updateStatus now id' status) anything.
Proof.
  intros Hne. unfold TaskQueries.updateStatus.
  eapply keeps_bind; [|intros; by apply keeps_ret].
  apply update_tasks_keeps; [done|].
  intros t Hid _. apply bool_decide_eq_false_2. congruence.
Qed.

Lemma recordExecution_keeps now id' next completed :
  id' <> id ->
  keeps unchanged (TaskQueries.recordExecution now id' next completed) anything.
Proof.
  intros Hne d Hd.
  destruct (recordExecution_outcome now id' next completed d)
    as [(_ & ->)|(_ & r & ->)]; [done|].
  split; [|done].
  refine (proj1 (update_tasks_keeps now (fun t => bool_decide (Task.id t = id'))
            (fun t => Task.with_lock None None
               (Task.with_status (if completed then Completed else Task.status t)
                  (Task.with_next_run_at next
                     (Task.with_execution_count (Task.execution_count t + 1)
                        (Task.with_last_executed_at (Some now) t))))) _ _ d Hd)).
  - done.
  - intros t Hid _. apply bool_decide_eq_false_2. congruence.
Qed.

Lemma unlockTask_keeps now id' :
  id' <> id -> keeps unchanged (TaskQueries.unlockTask now id') anything.
Proof.
  intros Hne. unfold TaskQueries.unlockTask.
  eapply keeps_bind; [|intros; by apply keeps_ret].
  apply update_tasks_keeps; [done|].
  intros t Hid _. apply bool_decide_eq_false_2. congruence.
Qed.

Lemma lockTask_keeps now id' workerId :
  keeps unchanged (TaskQueries.lockTask now id' workerId) anything.
Proof.
  unfold TaskQueries.lockTask.
  eapply keeps_bind; [|intros; by apply keeps_ret].
  apply update_tasks_keeps; [done|].
  intros t _ [[Hst|Hst] _]; rewrite Hst;
    rewrite (bool_decide_eq_false_2 (_ = Active)) by done; apply andb_false_r.
Qed.

Lemma cleanupStaleLocks_keeps cfg clock :
  keeps unchanged (cleanupStaleLocks cfg clock) anything.
Proof.
  unfold cleanupStaleLocks.
  eapply keeps_bind; [|intros; by apply keeps_ret].
  apply update_tasks_keeps; [done|].
  intros t _ [_ Hlock]. by rewrite Hlock.
Qed.

Lemma executeTask_keeps env task :
  Task.id task <> id -> keeps unchanged (executeTask env task) anything.
Proof.
  intros Hne. unfold executeTask.
  eapply keeps_bind.
  { apply keeps_same_tasks. intros d. unfold ExecutionQueries.create.
    by repeat case_match. }
  intros execution _. eapply (keeps_bind _ _ anything).
  { apply keeps_try; [|intros; by apply keeps_ret].
    apply keeps_same_tasks. intros d. unfold dispatch.
    destruct (Task.callback_type task); try reflexivity.
    unfold mbind, M_bind, store_notification. by destruct (negb _). }
  intros result _. cbv zeta. eapply keeps_bind.
  { apply keeps_same_tasks. intros d.
    match goal with
    | |- context [ExecutionQueries.complete ?a ?b ?c ?e ?f ?g ?h d] =>
        by destruct (complete_frame a b c e f g h d) as (? & _)
    end. }
  intros _ _. eapply keeps_bind; [|intros; by apply keeps_ret].
  destruct (Task.task_type task); by apply recordExecution_keeps.
Qed.

Lemma process_all_keeps WORKER_ID env_of : forall dueTasks,
  (forall t, In t dueTasks -> Task.id t <> id) ->
  keeps unchanged (process_all WORKER_ID env_of dueTasks) anything.
Proof.
  induction dueTasks as [|task rest IH]; intros Hne; [by apply keeps_ret|].
  simpl. eapply (keeps_bind _ _ anything);
    [|intros; apply IH; intros t Ht; apply Hne; by right].
  unfold process_task. eapply keeps_bind; [apply lockTask_keeps|].
  intros [locked|] _; [|by apply keeps_ret].
  assert (Task.id task <> id) by (apply Hne; by left).
  apply keeps_try.
  - eapply keeps_bind; [by apply executeTask_keeps | intros; by apply keeps_ret].
  - intros msg. eapply keeps_bind; [by apply unlockTask_keeps
                                   | intros; by apply keeps_ret].
Qed.

Lemma processDueTasks_keeps isRunning WORKER_ID cfg clock env_of :
  keeps unchanged (processDueTasks isRunning WORKER_ID cfg clock env_of) anything.
Proof.
  unfold processDueTasks. destruct (negb isRunning); [by apply keeps_ret|].
  apply keeps_try; [|intros; by apply keeps_ret].
  eapply keeps_bind; [apply getDueTasks_keeps|].
  intros rows Hrows. by apply process_all_keeps.
Qed.

Lemma schedule_task_keeps env params context :
  keeps unchanged (schedule_task env params context) anything.
Proof.
  unfold schedule_task. cbv zeta.
  destruct (timing_error _); [by apply keeps_ret|].
  destruct (check_callback _ _ _ _); [by apply keeps_ret|].
  destruct (negb (payload_valid _)); [by apply keeps_ret|].
  eapply keeps_bind; [by apply keeps_same_tasks|].
  intros n _. destruct (_ >=? _); [by apply keeps_ret|].
  apply keeps_try; [|intros; by apply keeps_ret].
  eapply keeps_bind; [apply create_keeps | intros; by apply keeps_ret].
Qed.

Lemma schedule_recurring_keeps env params context :
  keeps unchanged (schedule_recurring env params context) anything.
Proof.
  unfold schedule_recurring. cbv zeta.
  destruct (negb (valid _)); [by apply keeps_ret|].
  destruct (getNextCronRun _ _ _); [|by apply keeps_ret].
  destruct (check_callback _ _ _ _); [by apply keeps_ret|].
  destruct (negb (payload_valid _)); [by apply keeps_ret|].
  eapply keeps_bind; [by apply keeps_same_tasks|].
  intros n _. destruct (_ >=? _); [by apply keeps_ret|].
  apply keeps_try; [|intros; by apply keeps_ret].
  eapply keeps_bind; [apply create_keeps|].
  intros row Hrow. eapply (keeps_bind _ _ anything); [|intros; by apply keeps_ret].
  destruct (negb _); [|by apply keeps_ret].
  apply updateStatus_keeps. congruence.
Qed.

Lemma cancel_task_keeps env params context :
  keeps unchanged (cancel_task env params context) anything.
Proof.
  unfold cancel_task. cbv zeta.
  apply keeps_try; [|intros; by apply keeps_ret].
  eapply keeps_bind; [apply getById_keeps|].
  intros [task|] Hfound; [|by apply keeps_ret].
  destruct (Hfound task eq_refl) as [Hid Hours].
  destruct (bool_decide (Task.status task = Cancelled)) eqn:Hc; [by apply keeps_ret|].
  destruct (bool_decide (Task.status task = Completed)) eqn:Hd; [by apply keeps_ret|].
  apply bool_decide_eq_false in Hc, Hd.
  eapply keeps_bind.
  { apply updateStatus_keeps. rewrite <- Hid. intros [= Heq].
    destruct (Hours Heq) as [[?|?] _]; done. }
  intros [updated|] _; [by apply keeps_ret | apply keeps_throw].
Qed.

Lemma pauseHandler_keeps env params context :
  keeps unchanged (pauseHandler env params context) anything.
Proof.
  unfold pauseHandler. cbv zeta.
  apply keeps_try; [|intros; by apply keeps_ret].
  eapply keeps_bind; [apply getById_keeps|].
  intros [task|] Hfound; [|by apply keeps_ret].
  destruct (Hfound task eq_refl) as [Hid Hours].
  destruct (bool_decide (Task.status task = Active)) eqn:Ha;
    cbn [negb]; [|by apply keeps_ret].
  apply bool_decide_eq_true in Ha.
  eapply keeps_bind.
  { apply updateStatus_keeps. rewrite <- Hid. intros [= Heq].
    destruct (Hours Heq) as [[?|?] _]; congruence. }
  intros [updated|] _; [by apply keeps_ret | apply keeps_throw].
Qed.

Lemma resumeHandler_keeps env params context :
  keeps unchanged (resumeHandler env params context) anything.
Proof.
  unfold resumeHandler. cbv zeta.
  apply keeps_try; [|intros; by apply keeps_ret].
  eapply keeps_bind; [apply getById_keeps|].
  intros [task|] Hfound; [|by apply keeps_ret].
  destruct (Hfound task eq_refl) as [Hid Hours].
  destruct (bool_decide (Task.status task = Paused)) eqn:Hp;
    cbn [negb]; [|by apply keeps_ret].
  apply bool_decide_eq_true in Hp.
  assert (Hne : Task.id task <> id).
  { intros Heq. destruct (Hours Heq) as [[?|?] _]; congruence. }
  eapply keeps_bind.
  { apply updateStatus_keeps. rewrite <- Hid. congruence. }
  intros updated _. eapply keeps_bind.
  { destruct (if _ && _ then _ else _) as [[fresh|]|];
      [by apply recordExecution_keeps | by apply keeps_ret | by apply keeps_ret]. }
  intros _ _. destruct updated; [by apply keeps_ret | apply keeps_throw].
Qed.

Lemma list_tasks_keeps env params context :
  keeps unchanged (list_tasks env params context) anything.
Proof.
  unfold list_tasks. cbv zeta.
  apply keeps_try; [|intros; by apply keeps_ret].
  eapply keeps_bind; [|intros; by apply keeps_ret].
  apply keeps_same_tasks. intros d. unfold TaskQueries.list. cbv zeta.
  destruct (negb _); [done|]. by destruct (_ <? 0).
Qed.

Lemma get_task_keeps env params context :
  keeps unchanged (get_task env params context) anything.
Proof.
  unfold get_task. cbv zeta.
  apply keeps_try; [|intros; by apply keeps_ret].
  eapply keeps_bind; [apply getById_keeps|].
  intros [task|] _; [|by apply keeps_ret].
  eapply keeps_bind; [|intros; by apply keeps_ret].
  destruct (default true _); [by apply keeps_same_tasks | by apply keeps_ret].
Qed.

Lemma executeTool_keeps env name params context :
  keeps unchanged (executeTool toolHandlers env name params context) anything.
Proof.
  unfold executeTool.
  destruct (Map_get toolHandlers name) as [h|] eqn:Hget; [|by apply keeps_ret].
  apply keeps_try; [|intros; by apply keeps_ret].
  apply new_Map_lookup in Hget. unfold tools in Hget. simpl in Hget.
  destruct Hget as [[= _ <-]|[[= _ <-]|[[= _ <-]|[[= _ <-]|[[= _ <-]|[[= _ <-]
                    |[[= _ <-]|[]]]]]]]].
  - apply schedule_task_keeps.
  - apply schedule_recurring_keeps.
  - apply list_tasks_keeps.
  - apply get_task_keeps.
  - apply cancel_task_keeps.
  - apply pauseHandler_keeps.
  - apply resumeHandler_keeps.
Qed.

Lemma perform_keeps (a : action) d :
  rows_of id d = L -> rows_of id (perform a d) = L.
Proof.
  intros Hd. destruct a as [env name params context|W cfg clock env_of|cfg clock];
    unfold perform, after.
  - pose proof (executeTool_keeps env name params context d Hd) as Hk.
    destruct (executeTool _ _ _ _ _ d) as [[r|msg] d1]; [by destruct Hk | done].
  - pose proof (processDueTasks_keeps true W cfg clock env_of d Hd) as Hk.
    destruct (processDueTasks _ _ _ _ _ d) as [[r|msg] d1]; [by destruct Hk | done].
  - pose proof (cleanupStaleLocks_keeps cfg clock d Hd) as Hk.
    destruct (cleanupStaleLocks _ _ d) as [[r|msg] d1]; [by destruct Hk | done].
Qed.

End Finished.

Section FinishedForGood.
Context `{Platform}.
Import Operation.

(** A finished task is finished for good. Once a task is [completed] or
    [cancelled] and carries no lease, no tool call through [executeTool], no
    poll of a worker and no stale-lock cleanup, taken one after another in
    any number and order, changes its row in anything: it is not executed
    again, not reactivated, and none of its fields is written. *)
Theorem finished_tasks_stay (actions : list Operation.action) (d : db) (id : jsstring) :
  finished id d ->
  rows_of id (perform_all actions d) = rows_of id d
  /\ finished id (perform_all actions d).
Proof.
  intros [Hexists Hfinished].
  assert (Hrows : rows_of id (perform_all actions d) = rows_of id d).
  { unfold perform_all. remember (rows_of id d) as L eqn:HL.
    symmetry in HL. revert d HL.
    induction actions as [|a actions IH]; intros d HL; [done|].
    simpl. apply IH. by apply perform_keeps. }
  split; [exact Hrows|]. unfold finished. by rewrite Hrows.
Qed.

End FinishedForGood.

Section FinishedExamples.
Import Reference Operation.
Local Existing Instance node.
Local Open Scope Z_scope.

Lemma finished_tasks_stay_witness :
  let env := refusing 1765969200000 in
  let d := with_tasks [Task.with_status Completed reminder; standup] sample_db in
  let actions :=
    [ ToolCall env (js "cancel_task") (params_with_id (Task.id reminder)) session_1;
      ToolCall env (js "resume_task") (params_with_id (Task.id reminder)) session_1;
      ToolCall env (js "pause_task") (params_with_id (Task.id reminder)) session_1;
      PollDue (js "worker-1a2b3c4d") default_config 1765969200000 (fun _ => env);
      ReapLocks default_config 1765969200000 ] in
  rows_of (Task.id reminder) (perform_all actions d) = rows_of (Task.id reminder) d
  /\ finished (Task.id reminder) (perform_all actions d).
Proof.
  intros env d actions.
  apply (finished_tasks_stay actions d (Task.id reminder)).
  assert (Hrows : rows_of (Task.id reminder) d = [Task.with_status Completed reminder])
    by (vm_compute; reflexivity).
  unfold finished. rewrite Hrows. split; [discriminate|].
  apply Forall_cons; [|apply Forall_nil]. split; [by left | reflexivity].
Defined.

(** Without the condition on the lease the statement fails: a task that is
    cancelled while a worker executes it ends [completed]. *)
Example cancelled_while_executing :
  let env := refusing 1765965600000 in
  let d1 := after (TaskQueries.lockTask 1765965600000 (Task.id reminder)
                     (js "worker-1a2b3c4d")) sample_db in
  let d2 := after (cancel_task env (params_with_id (Task.id reminder)) session_1) d1 in
  let d3 := after (executeTask env reminder) d2 in
  List.map Task.status (rows_of (Task.id reminder) d2) = [Cancelled]
  /\ List.map Task.status (rows_of (Task.id reminder) d3) = [Completed].
Proof. vm_compute. done. Qed.

End FinishedExamples.
(** ** No task is ever [failed] *)

Section NoFailed.
Context `{Platform}.
Import Operation.
Local Open Scope Z_scope.

Local Abbreviation anything := (fun _ => True).
























End NoFailed.

Section CancelExamples.
Import Reference Operation.
Local Existing Instance node.
Local Open Scope Z_scope.


(** Cancelling twice: the second call is refused. *)
Example cancel_task_twice :
  let env := refusing 1765965600000 in
  let call := ToolCall env (js "cancel_task") (params_with_id (uuidv4 env)) session_1 in
  let d := perform_all
             [ ToolCall env (js "schedule_task")
                 (params_webhook (js "https://example.com/hook")) session_1; call ]
             empty_db in
  List.map Task.status (tasks d) = [Cancelled]
  /\ fst (cancel_task env (params_with_id (uuidv4 env)) session_1 d)
     = Return (Reply.failure (js "Task is already cancelled")).
Proof. vm_compute. done. Qed.

End CancelExamples.

(** ** The rate limiter of index.js *)

Section RateLimit.
Import Server.
Local Open Scope Z_scope.
Implicit Types (ip : jsstring) (store : gmap jsstring record) (now tick s : Z) (r : record).

Lemma checkRateLimit_opens now ip (store : gmap jsstring record) :
  match store !! ip with
  | Some r => now - windowStart r > RATE_LIMIT_WINDOW_MS
  | None => True
  end ->
  checkRateLimit now ip store
  = ({| allowed := true; remaining := 99; retryAfter := None |},
     <[ip := {| count := 1; windowStart := now |}]> store).
Proof.
  unfold checkRateLimit. destruct (store !! ip) as [r|]; [|done].
  intros Hpast. by rewrite (proj2 (Z.gtb_gt _ _)) by lia.
Qed.

Lemma checkRateLimit_counts now ip (store : gmap jsstring record) r :
  store !! ip = Some r ->
  now - windowStart r <= RATE_LIMIT_WINDOW_MS ->
  count r < RATE_LIMIT_MAX_REQUESTS ->
  checkRateLimit now ip store
  = ({| allowed := true; remaining := 99 - count r; retryAfter := None |},
     <[ip := {| count := count r + 1; windowStart := windowStart r |}]> store).
Proof.
  intros Hr Hin Hbelow. unfold checkRateLimit. rewrite Hr.
  destruct (Z.gtb_spec (now - windowStart r) RATE_LIMIT_WINDOW_MS); [lia|].
  destruct (Z.geb_spec (count r) RATE_LIMIT_MAX_REQUESTS); [lia|].
  do 2 f_equal. unfold RATE_LIMIT_MAX_REQUESTS. lia.
Qed.

Lemma checkRateLimit_refuses now ip (store : gmap jsstring record) r :
  store !! ip = Some r ->
  now - windowStart r <= RATE_LIMIT_WINDOW_MS ->
  RATE_LIMIT_MAX_REQUESTS <= count r ->
  checkRateLimit now ip store
  = ({| allowed := false; remaining := 0;
        retryAfter := Some (ceil_div (windowStart r + RATE_LIMIT_WINDOW_MS - now) 1000) |},
     store).
Proof.
  intros Hr Hin Hfull. unfold checkRateLimit. rewrite Hr.
  destruct (Z.gtb_spec (now - windowStart r) RATE_LIMIT_WINDOW_MS); [lia|].
  destruct (Z.geb_spec (count r) RATE_LIMIT_MAX_REQUESTS); [done|lia].
Qed.

(** A request of one address leaves the record of every other address as it
    was. *)
Lemma checkRateLimit_other now ip ip' (store : gmap jsstring record) :
  ip <> ip' -> snd (checkRateLimit now ip' store) !! ip = store !! ip.
Proof.
  intros Hne. unfold checkRateLimit.
  destruct (store !! ip') as [r|]; simpl; [|by rewrite lookup_insert_ne].
  destruct (_ >? _); simpl; [by rewrite lookup_insert_ne|].
  destruct (_ >=? _); simpl; [done | by rewrite lookup_insert_ne].
Qed.

Lemma serve_in_window ip s : forall (requests : list (Z * jsstring))
    (store : gmap jsstring record) c (k : nat) v,
  store !! ip = Some {| count := c; windowStart := s |} ->
  Forall (fun q => snd q = ip -> fst q - s <= RATE_LIMIT_WINDOW_MS) requests ->
  verdicts_for ip (serve requests store) !! k = Some v ->
  allowed v = bool_decide (c + Z.of_nat k < 100)
  /\ remaining v = Z.max 0 (99 - c - Z.of_nat k).
Proof.
  induction requests as [|[t ip'] requests IH]; intros store c k v Hr Hwin Hk;
    [done|].
  apply Forall_cons_iff in Hwin as [Ht Hwin]. simpl in Ht, Hk.
  destruct (decide (ip' = ip)) as [->|Hne].
  - specialize (Ht eq_refl).
    destruct (Z.lt_ge_cases c RATE_LIMIT_MAX_REQUESTS) as [Hbelow|Hfull].
    + rewrite (checkRateLimit_counts t ip store _ Hr) in Hk by done.
      unfold verdicts_for in Hk. simpl in Hk.
      rewrite bool_decide_eq_true_2 in Hk by done. simpl in Hk.
      unfold RATE_LIMIT_MAX_REQUESTS in Hbelow.
      destruct k as [|k].
      * injection Hk as <-. simpl.
        rewrite bool_decide_eq_true_2 by lia. split; [done|lia].
      * simpl in Hk. eapply IH in Hk; [|apply lookup_insert_eq|done].
        destruct Hk as [-> ->]. split; [|lia].
        apply bool_decide_ext. lia.
    + rewrite (checkRateLimit_refuses t ip store _ Hr) in Hk by done.
      unfold verdicts_for in Hk. simpl in Hk.
      rewrite bool_decide_eq_true_2 in Hk by done. simpl in Hk.
      unfold RATE_LIMIT_MAX_REQUESTS in Hfull.
      destruct k as [|k].
      * injection Hk as <-. simpl.
        rewrite bool_decide_eq_false_2 by lia. split; [done|lia].
      * simpl in Hk. eapply IH in Hk; [|exact Hr|done].
        destruct Hk as [-> ->]. split; [|lia].
        apply bool_decide_ext. lia.
  - pose proof (checkRateLimit_other t ip ip' store (not_eq_sym Hne)) as Hsame.
    destruct (checkRateLimit t ip' store) as [v' store'].
    unfold verdicts_for in Hk. simpl in Hk, Hsame.
    rewrite bool_decide_eq_false_2 in Hk by done.
    apply (IH store' c k v); [by rewrite Hsame | done | exact Hk].
Qed.

(** The quota: when a request of [ip] at time [s] opens a window, the
    [k]-th request of [ip] from then on (counting from 0, with requests of
    other addresses in between, each request of [ip] no later than the end of
    the window) is let through exactly when [k < 100], and is told that
    [99 - k] requests remain. *)
Theorem checkRateLimit_quota ip s (requests : list (Z * jsstring))
    (store : gmap jsstring record) (k : nat) v :
  match store !! ip with
  | Some r => s - windowStart r > RATE_LIMIT_WINDOW_MS
  | None => True
  end ->
  Forall (fun q => snd q = ip -> fst q - s <= RATE_LIMIT_WINDOW_MS) requests ->
  verdicts_for ip (serve ((s, ip) :: requests) store) !! k = Some v ->
  allowed v = bool_decide (k < 100)%nat
  /\ remaining v = Z.max 0 (99 - Z.of_nat k).
Proof.
  intros Hopen Hwin Hk. simpl in Hk.
  rewrite (checkRateLimit_opens s ip store Hopen) in Hk.
  unfold verdicts_for in Hk. simpl in Hk.
  rewrite bool_decide_eq_true_2 in Hk by done. simpl in Hk.
  destruct k as [|k].
  - injection Hk as <-. simpl. split; [done|lia].
  - simpl in Hk. eapply serve_in_window in Hk; [|apply lookup_insert_eq|done].
    destruct Hk as [-> ->]. split; [|lia]. apply bool_decide_ext. lia.
Qed.

(** Invariant: whatever requests, cleanup ticks and resets have happened,
    every record counts between 1 and 100 requests. *)
Theorem rate_limit_counts_bounded (events : list event) :
  map_Forall (fun _ r => 1 <= count r <= RATE_LIMIT_MAX_REQUESTS)
             (run_events events ∅).
Proof.
  unfold run_events.
  assert (Hkeep : forall (store : gmap jsstring record),
             map_Forall (fun _ r => 1 <= count r <= RATE_LIMIT_MAX_REQUESTS) store ->
             map_Forall (fun _ r => 1 <= count r <= RATE_LIMIT_MAX_REQUESTS)
                        (fold_left (fun st e => apply_event e st) events store)).
  { induction events as [|e events IH]; intros store Hstore; [done|].
    simpl. apply IH. destruct e as [now ip| now |]; simpl.
    - unfold checkRateLimit.
      destruct (store !! ip) as [r|] eqn:Hr; simpl.
      + pose proof (Hstore ip r Hr) as Hbound. simpl in Hbound.
        destruct (_ >? _); simpl.
        * apply map_Forall_insert_2; [by unfold RATE_LIMIT_MAX_REQUESTS | done].
        * destruct (Z.geb_spec (count r) RATE_LIMIT_MAX_REQUESTS); simpl; [done|].
          apply map_Forall_insert_2; [simpl; lia | done].
      + apply map_Forall_insert_2; [by unfold RATE_LIMIT_MAX_REQUESTS | done].
    - intros ip r Hr. apply map_lookup_filter_Some in Hr as [Hr _].
      exact (Hstore ip r Hr).
    - apply map_Forall_empty. }
  apply Hkeep, map_Forall_empty.
Qed.

Lemma ceil_div_1000 a : a <= 1000 * ceil_div a 1000 < a + 1000.
Proof.
  unfold ceil_div.
  pose proof (Z.mul_div_le (- a) 1000 ltac:(lia)).
  pose proof (Z.mul_succ_div_gt (- a) 1000 ltac:(lia)). lia.
Qed.

(** Retry-After: a refused request changes nothing, and a request of the
    same address that comes more than [retryAfter] seconds later is let
    through in a new window. When the rest of the window is a whole number of
    seconds, the request that comes exactly [retryAfter] seconds later is
    refused again, with [retryAfter = 0]. *)
Theorem checkRateLimit_retry_after now ip (store : gmap jsstring record) v store' :
  checkRateLimit now ip store = (v, store') ->
  allowed v = false ->
  exists r wait,
    store !! ip = Some r /\ retryAfter v = Some wait /\ remaining v = 0
    /\ store' = store
    /\ (forall later, later > now + 1000 * wait ->
          fst (checkRateLimit later ip store')
          = {| allowed := true; remaining := 99; retryAfter := None |})
    /\ ((windowStart r + RATE_LIMIT_WINDOW_MS - now) mod 1000 = 0 ->
          fst (checkRateLimit (now + 1000 * wait) ip store')
          = {| allowed := false; remaining := 0; retryAfter := Some 0 |}).
Proof.
  unfold checkRateLimit at 1.
  destruct (store !! ip) as [r|] eqn:Hr; [|by intros [= <- <-]].
  destruct (Z.gtb_spec (now - windowStart r) RATE_LIMIT_WINDOW_MS) as [|Hin];
    [by intros [= <- <-]|].
  destruct (Z.geb_spec (count r) RATE_LIMIT_MAX_REQUESTS) as [Hfull|];
    [|by intros [= <- <-]].
  intros [= <- <-] _. cbn [allowed remaining retryAfter].
  pose proof (ceil_div_1000 (windowStart r + RATE_LIMIT_WINDOW_MS - now)) as Hceil.
  exists r, (ceil_div (windowStart r + RATE_LIMIT_WINDOW_MS - now) 1000).
  repeat split; try done.
  - intros later Hlater. rewrite checkRateLimit_opens; [done|].
    rewrite Hr. cbv beta iota. lia.
  - intros Hwhole.
    assert (Hexact : 1000 * ceil_div (windowStart r + RATE_LIMIT_WINDOW_MS - now) 1000
                     = windowStart r + RATE_LIMIT_WINDOW_MS - now).
    { unfold ceil_div. rewrite Z.div_opp_l_z by lia.
      rewrite Z.opp_involutive. symmetry. apply Z.div_exact; lia. }
    rewrite (checkRateLimit_refuses _ ip store r Hr); [|lia|done].
    cbn [fst]. do 2 f_equal. rewrite Hexact.
    replace (windowStart r + RATE_LIMIT_WINDOW_MS
             - (now + (windowStart r + RATE_LIMIT_WINDOW_MS - now))) with 0 by lia.
    reflexivity.
Qed.

(** The cleanup interval cannot be observed: a request that comes at or
    after a tick of the cleanup gets the verdict it would have got without
    the tick, and leaves the same record for its address. *)
Theorem cleanup_unobservable tick now ip (store : gmap jsstring record) :
  tick <= now ->
  fst (checkRateLimit now ip (cleanup tick store)) = fst (checkRateLimit now ip store)
  /\ snd (checkRateLimit now ip (cleanup tick store)) !! ip
     = snd (checkRateLimit now ip store) !! ip.
Proof.
  intros Hlater. unfold cleanup.
  destruct (store !! ip) as [r|] eqn:Hr.
  - destruct (decide (tick - windowStart r > RATE_LIMIT_WINDOW_MS)) as [Hpast|Hlive].
    + rewrite !checkRateLimit_opens; simpl.
      * by rewrite !lookup_insert_eq.
      * rewrite Hr. lia.
      * rewrite (proj2 (map_lookup_filter_None _ _ _)); [done|].
        right. intros r' Hr'. simpl. rewrite Hr in Hr'. injection Hr' as <-. tauto.
    + assert (Hkept : base.filter
                (fun kv : jsstring * record =>
                   ~ tick - windowStart (snd kv) > RATE_LIMIT_WINDOW_MS) store !! ip
              = Some r) by (by apply map_lookup_filter_Some).
      unfold checkRateLimit. rewrite Hkept, Hr.
      destruct (_ >? _); simpl; [by rewrite !lookup_insert_eq|].
      destruct (_ >=? _); simpl; [by rewrite Hkept, Hr | by rewrite !lookup_insert_eq].
  - assert (Hnone : base.filter
                (fun kv : jsstring * record =>
                   ~ tick - windowStart (snd kv) > RATE_LIMIT_WINDOW_MS) store !! ip
              = None) by (apply map_lookup_filter_None; by left).
    unfold checkRateLimit. rewrite Hnone, Hr. simpl. by rewrite !lookup_insert_eq.
Qed.

Lemma hd_split_char c first rest :
  includes_char c first = false ->
  List.hd [] (split_char c (first ++ c :: rest)) = first.
Proof.
  unfold includes_char. induction first as [|x first IH]; simpl.
  - by rewrite N.eqb_refl.
  - intros Hnot. apply orb_false_iff in Hnot as [Hx Hnot].
    rewrite N.eqb_sym, Hx. specialize (IH Hnot).
    destruct (split_char c (first ++ c :: rest)); simpl in *; by subst.
Qed.

Lemma hd_split_char_whole c first :
  includes_char c first = false -> List.hd [] (split_char c first) = first.
Proof.
  unfold includes_char. induction first as [|x first IH]; simpl; [done|].
  intros Hnot. apply orb_false_iff in Hnot as [Hx Hnot].
  rewrite N.eqb_sym, Hx. specialize (IH Hnot).
  destruct (split_char c first); simpl in *; by subst.
Qed.

(** [getClientIp] never returns the empty string. It is [req.ip] when that
    is a non-empty string. Otherwise it is the first entry of the header
    [X-Forwarded-For] (the whole header when it holds no comma), trimmed,
    when that is not empty; and when there is no such header, or its first
    entry is blank, it is the remote address of the connection, or [unknown]
    without one. *)
Theorem getClientIp_spec (req : client) :
  let fallback := if truthy_opt (remoteAddress req)
                  then default [] (remoteAddress req) else js "unknown" in
  getClientIp req <> []
  /\ (truthy_opt (req_ip req) = true -> Some (getClientIp req) = req_ip req)
  /\ (truthy_opt (req_ip req) = false ->
      forall header first,
        x_forwarded_for req = Some header ->
        header = first \/ (exists rest, header = first ++ ch "," :: rest) ->
        includes_char (ch ",") first = false ->
        getClientIp req = if truthy (trim first) then trim first else fallback)
  /\ (truthy_opt (req_ip req) = false -> x_forwarded_for req = None ->
      getClientIp req = fallback).
Proof.
  cbv zeta. unfold getClientIp. split; [|split; [|split]].
  - destruct (req_ip req) as [[|? ?]|]; simpl; try done;
      destruct (x_forwarded_for req) as [header|]; simpl;
      try destruct (trim _) as [|? ?]; simpl; try done;
      destruct (remoteAddress req) as [[|? ?]|]; simpl; done.
  - by destruct (req_ip req) as [[|? ?]|].
  - intros Hip header first Hheader Hfirst Hcomma. rewrite Hip, Hheader.
    assert (Hhd : List.hd [] (split_char (ch ",") header) = first).
    { destruct Hfirst as [->|(rest & ->)];
        [by apply hd_split_char_whole | by apply hd_split_char]. }
    rewrite Hhd. cbn [truthy_opt default from_option id].
    by destruct (truthy (trim first)).
  - intros Hip Hnone. by rewrite Hip, Hnone.
Qed.

End RateLimit.

Section RateLimitExamples.
Import Server.
Local Open Scope Z_scope.

Lemma checkRateLimit_quota_witness :
  allowed {| allowed := true; remaining := 98; retryAfter := None |}
  = bool_decide (1 < 100)%nat
  /\ remaining {| allowed := true; remaining := 98; retryAfter := None |}
     = Z.max 0 (99 - Z.of_nat 1).
Proof.
  apply (checkRateLimit_quota (js "198.51.100.7") 1765965600000
           [ (1765965601000, js "203.0.113.9"); (1765965602000, js "198.51.100.7") ]
           ∅ 1).
  - done.
  - apply Forall_cons; [simpl; intros _; unfold RATE_LIMIT_WINDOW_MS; lia|].
    apply Forall_cons; [simpl; intros _; unfold RATE_LIMIT_WINDOW_MS; lia|].
    apply Forall_nil.
  - vm_compute. reflexivity.
Defined.

Lemma checkRateLimit_retry_after_witness :
  let full := {[ js "198.51.100.7" := {| count := 100; windowStart := 1765965600000 |} ]} in
  exists r wait,
    full !! js "198.51.100.7" = Some r
    /\ retryAfter {| allowed := false; remaining := 0; retryAfter := Some 900 |} = Some wait
    /\ remaining {| allowed := false; remaining := 0; retryAfter := Some 900 |} = 0
    /\ full = full
    /\ (forall later, later > 1765965600000 + 1000 * wait ->
          fst (checkRateLimit later (js "198.51.100.7") full)
          = {| allowed := true; remaining := 99; retryAfter := None |})
    /\ ((windowStart r + RATE_LIMIT_WINDOW_MS - 1765965600000) mod 1000 = 0 ->
          fst (checkRateLimit (1765965600000 + 1000 * wait) (js "198.51.100.7") full)
          = {| allowed := false; remaining := 0; retryAfter := Some 0 |}).
Proof.
  intros full.
  apply (checkRateLimit_retry_after 1765965600000 (js "198.51.100.7") full).
  - vm_compute. reflexivity.
  - reflexivity.
Defined.

Lemma cleanup_unobservable_witness :
  let store := {[ js "198.51.100.7" := {| count := 100; windowStart := 1765965600000 |} ]} in
  fst (checkRateLimit 1765966600000 (js "198.51.100.7") (cleanup 1765966500001 store))
  = fst (checkRateLimit 1765966600000 (js "198.51.100.7") store)
  /\ snd (checkRateLimit 1765966600000 (js "198.51.100.7") (cleanup 1765966500001 store))
       !! js "198.51.100.7"
     = snd (checkRateLimit 1765966600000 (js "198.51.100.7") store) !! js "198.51.100.7".
Proof.
  intros store. apply (cleanup_unobservable 1765966500001 1765966600000). lia.
Defined.

(** The client that waits exactly [Retry-After] seconds: refused at the
    start of the window's last millisecond, with [Retry-After: 0]. *)
Example checkRateLimit_refused_after_waiting :
  let full := {[ js "198.51.100.7" := {| count := 100; windowStart := 0 |} ]} in
  fst (checkRateLimit 0 (js "198.51.100.7") full)
  = {| allowed := false; remaining := 0; retryAfter := Some 900 |}
  /\ fst (checkRateLimit 900000 (js "198.51.100.7") full)
     = {| allowed := false; remaining := 0; retryAfter := Some 0 |}.
Proof. vm_compute. done. Qed.

Example getClientIp_forwarded :
  getClientIp {| req_ip := None;
                 x_forwarded_for := Some (js " 203.0.113.9 , 10.0.0.1");
                 remoteAddress := Some (js "10.0.0.1") |}
  = js "203.0.113.9"
  /\ getClientIp {| req_ip := None;
                    x_forwarded_for := Some (js "203.0.113.9");
                    remoteAddress := Some (js "10.0.0.1") |}
     = js "203.0.113.9"
  /\ getClientIp {| req_ip := None;
                    x_forwarded_for := Some (js " ,203.0.113.9");
                    remoteAddress := Some (js "10.0.0.1") |}
     = js "10.0.0.1".
Proof. vm_compute. done. Qed.

End RateLimitExamples.

(** ** Starting and stopping the scheduler *)

Section SchedulerLifecycle.
Import Lifecycle.

Lemma calling_disjoint (l : list (nat * callback)) h :
  NoDup (List.map fst l) ->
  In (h, Poll) l -> ~ In (h, Reap) l.
Proof.
  induction l as [|[h0 f0] l IH]; simpl; [done|].
  inversion 1 as [|? ? Hnotin Hnodup]; subst.
  intros [Hhead|Hpoll] [Hhead'|Hreap].
  - congruence.
  - injection Hhead as -> _. apply Hnotin. by apply (in_map fst _ (h, Reap)).
  - injection Hhead' as -> _. apply Hnotin. by apply (in_map fst _ (h, Poll)).
  - by apply IH.
Qed.

Lemma in_calling f s h :
  In h (calling f s) <-> In (h, f) (intervals s).
Proof.
  unfold calling. rewrite in_map_iff. split.
  - intros ([h0 f0] & <- & Hin). apply filter_In in Hin as [Hin Hkind].
    simpl in *. by destruct f0, f.
  - intros Hin. exists (h, f). split; [done|]. apply filter_In.
    split; [done|]. by destruct f.
Qed.

Lemma filter_keeps {A : Type} (keep : A -> bool) (l : list A) :
  (forall x, In x l -> keep x = true) -> List.filter keep l = l.
Proof.
  induction l as [|x l IH]; intros Hall; [done|]. simpl.
  rewrite Hall by (by left). f_equal. apply IH. intros y Hy. apply Hall. by right.
Qed.

Lemma calling_clearInterval f h s :
  calling f (clearInterval h s)
  = List.filter (fun h0 => negb (Nat.eqb h0 h)) (calling f s).
Proof.
  unfold calling, clearInterval. cbn [intervals].
  induction (intervals s) as [|[h0 f0] l IH]; [done|]. simpl.
  destruct (Nat.eqb h0 h) eqn:Hh; simpl.
  - destruct f0, f; simpl; rewrite ?Hh; simpl; exact IH.
  - destruct f0, f; simpl; rewrite ?Hh; simpl; by rewrite ?IH.
Qed.

Lemma startScheduler_well_formed s :
  well_formed s -> well_formed (fst (startScheduler s)).
Proof.
  unfold startScheduler. intros (Hnodup & Hbelow & Hpoll & Hcount).
  destruct (isRunning s) eqn:Hrun; simpl.
  { unfold well_formed. by rewrite Hrun. }
  destruct Hpoll as [Hnone Hnopoll].
  unfold well_formed, calling in *. cbn [intervals isRunning pollInterval next_handle].
  rewrite !map_app, !filter_app, !map_app, <- !app_assoc in *. simpl.
  split; [|split; [|split]].
  - apply NoDup_app; [exact Hnodup | |].
    + apply NoDup_cons; [intros [?|[]]; lia|]. apply NoDup_cons; [by intros []|].
      apply NoDup_nil.
    + intros h Hin [<-|[<-|[]]]; specialize (Hbelow _ Hin); lia.
  - intros h Hin. apply in_app_or in Hin as [Hin|[<-|[<-|[]]]]; [|lia|lia].
    specialize (Hbelow _ Hin). lia.
  - exists (next_handle s). split; [done|]. by rewrite Hnopoll.
  - rewrite length_app. simpl. lia.
Qed.

Lemma stopScheduler_running s h :
  isRunning s = true -> pollInterval s = Some h ->
  stopScheduler s = clearInterval h {| isRunning := false; pollInterval := None;
                                       intervals := intervals s;
                                       next_handle := next_handle s |}.
Proof. intros Hrun Hh. unfold stopScheduler. by rewrite Hrun; simpl; rewrite Hh. Qed.

Lemma calling_stopped f s :
  calling f {| isRunning := false; pollInterval := None; intervals := intervals s;
               next_handle := next_handle s |} = calling f s.
Proof. reflexivity. Qed.

Lemma stopScheduler_well_formed s :
  well_formed s -> well_formed (stopScheduler s).
Proof.
  intros Hwf. destruct (isRunning s) eqn:Hrun.
  2:{ unfold stopScheduler. by rewrite Hrun. }
  destruct Hwf as (Hnodup & Hbelow & Hpoll & Hcount). rewrite Hrun in Hpoll.
  destruct Hpoll as (h & Hh & Hone).
  rewrite (stopScheduler_running s h Hrun Hh).
  assert (Hin : In (h, Poll) (intervals s))
    by (apply in_calling; rewrite Hone; by left).
  assert (Hreap : List.filter (fun h0 => negb (Nat.eqb h0 h)) (calling Reap s)
                  = calling Reap s).
  { apply filter_keeps. intros h0 Hh0. apply negb_true_iff, Nat.eqb_neq.
    intros ->. apply in_calling in Hh0. by apply (calling_disjoint _ h Hnodup). }
  unfold well_formed.
  rewrite !calling_clearInterval, !calling_stopped, Hreap, Hone.
  cbn [intervals clearInterval isRunning pollInterval next_handle].
  split; [|split; [|split]].
  - by apply NoDup_map_filter.
  - intros h0 Hh0. apply Hbelow. apply in_map_iff in Hh0 as (t & <- & Ht).
    apply filter_In in Ht as [Ht _]. by apply in_map.
  - split; [done|]. simpl. by rewrite Nat.eqb_refl.
  - exact Hcount.
Qed.

(** The module state after any sequence of [startScheduler] and
    [stopScheduler] calls. A running scheduler has exactly one polling
    interval, the one [pollInterval] names, and [startScheduler] on it does
    nothing; a stopped one has no polling interval. The reaping intervals are
    never cleared: [stopScheduler] leaves them all, and each start that takes
    effect adds one, so that of the handles issued so far every second one is
    a reaping interval still set. *)
Theorem scheduler_lifecycle (commands : list command) :
  let s := obey_all commands initial in
  (isRunning s = true ->
     (exists h, pollInterval s = Some h /\ calling Poll s = [h])
     /\ startScheduler s = (s, false))
  /\ (isRunning s = false ->
      pollInterval s = None /\ calling Poll s = []
      /\ calling Reap (fst (startScheduler s)) = calling Reap s ++ [S (next_handle s)])
  /\ next_handle s = 2 * length (calling Reap s)
  /\ calling Reap (stopScheduler s) = calling Reap s.
Proof.
  cbv zeta.
  assert (Hwf : well_formed (obey_all commands initial)).
  { unfold obey_all.
    assert (Hkeep : forall s, well_formed s ->
              well_formed (fold_left (fun s c => obey c s) commands s)).
    { induction commands as [|c commands IH]; intros s Hs; [done|].
      simpl. apply IH. destruct c; simpl;
        [by apply startScheduler_well_formed | by apply stopScheduler_well_formed]. }
    apply Hkeep. unfold well_formed, initial, calling. simpl.
    split; [constructor|]. split; [by intros h []|]. by split. }
  set (s := obey_all commands initial) in *.
  pose proof (stopScheduler_well_formed s Hwf) as Hstopped.
  destruct Hwf as (Hnodup & Hbelow & Hpoll & Hcount).
  split; [|split; [|split]].
  - intros Hrun. rewrite Hrun in Hpoll. split; [exact Hpoll|].
    unfold startScheduler. by rewrite Hrun.
  - intros Hrun. rewrite Hrun in Hpoll. destruct Hpoll as [Hnone Hnopoll].
    split; [done|]. split; [done|].
    unfold startScheduler. rewrite Hrun. unfold calling. simpl.
    by rewrite !filter_app, !map_app, <- app_assoc.
  - exact Hcount.
  - destruct (isRunning s) eqn:Hrun.
    2:{ unfold stopScheduler. by rewrite Hrun. }
    destruct Hpoll as (h & Hh & Hone).
    rewrite (stopScheduler_running s h Hrun Hh).
    rewrite calling_clearInterval, calling_stopped. apply filter_keeps.
    intros h0 Hh0. apply negb_true_iff, Nat.eqb_neq. intros ->.
    apply in_calling in Hh0. apply (calling_disjoint _ h Hnodup); [|done].
    apply in_calling. rewrite Hone. by left.
Qed.

(** Stopping and starting again: the polling interval is replaced, and two
    reaping intervals are set. *)
Example scheduler_restart :
  let s := obey_all [Start; Stop; Start; Start] initial in
  isRunning s = true /\ calling Poll s = [2] /\ calling Reap s = [1; 3].
Proof. vm_compute. done. Qed.

End SchedulerLifecycle.

(** ** The JSON-RPC endpoint of index.js *)

Section JsonRpc.
Context `{Platform}.
Import Server.
Local Open Scope Z_scope.





End JsonRpc.

Section JsonRpcExamples.
Import Reference Server.
Local Existing Instance node.
Local Open Scope Z_scope.

(** A call of a tool that does not exist is answered with a result, not
    with a JSON-RPC error. *)
Example post_mcp_unknown_tool :
  let req := {| jsonrpc := Some (js "2.0"); rpc_id := Some (JNum 7);
                method := Some (js "tools/call");
                call_name := Some (js "drop_tables"); call_arguments := None |} in
  let from := {| req_ip := Some (js "198.51.100.7"); x_forwarded_for := None;
                 remoteAddress := None |} in
  post_mcp (refusing 1765965600000) (Body req) from None 1765965599990 ∅ sample_db
  = ({| rpc_status := 200; response_id := Some (JNum 7);
        rpc_body := ToolReply (Reply.failure (js "Unknown tool: drop_tables")) |},
     {[ js "198.51.100.7" := {| count := 1; windowStart := 1765965599990 |} ]},
     sample_db).
Proof. vm_compute. reflexivity. Qed.

(** A body that is no JSON: the error middleware answers, and the request
    does not count against the quota of its address. *)
Example post_mcp_malformed_body :
  let from := {| req_ip := Some (js "198.51.100.7"); x_forwarded_for := None;
                 remoteAddress := None |} in
  post_mcp (refusing 1765965600000) Unparsable from None 1765965599990 ∅ sample_db
  = ({| rpc_status := 500; response_id := None; rpc_body := InternalServerError |},
     ∅, sample_db).
Proof. reflexivity. Qed.

End JsonRpcExamples.
